(** * junit_xml_parser: validation, classification and merge of JUnit XML reports

    A shallow embedding of [test_reporting/junit_xml_parser.py].

    The Python values the program handles are modelled as follows.
    - [str] is [string] (ASCII); [int] is [Z]; [bool] is [bool].
    - [float] is IEEE-754 binary64, modelled exactly over [Z]
      (type [float] below), with round-to-nearest-even.
    - a [dict] is an insertion-ordered association list ([dict K V]);
      iteration order matters to the program because the elapsed time is a
      floating-point sum accumulated in iteration order.
    - an [xml.etree] element is [Element]: tag, attributes, children.
    - exceptions are values of [exn]; a computation that may raise returns
      [result]; the entry points that print or read files run in [IO]. *)

From Stdlib Require Import ZArith List String Ascii Bool Lia Permutation.
From Stdlib Require Import Decimal DecimalString DecimalPos.
Import ListNotations.

Local Open Scope string_scope.
Local Open Scope list_scope.

(** String concatenation, kept apart from list append. *)
Infix "+++" := String.append (right associativity, at level 60).

(* ------------------------------------------------------------------ *)
(** ** Exceptions and the error monad *)

Inductive exn : Type :=
| JUnitXMLValidationError (msg : string)
| ValueError (msg : string)
| TypeError (msg : string)
| KeyError (key : string)
| AttributeError (msg : string)
| OSError (filename : string).

Inductive result (A : Type) : Type :=
| Ok (a : A)
| Raise (e : exn).

Arguments Ok {A} a.
Arguments Raise {A} e.

Definition bind {A B : Type} (m : result A) (k : A -> result B) : result B :=
  match m with
  | Ok a => k a
  | Raise e => Raise e
  end.

Notation "'let*' x ':=' m 'in' k" := (bind m (fun x => k))
  (at level 10, x pattern, m at level 100, k at level 200).

Definition is_ok {A : Type} (m : result A) : bool :=
  match m with Ok _ => true | Raise _ => false end.

(** [for x in l: ...] over an accumulator, stopping at the first exception. *)
Fixpoint foldM {A B : Type} (f : A -> B -> result A) (a : A) (l : list B)
  : result A :=
  match l with
  | [] => Ok a
  | x :: l' => let* a' := f a x in foldM f a' l'
  end.

(* ------------------------------------------------------------------ *)
(** ** Characters and strings *)

Definition chars (s : string) : list ascii := list_ascii_of_string s.
Definition str_of_chars (l : list ascii) : string := string_of_list_ascii l.

Definition is_digit (c : ascii) : bool :=
  let n := nat_of_ascii c in (48 <=? n)%nat && (n <=? 57)%nat.

(** Whitespace as [int] and [float] skip it around a number: TAB..CR and
    SPACE. *)
Definition is_space (c : ascii) : bool :=
  let n := nat_of_ascii c in
  ((9 <=? n)%nat && (n <=? 13)%nat) || (n =? 32)%nat.

Fixpoint lstrip (l : list ascii) : list ascii :=
  match l with
  | c :: l' => if is_space c then lstrip l' else l
  | [] => []
  end.

Definition strip (l : list ascii) : list ascii :=
  List.rev (lstrip (List.rev (lstrip l))).

Definition lower (c : ascii) : ascii :=
  let n := nat_of_ascii c in
  if (65 <=? n)%nat && (n <=? 90)%nat then ascii_of_nat (n + 32) else c.

Fixpoint list_eqb {A : Type} (eqb : A -> A -> bool) (l1 l2 : list A) : bool :=
  match l1, l2 with
  | [], [] => true
  | x :: l1', y :: l2' => eqb x y && list_eqb eqb l1' l2'
  | _, _ => false
  end.

Definition chars_eqb : list ascii -> list ascii -> bool := list_eqb Ascii.eqb.

Definition newline : string := String (ascii_of_nat 10) "".

(** The double quote character, and a text between double quotes. *)
Definition dquote : ascii := ascii_of_nat 34.
Definition quoted (s : string) : string :=
  String dquote s +++ String dquote "".

Definition mem_str (s : string) (l : list string) : bool :=
  existsb (String.eqb s) l.

(** [sep.join(l)] *)
Fixpoint join (sep : string) (l : list string) : string :=
  match l with
  | [] => ""
  | [x] => x
  | x :: l' => x +++ sep +++ join sep l'
  end.

Definition hex_digit (n : nat) : ascii :=
  ascii_of_nat (if (n <? 10)%nat then 48 + n else 87 + n).

(** [repr(s)] of a [str]: single quotes unless the text holds a single quote
    and no double quote; backslash, the quote, TAB, LF and CR are escaped,
    other control characters are written [\xNN]. *)
Definition repr_char (quote : ascii) (c : ascii) : list ascii :=
  let n := nat_of_ascii c in
  if Ascii.eqb c "\" then ["\"; "\"]%char
  else if Ascii.eqb c quote then ["\"%char; quote]
  else if (n =? 9)%nat then ["\"; "t"]%char
  else if (n =? 10)%nat then ["\"; "n"]%char
  else if (n =? 13)%nat then ["\"; "r"]%char
  else if (n <? 32)%nat || (n =? 127)%nat
       then ["\"; "x"]%char ++ [hex_digit (n / 16); hex_digit (n mod 16)]
  else [c].

Definition repr_str (s : string) : string :=
  let l := chars s in
  let quote :=
    if existsb (Ascii.eqb "'") l && negb (existsb (Ascii.eqb dquote) l)
    then dquote else "'"%char in
  str_of_chars ([quote] ++ flat_map (repr_char quote) l ++ [quote]).

(** [repr] of a dictionary key that may be [None]. *)
Definition repr_key (k : option string) : string :=
  match k with
  | Some s => repr_str s
  | None => "None"
  end.

(** [str(e)] for an exception. *)
Definition str_exn (e : exn) : string :=
  match e with
  | JUnitXMLValidationError m => m
  | ValueError m => m
  | TypeError m => m
  | KeyError k => repr_str k
  | AttributeError m => m
  | OSError f => "[Errno 2] No such file or directory: " +++ repr_str f
  end.

(* ------------------------------------------------------------------ *)
(** ** Insertion-ordered dictionaries *)

Section Dict.
Context {K V : Type}.
Variable eqb : K -> K -> bool.

Definition dict := list (K * V).

Fixpoint dict_get (k : K) (d : dict) : option V :=
  match d with
  | [] => None
  | (k', v) :: d' => if eqb k k' then Some v else dict_get k d'
  end.

Definition dict_mem (k : K) (d : dict) : bool :=
  match dict_get k d with Some _ => true | None => false end.

(** [d[k] = v]: an existing key keeps its position, a new key goes last. *)
Fixpoint dict_set (k : K) (v : V) (d : dict) : dict :=
  match d with
  | [] => [(k, v)]
  | (k', v') :: d' =>
      if eqb k k' then (k', v) :: d' else (k', v') :: dict_set k v d'
  end.

(** [d1 == d2]: same keys, equal values, whatever the order. *)
Definition dict_eqb (veqb : V -> V -> bool) (d1 d2 : dict) : bool :=
  (List.length d1 =? List.length d2)%nat
  && forallb (fun kv => match dict_get (fst kv) d2 with
                        | Some v => veqb (snd kv) v
                        | None => false
                        end) d1.
End Dict.

Arguments dict K V : clear implicits.

Definition key_eqb (a b : option string) : bool :=
  match a, b with
  | Some x, Some y => String.eqb x y
  | None, None => true
  | _, _ => false
  end.

(** [repr(d)] for a [dict] from optional names to strings. *)
Definition repr_dict (d : dict (option string) string) : string :=
  "{" +++ join ", " (map (fun kv => repr_key (fst kv) +++ ": " +++ repr_str (snd kv)) d)
      +++ "}".

(* ------------------------------------------------------------------ *)
(** ** Integers: [int(s)] and [str(n)] *)

Local Open Scope Z_scope.

(** Digit grouping: an underscore is accepted only between two digits, and
    is dropped. [prev] is the character read before ([NUL] at the start). *)
Fixpoint remove_underscores (prev : ascii) (l : list ascii)
  : option (list ascii) :=
  match l with
  | [] => if Ascii.eqb prev "_" then None else Some []
  | c :: l' =>
      if Ascii.eqb c "_" then
        if is_digit prev then remove_underscores c l' else None
      else if Ascii.eqb prev "_" && negb (is_digit c) then None
      else option_map (cons c) (remove_underscores c l')
  end.

Definition split_sign (l : list ascii) : bool * list ascii :=
  match l with
  | "-"%char :: r => (true, r)
  | "+"%char :: r => (false, r)
  | _ => (false, l)
  end.

(** [int(s)] for a [str] argument, base 10. *)
Definition py_int (s : string) : result Z :=
  let err := Raise (ValueError
                      ("invalid literal for int() with base 10: " +++ repr_str s)) in
  let (neg, body) := split_sign (strip (chars s)) in
  match remove_underscores Ascii.zero body with
  | Some ds =>
      match NilZero.uint_of_string (str_of_chars ds) with
      | Some d => Ok (if neg then - Z.of_uint d else Z.of_uint d)
      | None => err
      end
  | None => err
  end.

(** [str(n)] for an [int]. *)
Definition str_int (n : Z) : string := NilZero.string_of_int (Z.to_int n).

(** Decimal digits of a non-negative integer, without sign. *)
Definition digits_of (n : Z) : list ascii :=
  chars (NilZero.string_of_uint (N.to_uint (Z.to_N n))).

(** Value of a run of decimal digits ([0] for the empty run). *)
Definition Z_of_digits (ds : list ascii) : Z :=
  fold_left (fun acc c => 10 * acc + (Z.of_nat (nat_of_ascii c) - 48)) ds 0.

(* ------------------------------------------------------------------ *)
(** ** Floats: IEEE-754 binary64, exactly

    A finite non-zero float is [Ffin neg m e], of value [(-1)^neg * m * 2^e],
    kept canonical: [2^52 <= m < 2^53] and [-1074 <= e <= 971], or
    [m < 2^52] and [e = -1074] (subnormal). *)

Inductive float : Type :=
| Fnan
| Finf (neg : bool)
| Fzero (neg : bool)
| Ffin (neg : bool) (m : positive) (e : Z).

Definition float_eqb (x y : float) : bool :=
  match x, y with
  | Fnan, Fnan => true
  | Finf a, Finf b => Bool.eqb a b
  | Fzero a, Fzero b => Bool.eqb a b
  | Ffin a m e, Ffin b m' e' => Bool.eqb a b && Pos.eqb m m' && Z.eqb e e'
  | _, _ => false
  end.

(** Nearest integer to [num/den], ties to even ([0 < den]). *)
Definition round_half_even (num den : Z) : Z :=
  let q := num / den in
  let r := num mod den in
  if 2 * r <? den then q
  else if den <? 2 * r then q + 1
  else if Z.even q then q else q + 1.

(** The binary64 nearest to the rational [n/d] ([0 < n], [0 < d]), with the
    given sign: overflow gives an infinity, underflow a subnormal or zero. *)
Definition float_of_ratio (neg : bool) (n d : Z) : float :=
  let k := Z.log2 n - Z.log2 d in
  let e0 := if d * 2 ^ Z.max k 0 <=? n * 2 ^ Z.max (- k) 0 then k else k - 1 in
  let e := Z.max (e0 - 52) (-1074) in
  let m := round_half_even (n * 2 ^ Z.max (- e) 0) (d * 2 ^ Z.max e 0) in
  let (m, e) := if m =? 2 ^ 53 then (2 ^ 52, e + 1) else (m, e) in
  if m =? 0 then Fzero neg
  else if 971 <? e then Finf neg
  else Ffin neg (Z.to_pos m) e.

(** The binary64 nearest to [c * 10^p] ([0 < c]). *)
Definition float_of_decimal (neg : bool) (c p : Z) : float :=
  float_of_ratio neg (c * 10 ^ Z.max p 0) (10 ^ Z.max (- p) 0).

(** [float(n)] for an [int]. *)
Definition float_of_int (n : Z) : float :=
  if n =? 0 then Fzero false
  else float_of_ratio (n <? 0) (Z.abs n) 1.

(** [x + y] *)
Definition fadd (x y : float) : float :=
  match x, y with
  | Fnan, _ | _, Fnan => Fnan
  | Finf a, Finf b => if Bool.eqb a b then Finf a else Fnan
  | Finf a, _ => Finf a
  | _, Finf b => Finf b
  | Fzero a, Fzero b => Fzero (a && b)
  | Fzero _, _ => y
  | _, Fzero _ => x
  | Ffin a m e, Ffin b m' e' =>
      let e0 := Z.min e e' in
      let s := (if a then -1 else 1) * Z.pos m * 2 ^ (e - e0)
               + (if b then -1 else 1) * Z.pos m' * 2 ^ (e' - e0) in
      if s =? 0 then Fzero false
      else float_of_ratio (s <? 0) (Z.abs s * 2 ^ Z.max e0 0) (2 ^ Z.max (- e0) 0)
  end.

(** [round(x, ndigits)] for a float and [0 <= ndigits]: the exact value is
    rounded half-even to [ndigits] decimals and the decimal read back. *)
Definition py_round (x : float) (ndigits : Z) : float :=
  match x with
  | Ffin neg m e =>
      let r := round_half_even (Z.pos m * 2 ^ Z.max e 0 * 10 ^ ndigits)
                               (2 ^ Z.max (- e) 0) in
      if r =? 0 then Fzero neg else float_of_decimal neg r (- ndigits)
  | _ => x
  end.

(** *** [float(s)] *)

Fixpoint span_digits (l : list ascii) : list ascii * list ascii :=
  match l with
  | c :: l' =>
      if is_digit c then let (ds, r) := span_digits l' in (c :: ds, r)
      else ([], l)
  | [] => ([], [])
  end.

(** The exponent part: nothing, or [e] or [E], an optional sign and at
    least one digit, up to the end of the text. *)
Definition parse_exponent (l : list ascii) : option Z :=
  match l with
  | [] => Some 0
  | c :: r =>
      if Ascii.eqb (lower c) "e" then
        let (neg, r') := split_sign r in
        match span_digits r' with
        | ((_ :: _) as ds, []) => Some (if neg then - Z_of_digits ds else Z_of_digits ds)
        | _ => None
        end
      else None
  end.

(** A decimal literal as (digits read as an integer, power of ten). *)
Definition parse_decimal (l : list ascii) : option (Z * Z) :=
  let (ip, r) := span_digits l in
  let (fp, r') := match r with
                  | "."%char :: r1 => span_digits r1
                  | _ => ([], r)
                  end in
  match ip ++ fp with
  | [] => None
  | ds => match parse_exponent r' with
          | Some ex => Some (Z_of_digits ds, ex - Z.of_nat (List.length fp))
          | None => None
          end
  end.

(** [float(s)] for a [str] argument. *)
Definition py_float (s : string) : result float :=
  let err := Raise (ValueError ("could not convert string to float: " +++ repr_str s)) in
  match remove_underscores Ascii.zero (strip (chars s)) with
  | None => err
  | Some l =>
      let (neg, body) := split_sign l in
      let lw := map lower body in
      if chars_eqb lw (chars "inf") || chars_eqb lw (chars "infinity")
      then Ok (Finf neg)
      else if chars_eqb lw (chars "nan") then Ok Fnan
      else match parse_decimal body with
           | Some (c, p) =>
               Ok (if c =? 0 then Fzero neg else float_of_decimal neg c p)
           | None => err
           end
  end.

(** *** [str(x)]: the shortest decimal that reads back as [x] *)

(** Least [j >= j0] with [d <= n * 10^j], searched for [fuel] steps. *)
Fixpoint first_scale (fuel : nat) (j n d : Z) : Z :=
  match fuel with
  | O => j
  | S f => if d <=? n * 10 ^ j then j else first_scale f (j + 1) n d
  end.

(** The position [dp] of the decimal point of [n/d]:
    [10^(dp-1) <= n/d < 10^dp]. A binary64 is above [10^-324], which the
    search covers. *)
Definition decimal_point (n d : Z) : Z :=
  if d <=? n then Z.of_nat (List.length (digits_of (n / d)))
  else 1 - first_scale 400 1 n d.

(** With [k] significant digits, the two decimals around [n/d] are tried;
    one that reads back as [x] is taken (the nearer when both do), else
    [k] grows. Seventeen digits always read back. *)
Fixpoint shortest_digits (fuel : nat) (k : Z) (x : float) (n d dp : Z)
  : Z * Z :=
  let p := dp - k in
  let num := n * 10 ^ Z.max (- p) 0 in
  let den := d * 10 ^ Z.max p 0 in
  let near := round_half_even num den in
  match fuel with
  | O => (near, p)
  | S f =>
      let lo := num / den in
      let hi := lo + 1 in
      let ok_lo := (0 <? lo) && float_eqb (float_of_decimal false lo p) x in
      let ok_hi := float_eqb (float_of_decimal false hi p) x in
      if ok_lo && ok_hi then (near, p)
      else if ok_lo then (lo, p)
      else if ok_hi then (hi, p)
      else shortest_digits f (k + 1) x n d dp
  end.

Fixpoint drop_zeros (l : list ascii) : list ascii :=
  match l with
  | c :: l' => if Ascii.eqb c "0" then drop_zeros l' else l
  | [] => []
  end.

Definition rstrip_zeros (l : list ascii) : list ascii :=
  List.rev (drop_zeros (List.rev l)).

Definition zeros (n : Z) : list ascii := repeat "0"%char (Z.to_nat n).

(** The text of the digits [ds] with the decimal point at [dp]: exponent
    form when [dp <= -4] or [16 < dp], else positional with [.0] added to
    an integer. *)
Definition format_repr (ds : list ascii) (dp : Z) : list ascii :=
  let len := Z.of_nat (List.length ds) in
  if (dp <=? -4) || (16 <? dp) then
    let ex := dp - 1 in
    let exd := digits_of (Z.abs ex) in
    firstn 1 ds
    ++ (match skipn 1 ds with [] => [] | r => "."%char :: r end)
    ++ ["e"%char; if ex <? 0 then "-"%char else "+"%char]
    ++ (if Z.abs ex <? 10 then "0"%char :: exd else exd)
  else if dp <=? 0 then chars "0." ++ zeros (- dp) ++ ds
  else if len <=? dp then ds ++ zeros (dp - len) ++ chars ".0"
  else firstn (Z.to_nat dp) ds ++ "."%char :: skipn (Z.to_nat dp) ds.

(** [str(x)] (and [repr(x)]) for a float. *)
Definition str_float (x : float) : string :=
  match x with
  | Fnan => "nan"
  | Finf neg => if neg then "-inf" else "inf"
  | Fzero neg => if neg then "-0.0" else "0.0"
  | Ffin neg m e =>
      let n := Z.pos m * 2 ^ Z.max e 0 in
      let d := 2 ^ Z.max (- e) 0 in
      let (c, p) := shortest_digits 16 1 (Ffin false m e) n d (decimal_point n d) in
      let ds := digits_of c in
      let body := format_repr (rstrip_zeros ds) (Z.of_nat (List.length ds) + p) in
      str_of_chars (if neg then "-"%char :: body else body)
  end.

(* ------------------------------------------------------------------ *)
(** ** Dates: [datetime.strptime], [str] and [min] *)

Record datetime : Type := mkDatetime {
  year : Z; month : Z; day : Z;
  hour : Z; minute : Z; second : Z; microsecond : Z
}.

Definition TIMESTAMP_FORMAT : string := "%Y-%m-%d %H:%M:%S.%f".

Definition is_leap (y : Z) : bool :=
  (y mod 4 =? 0) && (negb (y mod 100 =? 0) || (y mod 400 =? 0)).

Definition days_in_month (y m : Z) : Z :=
  if m =? 2 then (if is_leap y then 29 else 28)
  else if (m =? 4) || (m =? 6) || (m =? 9) || (m =? 11) then 30
  else 31.

(** A run of [minlen..maxlen] digits of value in [lo..hi]: what the
    directive's pattern accepts before the literal that follows it. *)
Definition read_field (minlen maxlen : nat) (lo hi : Z) (l : list ascii)
  : option (Z * list ascii) :=
  let (ds, r) := span_digits l in
  let v := Z_of_digits ds in
  if (minlen <=? List.length ds)%nat && (List.length ds <=? maxlen)%nat
     && (lo <=? v) && (v <=? hi)
  then Some (v, r) else None.

(** [%d] also accepts a space and one digit [1..9]. *)
Definition read_day (l : list ascii) : option (Z * list ascii) :=
  match l with
  | " "%char :: c :: r =>
      if is_digit c && negb (Ascii.eqb c "0")
      then Some (Z_of_digits [c], r) else None
  | _ => read_field 1 2 1 31 l
  end.

Definition expect (c : ascii) (l : list ascii) : option (list ascii) :=
  match l with
  | c' :: r => if Ascii.eqb c c' then Some r else None
  | [] => None
  end.

(** The blank of the format stands for one or more whitespace characters. *)
Definition expect_spaces (l : list ascii) : option (list ascii) :=
  match l with
  | c :: r => if is_space c then Some (lstrip r) else None
  | [] => None
  end.

Definition obind {A B : Type} (m : option A) (k : A -> option B) : option B :=
  match m with Some a => k a | None => None end.

(** The fields matched by the format, up to the fraction: the six numbers
    and the text left for [%f]. *)
Definition match_fields (l : list ascii)
  : option (Z * Z * Z * Z * Z * Z * list ascii) :=
  obind (read_field 4 4 0 9999 l) (fun '(y, l) =>
  obind (expect "-" l) (fun l =>
  obind (read_field 1 2 1 12 l) (fun '(mo, l) =>
  obind (expect "-" l) (fun l =>
  obind (read_day l) (fun '(d, l) =>
  obind (expect_spaces l) (fun l =>
  obind (read_field 1 2 0 23 l) (fun '(h, l) =>
  obind (expect ":" l) (fun l =>
  obind (read_field 1 2 0 59 l) (fun '(mi, l) =>
  obind (expect ":" l) (fun l =>
  obind (read_field 1 2 0 61 l) (fun '(s, l) =>
  obind (expect "." l) (fun l =>
  Some (y, mo, d, h, mi, s, l))))))))))))).

(** [datetime.strptime(s, "%Y-%m-%d %H:%M:%S.%f")] *)
Definition strptime (s : string) : result datetime :=
  let nomatch := Raise (ValueError ("time data " +++ repr_str s
                                    +++ " does not match format "
                                    +++ repr_str TIMESTAMP_FORMAT)) in
  match match_fields (chars s) with
  | None => nomatch
  | Some (y, mo, d, h, mi, sec, l) =>
      let (ds, r) := span_digits l in
      match ds with
      | [] => nomatch
      | _ =>
          let f := firstn 6 ds in
          let rest := skipn 6 ds ++ r in
          match rest with
          | _ :: _ => Raise (ValueError ("unconverted data remains: "
                                         +++ str_of_chars rest))
          | [] =>
              let us := Z_of_digits (f ++ zeros (6 - Z.of_nat (List.length f))) in
              if y =? 0 then Raise (ValueError "year 0 is out of range")
              else if days_in_month y mo <? d
                   then Raise (ValueError "day is out of range for month")
              else if 59 <? sec
                   then Raise (ValueError "second must be in 0..59")
              else Ok (mkDatetime y mo d h mi sec us)
          end
      end
  end.

(** [n] written with at least [width] digits, zero-padded. *)
Definition pad (width : Z) (n : Z) : list ascii :=
  let ds := digits_of n in
  zeros (width - Z.of_nat (List.length ds)) ++ ds.

(** [str(d)]: ISO format with a blank separator; the fraction is written
    only when the microseconds are not zero. *)
Definition str_datetime (d : datetime) : string :=
  str_of_chars
    (pad 4 (year d) ++ "-"%char :: pad 2 (month d) ++ "-"%char :: pad 2 (day d)
     ++ " "%char :: pad 2 (hour d) ++ ":"%char :: pad 2 (minute d)
     ++ ":"%char :: pad 2 (second d)
     ++ (if microsecond d =? 0 then [] else "."%char :: pad 6 (microsecond d))).

(** [a < b] on datetimes: lexicographic on the fields. *)
Definition datetime_ltb (a b : datetime) : bool :=
  let key (d : datetime) :=
    [year d; month d; day d; hour d; minute d; second d; microsecond d] in
  (fix lex (x y : list Z) : bool :=
     match x, y with
     | u :: x', v :: y' => (u <? v) || ((u =? v) && lex x' y')
     | _, _ => false
     end) (key a) (key b).

(** [min(a, b)]: [b] only when it is strictly earlier. *)
Definition datetime_min (a b : datetime) : datetime :=
  if datetime_ltb b a then b else a.

Local Close Scope Z_scope.

(* ------------------------------------------------------------------ *)
(** ** XML elements ([xml.etree.ElementTree.Element]) *)

#[warnings="-register-all"]
Inductive Element : Type :=
| mkElement (tag : string) (attrib : dict string string) (children : list Element).

Definition tag (e : Element) : string :=
  match e with mkElement t _ _ => t end.

Definition attrib (e : Element) : dict string string :=
  match e with mkElement _ a _ => a end.

Definition children (e : Element) : list Element :=
  match e with mkElement _ _ c => c end.

(** [e.get(name)]: [None] when the attribute is absent. *)
Definition get (e : Element) (name : string) : option string :=
  dict_get String.eqb name (attrib e).

(** [e.get(name, default)] *)
Definition get_default (e : Element) (name default : string) : string :=
  match get e name with Some v => v | None => default end.

(** [e.findall(t)] and [e.iterfind(t)]: the direct children tagged [t],
    in document order. *)
Definition findall (t : string) (e : Element) : list Element :=
  filter (fun c => String.eqb (tag c) t) (children e).

Definition iterfind : string -> Element -> list Element := findall.

(** [e.find(t)]: the first direct child tagged [t], or [None]. *)
Definition find (t : string) (e : Element) : option Element :=
  List.find (fun c => String.eqb (tag c) t) (children e).

(** [not x] for the result of [find]: [None] is false, and so is an
    element without children (an element's truth value is its length). *)
Definition falsy (x : option Element) : bool :=
  match x with
  | None => true
  | Some e => match children e with [] => true | _ => false end
  end.

(** [not s] for an optional string: [None] and the empty string. *)
Definition str_falsy (x : option string) : bool :=
  match x with
  | None => true
  | Some s => String.eqb s ""
  end.

(* ------------------------------------------------------------------ *)
(** ** Constants of the module *)

Definition MAXIMUM_XML_SIZE : Z := 200000000.   (* 20e7 *)
Definition MAXIMUM_SUMMARY_SIZE : nat := 1024.

(** The two numeric types fields are declared with. *)
Inductive numtype : Type := TFloat | TInt.

Definition TESTSUITE_TAG : string := "testsuite".

(** The source holds these pairs in a set; they are listed here in the
    order of the source text. *)
Definition REQUIRED_TESTSUITE_ATTRIBUTES : list (string * numtype) :=
  [("time", TFloat); ("tests", TInt); ("skipped", TInt);
   ("failures", TInt); ("errors", TInt)].

Definition EXTRA_XML_SUMMARY_ATTRIBUTES : list (string * numtype) :=
  [("xfails", TInt)].

Definition PROPERTIES_TAG : string := "properties".
Definition PROPERTY_TAG : string := "property".

Definition REQUIRED_METADATA_PROPERTIES : list string :=
  ["topology"; "testbed"; "timestamp"; "host"; "asic"; "platform";
   "hwsku"; "os_version"].

Definition TESTCASE_TAG : string := "testcase".

Definition REQUIRED_TESTCASE_ATTRIBUTES : list string :=
  ["classname"; "file"; "line"; "name"; "time"].

Definition TESTCASE_PROPERTIES_TAG : string := "properties".
Definition TESTCASE_PROPERTY_TAG : string := "property".

Definition REQUIRED_TESTCASE_PROPERTIES : list string := ["start"; "end"].

(* ------------------------------------------------------------------ *)
(** ** Numbers as the summary holds them *)

Inductive num : Type :=
| NInt (n : Z)
| NFloat (x : float).

(** [attr_type(s)] for a [str] *)
Definition cast (t : numtype) (s : string) : result num :=
  match t with
  | TInt => let* n := py_int s in Ok (NInt n)
  | TFloat => let* x := py_float s in Ok (NFloat x)
  end.

(** [attr_type(d.get(attribute, 0))]: an absent field counts as the
    integer [0]. *)
Definition cast_default (t : numtype) (v : option string) : result num :=
  match v with
  | Some s => cast t s
  | None => Ok (match t with
                | TInt => NInt 0
                | TFloat => NFloat (float_of_int 0)
                end)
  end.

(** [a + b] *)
Definition num_add (a b : num) : num :=
  match a, b with
  | NInt x, NInt y => NInt (x + y)
  | NInt x, NFloat y => NFloat (fadd (float_of_int x) y)
  | NFloat x, NInt y => NFloat (fadd x (float_of_int y))
  | NFloat x, NFloat y => NFloat (fadd x y)
  end.

(** [round(a, ndigits)]: an integer is its own rounding. *)
Definition num_round (a : num) (ndigits : Z) : num :=
  match a with
  | NInt x => NInt x
  | NFloat x => NFloat (py_round x ndigits)
  end.

(** [str(a)] *)
Definition str_num (a : num) : string :=
  match a with
  | NInt x => str_int x
  | NFloat x => str_float x
  end.

(** A [bool] used as a number. *)
Definition num_of_bool (b : bool) : num := NInt (if b then 1 else 0).

(* ------------------------------------------------------------------ *)
(** ** Validation of one document *)

(** [set(a) <= set(b)] and [set(a) < set(b)] *)
Definition set_subset (a b : list string) : bool :=
  forallb (fun x => mem_str x b) a.

Definition set_lt (a b : list string) : bool :=
  set_subset a b && negb (set_subset b a).

Definition _validate_test_summary (root : Element) : result unit :=
  if negb (String.eqb (tag root) TESTSUITE_TAG) then
    Raise (JUnitXMLValidationError (TESTSUITE_TAG +++ " tag not found on root element"))
  else
    foldM (fun _ '(xml_field, expected_type) =>
             match get root xml_field with
             | None =>
                 Raise (JUnitXMLValidationError
                          (xml_field +++ " not found in <" +++ TESTSUITE_TAG +++ "> element"))
             | Some v =>
                 match cast expected_type v with
                 | Ok _ => Ok tt
                 | Raise _ =>
                     Raise (JUnitXMLValidationError
                              ("invalid type for " +++ xml_field +++ " in " +++ TESTSUITE_TAG
                               +++ "> element: expected a number, received " +++ quoted v))
                 end
             end)
          tt REQUIRED_TESTSUITE_ATTRIBUTES.

(** One turn of the scan shared by the two property validators: [seen]
    are the recognised names met so far; a duplicate or a property without
    [value] raises. *)
Definition scan_property (required : list string) (seen : list string)
           (prop : Element) : result (list string) :=
  match get prop "name" with
  | None => Ok seen
  | Some property_name =>
      if String.eqb property_name "" then Ok seen
      else if negb (mem_str property_name required) then Ok seen
      else if mem_str property_name seen then
        Raise (JUnitXMLValidationError
                 ("duplicate metadata element: " +++ property_name
                  +++ " seen more than once"))
      else
        match get prop "value" with
        | None =>
            Raise (JUnitXMLValidationError
                     ("invalid metadata element: no " +++ quoted "value"
                      +++ " field provided for " +++ property_name))
        | Some _ => Ok (seen ++ [property_name])
        end
  end.

Definition scan_properties (required : list string) (props : list Element)
  : result (list string) :=
  foldM (scan_property required) [] props.

Definition _validate_test_metadata (root : Element) : result unit :=
  let properties_element := find PROPERTIES_TAG root in
  if falsy properties_element then Ok tt
  else
    match properties_element with
    | None => Ok tt
    | Some pe =>
        let* seen_properties :=
          scan_properties REQUIRED_METADATA_PROPERTIES (iterfind PROPERTY_TAG pe) in
        if set_lt seen_properties REQUIRED_METADATA_PROPERTIES then
          Raise (JUnitXMLValidationError "missing metadata element(s)")
        else Ok tt
    end.

(** When a required timing property is missing the source evaluates
    [list(missing_testcase_property)] on a [bool] to build its warning,
    which raises [TypeError] before anything is printed. *)
Definition _validate_test_case_properties (root : Element) : result unit :=
  let testcase_properties_element := find TESTCASE_PROPERTIES_TAG root in
  if falsy testcase_properties_element then Ok tt
  else
    match testcase_properties_element with
    | None => Ok tt
    | Some pe =>
        let* seen_testcase_properties :=
          scan_properties REQUIRED_TESTCASE_PROPERTIES
                          (iterfind TESTCASE_PROPERTY_TAG pe) in
        let missing_testcase_property :=
          set_lt seen_testcase_properties REQUIRED_TESTCASE_PROPERTIES in
        if missing_testcase_property then
          Raise (TypeError "'bool' object is not iterable")
        else Ok tt
    end.

Definition _validate_test_case (test_case : Element) : result unit :=
  let* _ :=
    foldM (fun _ attribute =>
             if negb (dict_mem String.eqb attribute (attrib test_case)) then
               Raise (JUnitXMLValidationError
                        (quoted attribute +++ " not found in test case "
                         +++ quoted (get_default test_case "name" "Name Not Found")))
             else Ok tt)
          tt REQUIRED_TESTCASE_ATTRIBUTES in
  _validate_test_case_properties test_case.

Definition _validate_test_cases (root : Element) : result unit :=
  let cases := findall TESTCASE_TAG root in
  foldM (fun _ test_case => _validate_test_case test_case) tt cases.

Definition _validate_junit_xml (root : Element) : result Element :=
  let* _ := _validate_test_summary root in
  let* _ := _validate_test_metadata root in
  let* _ := _validate_test_cases root in
  Ok root.

(* ------------------------------------------------------------------ *)
(** ** Parsing one validated document *)

(** A parsed test case. The five descriptors hold what [test_case.get]
    returned ([None] is Python's [None]); [case_start] and [case_end] are
    [None] when the key is absent from the dictionary. *)
Record TestCase : Type := mkTestCase {
  case_classname : option string;
  case_file : option string;
  case_line : option string;
  case_name : option string;
  case_time : option string;
  case_start : option string;
  case_end : option string;
  case_result : string;
  case_summary : string;
  case_error : bool
}.

Definition metadata_dict : Type := dict (option string) string.
Definition cases_dict : Type := dict string (list TestCase).
Definition summary_dict : Type := dict string string.

(** The properties of a [properties] child with a non-empty [value], by
    name (a property without [name] is stored under [None]); a later
    property of the same name wins. *)
Definition collect_properties (props : list Element) : metadata_dict :=
  fold_left (fun d prop =>
               if str_falsy (get prop "value") then d
               else dict_set key_eqb (get prop "name")
                             (get_default prop "value" "") d)
            props [].

Definition _parse_test_metadata (root : Element) : metadata_dict :=
  let properties_element := find PROPERTIES_TAG root in
  if falsy properties_element then []
  else
    match properties_element with
    | None => []
    | Some pe => collect_properties (iterfind PROPERTY_TAG pe)
    end.

Definition _parse_testcase_properties (root : Element) : metadata_dict :=
  let testcase_properties_element := find TESTCASE_PROPERTIES_TAG root in
  if falsy testcase_properties_element then []
  else
    match testcase_properties_element with
    | None => []
    | Some pe => collect_properties (iterfind TESTCASE_PROPERTY_TAG pe)
    end.

(** [s.split(".")[0]] *)
Fixpoint first_token (l : list ascii) : list ascii :=
  match l with
  | c :: l' => if Ascii.eqb c "." then [] else c :: first_token l'
  | [] => []
  end.

(** The loop that looks for the [xfail] property, leaving at the first. *)
Fixpoint xfail_prefix (props : list Element) : string :=
  match props with
  | [] => ""
  | prop :: props' =>
      match get prop "name" with
      | Some n => if String.eqb n "xfail" then "xfail_" else xfail_prefix props'
      | None => xfail_prefix props'
      end
  end.

(** [summary[:min(len(summary), MAXIMUM_SUMMARY_SIZE)]] *)
Definition truncate_summary (summary : string) : string :=
  str_of_chars (firstn (Nat.min (String.length summary) MAXIMUM_SUMMARY_SIZE)
                       (chars summary)).

Definition _parse_test_case (test_case : Element) : result (string * TestCase) :=
  match get test_case "classname" with
  | None => Raise (AttributeError "'NoneType' object has no attribute 'split'")
  | Some classname =>
      let feature := str_of_chars (first_token (chars classname)) in
      let testcase_properties := _parse_testcase_properties test_case in
      let failure := find "failure" test_case in
      let error := find "error" test_case in
      let skipped := find "skipped" test_case in
      let properties_element := find PROPERTIES_TAG test_case in
      let xfail_case :=
        if falsy properties_element then ""
        else match properties_element with
             | None => ""
             | Some pe => xfail_prefix (iterfind PROPERTY_TAG pe)
             end in
      let '(result, summary) :=
        match failure, skipped, error with
        | Some f, _, _ => (xfail_case +++ "failure", get_default f "message" "")
        | None, Some s, _ => (xfail_case +++ "skipped", get_default s "message" "")
        | None, None, Some e => (xfail_case +++ "error", get_default e "message" "")
        | None, None, None => (xfail_case +++ "success", "")
        end in
      Ok (feature,
          {| case_classname := get test_case "classname";
             case_file := get test_case "file";
             case_line := get test_case "line";
             case_name := get test_case "name";
             case_time := get test_case "time";
             case_start := dict_get key_eqb (Some "start") testcase_properties;
             case_end := dict_get key_eqb (Some "end") testcase_properties;
             case_result := result;
             case_summary := truncate_summary summary;
             case_error := match error with Some _ => true | None => false end |})
  end.

(** [test_case_results[feature].append(result)] on a [defaultdict(list)] *)
Definition append_case (feature : string) (c : TestCase) (d : cases_dict)
  : cases_dict :=
  match dict_get String.eqb feature d with
  | Some l => dict_set String.eqb feature (l ++ [c]) d
  | None => dict_set String.eqb feature [c] d
  end.

Definition _parse_test_cases (root : Element) : result cases_dict :=
  foldM (fun test_case_results test_case =>
           let* (feature, result) := _parse_test_case test_case in
           Ok (append_case feature result test_case_results))
        [] (findall "testcase" root).

(** [d[key] += delta] on a [defaultdict(int)] *)
Definition dd_add (key : string) (delta : num) (d : dict string num)
  : dict string num :=
  match dict_get String.eqb key d with
  | Some v => dict_set String.eqb key (num_add v delta) d
  | None => dict_set String.eqb key (num_add (NInt 0) delta) d
  end.

(** [float(case["time"])] *)
Definition float_of_field (v : option string) : result float :=
  match v with
  | Some s => py_float s
  | None => Raise (TypeError
              "float() argument must be a string or a real number, not 'NoneType'")
  end.

(** The body of the loop of [_extract_test_summary] for one case. *)
Definition count_case (acc : dict string num) (case : TestCase)
  : result (dict string num) :=
  let r := case_result case in
  let acc := dd_add "tests" (NInt 1) acc in
  let acc := dd_add "failures"
               (num_of_bool (String.eqb r "failure" || String.eqb r "error")) acc in
  let acc := dd_add "skipped" (num_of_bool (String.eqb r "skipped")) acc in
  let acc := dd_add "errors" (num_of_bool (case_error case)) acc in
  let* t := float_of_field (case_time case) in
  let acc := dd_add "time" (NFloat t) acc in
  let acc := dd_add "xfails"
               (num_of_bool (String.eqb r "xfail_failure"
                             || String.eqb r "xfail_error"
                             || String.eqb r "xfail_skipped"
                             || String.eqb r "xfail_success")) acc in
  Ok acc.

Definition _extract_test_summary (test_cases : cases_dict) : result summary_dict :=
  let* test_result_summary :=
    foldM (fun acc '(_, cases) => foldM count_case acc cases) [] test_cases in
  Ok (map (fun '(k, v) => (k, str_num v)) test_result_summary).

(* ------------------------------------------------------------------ *)
(** ** Aggregation *)

Definition merge_field (current update : summary_dict)
           (new_summary : summary_dict) (field : string * numtype)
  : result summary_dict :=
  let '(attribute, attr_type) := field in
  let* a := cast_default attr_type (dict_get String.eqb attribute current) in
  let* b := cast_default attr_type (dict_get String.eqb attribute update) in
  Ok (dict_set String.eqb attribute (str_num (num_round (num_add a b) 3)) new_summary).

Definition _update_test_summary (current update : summary_dict)
  : result summary_dict :=
  match current with
  | [] => Ok update
  | _ =>
      let* new_summary :=
        foldM (merge_field current update) [] REQUIRED_TESTSUITE_ATTRIBUTES in
      foldM (merge_field current update) new_summary EXTRA_XML_SUMMARY_ATTRIBUTES
  end.

(** [d[prop]] *)
Definition index (d : metadata_dict) (prop : string) : result string :=
  match dict_get key_eqb (Some prop) d with
  | Some v => Ok v
  | None => Raise (KeyError prop)
  end.

Definition _update_test_metadata (current update : metadata_dict)
  : result metadata_dict :=
  match current, update with
  | [], _ => Ok update
  | _, [] => Ok current
  | _, _ =>
      foldM (fun new_metadata prop =>
               if String.eqb prop "timestamp" then
                 let* c := index current prop in
                 let* tc := strptime c in
                 let* u := index update prop in
                 let* tu := strptime u in
                 Ok (dict_set key_eqb (Some prop)
                              (str_datetime (datetime_min tc tu)) new_metadata)
               else
                 let* u := index update prop in
                 Ok (dict_set key_eqb (Some prop) u new_metadata))
            [] REQUIRED_METADATA_PROPERTIES
  end.

Definition _update_test_cases (current update : cases_dict) : cases_dict :=
  match current with
  | [] => update
  | _ =>
      fold_left (fun new_cases '(group, cases) =>
                   let updated_cases :=
                     match dict_get String.eqb group new_cases with
                     | Some existing => cases ++ existing
                     | None => cases
                     end in
                   dict_set String.eqb group updated_cases new_cases)
                update current
  end.

(* ------------------------------------------------------------------ *)
(** ** The outside world: files, the XML parser and the console *)

(** What the program observes of its surroundings. The XML parser is the
    external [defusedxml] library: [et_fromstring] and [et_parse] give the
    root it builds, or the text of the exception it raises. [glob_docs]
    is the set of report files found under a directory, in the order the
    set is iterated. [path_exists] tells whether [os.stat] succeeds on a
    path, and [path_getsize] is the size of a path on which it does. *)
Record Env : Type := mkEnv {
  getsizeof : string -> Z;
  et_fromstring : string -> string + Element;
  path_exists : string -> bool;
  path_isfile : string -> bool;
  path_isdir : string -> bool;
  path_getsize : string -> Z;
  et_parse : string -> string + Element;
  glob_docs : string -> list string
}.

(** An attempt to build a tree, from a stream or from a named file. *)
Inductive parse_call : Type :=
| FromString (stream : string)
| FromFile (document_name : string).

(** What the program has done so far: the texts printed (one entry for
    each call of [print]) and the calls made to the XML parser, oldest
    first. *)
Record World : Type := mkWorld {
  stdout : list string;
  parse_calls : list parse_call
}.

Definition IO (A : Type) : Type := World -> World * result A.

Definition io_ret {A : Type} (a : A) : IO A := fun w => (w, Ok a).

Definition io_raise {A : Type} (e : exn) : IO A := fun w => (w, Raise e).

Definition io_bind {A B : Type} (m : IO A) (k : A -> IO B) : IO B :=
  fun w => match m w with
           | (w', Ok a) => k a w'
           | (w', Raise e) => (w', Raise e)
           end.

Notation "'do' x '<-' m ';' k" := (io_bind m (fun x => k))
  (at level 10, x pattern, m at level 100, k at level 200).

Definition lift {A : Type} (r : result A) : IO A := fun w => (w, r).

Definition print (line : string) : IO unit :=
  fun w => (mkWorld (stdout w ++ [line]) (parse_calls w), Ok tt).

Definition call_parser (c : parse_call) : IO unit :=
  fun w => (mkWorld (stdout w) (parse_calls w ++ [c]), Ok tt).

(** [try: body except Exception as e: handler(e)] *)
Definition try_except {A : Type} (body : IO A) (handler : exn -> IO A) : IO A :=
  fun w => match body w with
           | (w', Ok a) => (w', Ok a)
           | (w', Raise e) => handler e w'
           end.

(** [for x in l: ...] over an accumulator, in [IO]. *)
Fixpoint io_fold {A B : Type} (f : A -> B -> IO A) (a : A) (l : list B) : IO A :=
  match l with
  | [] => io_ret a
  | x :: l' => do a' <- f a x; io_fold f a' l'
  end.

Section EntryPoints.
Variable env : Env.

Definition validate_junit_xml_stream (stream : string) : IO Element :=
  if (MAXIMUM_XML_SIZE <? getsizeof env stream)%Z then
    io_raise (JUnitXMLValidationError "provided stream is too large")
  else
    do _ <- call_parser (FromString stream);
    match et_fromstring env stream with
    | inl e =>
        io_raise (JUnitXMLValidationError
                    ("could not parse provided XML stream: " +++ e))
    | inr root => lift (_validate_junit_xml root)
    end.

Definition validate_junit_xml_file (document_name : string) : IO Element :=
  if negb (path_exists env document_name) || negb (path_isfile env document_name) then
    io_raise (JUnitXMLValidationError "file not found")
  else if (MAXIMUM_XML_SIZE <? path_getsize env document_name)%Z then
    io_raise (JUnitXMLValidationError "provided file is too large")
  else
    do _ <- call_parser (FromFile document_name);
    match et_parse env document_name with
    | inl e =>
        io_raise (JUnitXMLValidationError
                    ("could not parse " +++ document_name +++ ": " +++ e))
    | inr root => lift (_validate_junit_xml root)
    end.

(** The state of the loop over the documents of an archive. *)
Record scan : Type := mkScan {
  roots : list Element;
  metadata_source : option string;
  metadata : metadata_dict
}.

(** The metadata compared across documents: the required keys but the
    timestamp. *)
Definition comparable_metadata (root : Element) : metadata_dict :=
  filter (fun kv => match fst kv with
                    | Some k => mem_str k REQUIRED_METADATA_PROPERTIES
                                && negb (String.eqb k "timestamp")
                    | None => false
                    end)
         (_parse_test_metadata root).

(** The body of the [try] for one document. *)
Definition scan_document (st : scan) (document : string) : IO scan :=
  do root <- validate_junit_xml_file document;
  let root_metadata := comparable_metadata root in
  match root_metadata with
  | [] => io_ret (mkScan (roots st ++ [root]) (metadata_source st) (metadata st))
  | _ =>
      let '(source, seed) :=
        if str_falsy (metadata_source st) then (document, root_metadata)
        else (match metadata_source st with Some s => s | None => document end,
              metadata st) in
      if negb (dict_eqb key_eqb String.eqb root_metadata seed) then
        io_raise (JUnitXMLValidationError
                    (document +++ " metadata differs from " +++ source +++ newline
                     +++ document +++ ": " +++ repr_dict root_metadata +++ newline
                     +++ source +++ ": " +++ repr_dict seed))
      else io_ret (mkScan (roots st ++ [root]) (Some source) seed)
  end.

(** One turn of the loop: in strict mode a failure is raised again as a
    validation error, otherwise it is printed and the document skipped. *)
Definition scan_step (strict : bool) (st : scan) (document : string) : IO scan :=
  try_except (scan_document st document)
    (fun e =>
       if strict then
         io_raise (JUnitXMLValidationError
                     ("could not parse " +++ document +++ ": " +++ str_exn e))
       else
         do _ <- print ("could not parse " +++ document +++ ": " +++ str_exn e
                        +++ " - skipping");
         io_ret st).

(** [os.path.getsize(p)] is [os.stat(p).st_size], and [os.path.exists(p)]
    tells whether [os.stat(p)] succeeds: a path that does not exist to
    [os.stat] (a listed name that is a dangling link, say) has no size, and
    asking for it raises the [OSError] of [os.stat]. *)
Definition getsize (p : string) : result Z :=
  if path_exists env p then Ok (path_getsize env p) else Raise (OSError p).

(** The first loop of the archive entry point: [total_size += getsize(d)]. *)
Definition add_size (total_size : Z) (document : string) : result Z :=
  let* size := getsize document in
  Ok (total_size + size)%Z.

(** Returns [None] where the source returns without a value. *)
Definition validate_junit_xml_archive (directory_name : string) (strict : bool)
  : IO (option (list Element)) :=
  if negb (path_exists env directory_name) || negb (path_isdir env directory_name) then
    do _ <- print ("directory " +++ directory_name +++ " not found");
    io_ret None
  else
    let doc_list := glob_docs env directory_name in
    do total_size <- lift (foldM add_size 0%Z doc_list);
    if (MAXIMUM_XML_SIZE <? total_size)%Z then
      io_raise (JUnitXMLValidationError "provided directory is too large")
    else
      do st <- io_fold (scan_step strict) (mkScan [] None []) doc_list;
      do _ <- match roots st with
              | [] => print ("provided directory " +++ directory_name
                             +++ " does not contain any valid XML files")
              | _ => io_ret tt
              end;
      io_ret (Some (roots st)).

Definition validate_junit_xml_path (path : string) (strict : bool)
  : IO (option (list Element)) :=
  if path_isfile env path then
    do root <- validate_junit_xml_file path;
    io_ret (Some [root])
  else validate_junit_xml_archive path strict.
End EntryPoints.

(** The aggregate report: the three sections of [test_result_json]. *)
Record TestResult : Type := mkTestResult {
  test_metadata : metadata_dict;
  test_cases : cases_dict;
  test_summary : summary_dict
}.

(** The body of the loop of [parse_test_result] for one root. *)
Definition fold_root (acc : TestResult) (root : Element) : result TestResult :=
  let* md := _update_test_metadata (test_metadata acc) (_parse_test_metadata root) in
  let* cases := _parse_test_cases root in
  let tc := _update_test_cases (test_cases acc) cases in
  let* update := _extract_test_summary cases in
  let* summary := _update_test_summary (test_summary acc) update in
  Ok (mkTestResult md tc summary).

(** [roots] is [None] where the caller passes [None]. *)
Definition parse_test_result (roots : option (list Element))
  : IO (option TestResult) :=
  match roots with
  | None | Some [] =>
      do _ <- print "No XML file needs to be parsed or the file is empty.";
      io_ret None
  | Some l =>
      do r <- lift (foldM fold_root (mkTestResult [] [] []) l);
      io_ret (Some r)
  end.

(* ------------------------------------------------------------------ *)
(** ** Vocabulary of the specification *)

(** The case has a marker child tagged [t]. *)
Definition has_marker (t : string) (test_case : Element) : bool :=
  existsb (fun c => String.eqb (tag c) t) (children test_case).

Definition is_xfail_property (prop : Element) : bool :=
  String.eqb (tag prop) PROPERTY_TAG
  && match get prop "name" with
     | Some n => String.eqb n "xfail"
     | None => false
     end.

(** An [xfail] property is present among the properties of the case (the
    children of its [properties] block). *)
Definition xfail_marker (test_case : Element) : bool :=
  match find PROPERTIES_TAG test_case with
  | Some pe => existsb is_xfail_property (children pe)
  | None => false
  end.

(** The label the precedence failure, skipped, error, success gives. *)
Definition outcome_label (test_case : Element) : string :=
  if has_marker "failure" test_case then "failure"
  else if has_marker "skipped" test_case then "skipped"
  else if has_marker "error" test_case then "error"
  else "success".

(** A test case with an [xfail] property and a [skipped] child. *)
Definition xfail_skipped_case : Element :=
  mkElement "testcase"
    [("classname", "acl.test_acl"); ("file", "acl/test_acl.py"); ("line", "42");
     ("name", "test_rule"); ("time", "0.125")]
    [mkElement "properties" []
       [mkElement "property" [("name", "xfail"); ("value", "known issue")] [];
        mkElement "property" [("name", "start"); ("value", "2021-03-04 05:06:07.000001")] [];
        mkElement "property" [("name", "end"); ("value", "2021-03-04 05:06:08.000001")] []];
     mkElement "skipped" [("message", "not supported")] []].

(** A test case with a [failure] child and an [error] child, no [xfail]. *)
Definition failure_error_case : Element :=
  mkElement "testcase"
    [("classname", "bgp.test_bgp"); ("file", "bgp/test_bgp.py"); ("line", "7");
     ("name", "test_session"); ("time", "1.5")]
    [mkElement "failure" [("message", "assert 1 == 2")] [];
     mkElement "error" [("message", "teardown failed")] []].

(** A world in which every stream and every file is over the size limit. *)
Definition oversize_env : Env :=
  {| getsizeof := fun _ => 200000001%Z;
     et_fromstring := fun _ => inl "not reached";
     path_exists := fun _ => true;
     path_isfile := fun _ => true;
     path_isdir := fun _ => false;
     path_getsize := fun _ => 200000001%Z;
     et_parse := fun _ => inl "not reached";
     glob_docs := fun _ => [] |}.

(** A suite without a [properties] block: none of the required metadata. *)
Definition bare_suite : Element :=
  mkElement "testsuite"
    [("time", "1.5"); ("tests", "1"); ("skipped", "0"); ("failures", "0");
     ("errors", "0")]
    [failure_error_case].

(** The recognised names seen fall short of the required set. *)
Definition falls_short (seen : list string) : Prop :=
  exists k, In k REQUIRED_METADATA_PROPERTIES /\ ~ In k seen.

(** Two parsed cases of one feature, from two documents. *)
Definition case_early : TestCase :=
  mkTestCase (Some "bgp.test_bgp") (Some "bgp/test_bgp.py") (Some "7")
             (Some "test_session") (Some "1.5") None None "success" "" false.

Definition case_late : TestCase :=
  mkTestCase (Some "bgp.test_bgp") (Some "bgp/test_bgp.py") (Some "19")
             (Some "test_routes") (Some "0.25") None None "failure" "boom" false.

(** Every case of a per-document mapping, in iteration order. *)
Definition all_cases (test_cases : cases_dict) : list TestCase :=
  flat_map snd test_cases.

(** The number of cases that satisfy [p]. *)
Definition count_if (p : TestCase -> bool) (l : list TestCase) : Z :=
  Z.of_nat (List.length (filter p l)).

Definition labelled (label : string) (c : TestCase) : bool :=
  String.eqb (case_result c) label.

Definition failure_or_error (c : TestCase) : bool :=
  labelled "failure" c || labelled "error" c.

(** The elapsed time of the case is a text [float] accepts. *)
Definition time_parses (c : TestCase) : Prop :=
  exists t, float_of_field (case_time c) = Ok t.

(** A case that was skipped and also hit an error. *)
Definition case_skipped_error : TestCase :=
  mkTestCase (Some "acl.test_acl") (Some "acl/test_acl.py") (Some "42")
             (Some "test_rule") (Some "0.5") None None "skipped" "" true.

(** The counters once the first case has been counted. *)
Definition counters (n f s e : Z) (t : float) (x : Z) : dict string num :=
  [("tests", NInt n); ("failures", NInt f); ("skipped", NInt s);
   ("errors", NInt e); ("time", NFloat t); ("xfails", NInt x)].

Definition b2z (b : bool) : Z := if b then 1%Z else 0%Z.

Definition xfail_labelled (c : TestCase) : bool :=
  labelled "xfail_failure" c || labelled "xfail_error" c
  || labelled "xfail_skipped" c || labelled "xfail_success" c.

(** The time the loop accumulates from [t0] over the cases of [l]. *)
Fixpoint total_time (t0 : float) (l : list TestCase) : float :=
  match l with
  | [] => t0
  | c :: l' =>
      match float_of_field (case_time c) with
      | Ok t => total_time (fadd t0 t) l'
      | Raise _ => t0
      end
  end.

(** A per-document mapping with a skipped case that also hit an error. *)
Definition sample_cases : cases_dict :=
  [("acl", [case_skipped_error]); ("bgp", [case_early; case_late])].

(** The numeric fields of a summary, with their declared types. *)
Definition summary_fields : list (string * numtype) :=
  REQUIRED_TESTSUITE_ATTRIBUTES ++ EXTRA_XML_SUMMARY_ATTRIBUTES.

(** Every numeric field of the summary, where present, reads as a number
    of its declared type. *)
Definition readable (d : summary_dict) : Prop :=
  forall attribute attr_type,
    In (attribute, attr_type) summary_fields ->
    exists a, cast_default attr_type (dict_get String.eqb attribute d) = Ok a.

(** The summaries of two documents of five tests and one failure each,
    which took 1.234 and 2.000 seconds. *)
Definition summary_first : summary_dict :=
  [("tests", "5"); ("failures", "1"); ("skipped", "0"); ("errors", "0");
   ("time", "1.234"); ("xfails", "0")].

Definition summary_second : summary_dict :=
  [("tests", "5"); ("failures", "1"); ("skipped", "0"); ("errors", "0");
   ("time", "2.0"); ("xfails", "0")].

(** What [parse_test_result] does to the summary for one document whose
    cases are [cases]. *)
Definition fold_summary (current : summary_dict) (cases : cases_dict)
  : result summary_dict :=
  let* update := _extract_test_summary cases in
  _update_test_summary current update.

(** The cases parsed from a root (none when parsing raises). *)
Definition cases_of (root : Element) : cases_dict :=
  match _parse_test_cases root with
  | Ok d => d
  | Raise _ => []
  end.

(** What one document adds to an integer counter of the summary. *)
Definition field_count (attribute : string) (l : list TestCase) : Z :=
  if String.eqb attribute "tests" then Z.of_nat (List.length l)
  else if String.eqb attribute "failures" then count_if failure_or_error l
  else if String.eqb attribute "skipped" then count_if (labelled "skipped") l
  else if String.eqb attribute "errors" then count_if case_error l
  else if String.eqb attribute "xfails" then count_if xfail_labelled l
  else 0%Z.

Fixpoint total_count (attribute : string) (docs : list cases_dict) : Z :=
  match docs with
  | [] => 0%Z
  | d :: docs' =>
      (field_count attribute (all_cases d) + total_count attribute docs')%Z
  end.

(** No document of the list has a case. *)
Definition no_cases (docs : list cases_dict) : bool :=
  forallb (fun d => match all_cases d with [] => true | _ => false end) docs.

(** A suite of one case that took [t] seconds, and a suite without cases. *)
Definition timed_case (t : string) : Element :=
  mkElement "testcase"
    [("classname", "bgp.test_bgp"); ("file", "bgp/test_bgp.py"); ("line", "7");
     ("name", "test_session"); ("time", t)] [].

Definition suite_of (cases : list Element) : Element :=
  mkElement "testsuite"
    [("time", "0.0"); ("tests", "0"); ("skipped", "0"); ("failures", "0");
     ("errors", "0")] cases.

Definition doc_A : Element := suite_of [timed_case "0.0002"].
Definition doc_B : Element := suite_of [timed_case "0.0002"].
Definition doc_C : Element := suite_of [timed_case "0.0004"].
Definition doc_two : Element := suite_of [timed_case "0.1"; timed_case "0.2"].
Definition doc_empty : Element := suite_of [].

(** [document] is a regular file within the size limit which the XML
    parser reads as [root], and [root] passes validation. *)
Definition valid_file (env : Env) (document : string) (root : Element) : Prop :=
  path_exists env document = true
  /\ path_isfile env document = true
  /\ (path_getsize env document <= MAXIMUM_XML_SIZE)%Z
  /\ et_parse env document = inr root
  /\ _validate_junit_xml root = Ok root.



(** Two reports of one run that name different testbeds. *)
Definition property (name value : string) : Element :=
  mkElement "property" [("name", name); ("value", value)] [].

Definition report (testbed timestamp : string) (cases : list Element) : Element :=
  mkElement "testsuite"
    [("time", "1.5"); ("tests", "1"); ("skipped", "0"); ("failures", "0");
     ("errors", "0")]
    (mkElement "properties" []
       [property "topology" "t0"; property "testbed" testbed;
        property "timestamp" timestamp; property "host" "vlab-01";
        property "asic" "vs"; property "platform" "x86_64-kvm";
        property "hwsku" "Force10-S6000"; property "os_version" "master.1"]
     :: cases).

Definition doc_lab1 : Element :=
  report "lab1" "2021-03-04 05:06:07.123456" [timed_case "0.5"].



(** Three reports of one run; the earliest was stamped on a whole second. *)
Definition doc_ts0 : Element :=
  report "lab1" "2021-03-04 05:06:07.000000" [timed_case "0.5"].

Definition doc_ts1 : Element :=
  report "lab1" "2021-03-04 05:06:08.500000" [timed_case "0.25"].

Definition doc_ts2 : Element :=
  report "lab1" "2021-03-04 05:06:09.250000" [timed_case "0.125"].

(** Two reports of five tests and one failure each, which took 1.234 and
    2.000 seconds. *)
Definition failed_case (t : string) : Element :=
  mkElement "testcase"
    [("classname", "acl.test_acl"); ("file", "acl/test_acl.py"); ("line", "42");
     ("name", "test_rule"); ("time", t)]
    [mkElement "failure" [("message", "assert 1 == 2")] []].

Definition doc_five_first : Element :=
  suite_of [failed_case "1.234"; timed_case "0.000"; timed_case "0.000";
            timed_case "0.000"; timed_case "0.000"].

Definition doc_five_second : Element :=
  suite_of [timed_case "1.500"; failed_case "0.250"; timed_case "0.250";
            timed_case "0.000"; timed_case "0.000"].

(* ------------------------------------------------------------------ *)
(** ** Vocabulary for the validators *)

(** The [name] of a property ([""] when it has none). *)
Definition name_of (prop : Element) : string :=
  match get prop "name" with
  | Some n => n
  | None => ""
  end.

(** The property has a non-empty name that is one of [required]. *)
Definition recognised (required : list string) (prop : Element) : bool :=
  negb (String.eqb (name_of prop) "") && mem_str (name_of prop) required.

(** The property carries a [value] attribute (which may be empty). *)
Definition has_value (prop : Element) : Prop :=
  exists v, get prop "value" = Some v.

(** The recognised properties of a [properties] block, in document order. *)
Definition recognised_properties (required : list string) (pe : Element)
  : list Element :=
  filter (recognised required) (iterfind PROPERTY_TAG pe).

(** A suite whose [properties] block names every required key once and
    drowns them in other properties. *)
Definition noisy_suite : Element :=
  mkElement "testsuite"
    [("time", "1.5"); ("tests", "1"); ("skipped", "0"); ("failures", "0");
     ("errors", "0")]
    [mkElement "properties" []
       [property "reporter" "pytest"; property "topology" "t0";
        mkElement "note" [("name", "testbed")] [];
        property "testbed" "lab1"; property "timestamp" "2021-03-04 05:06:07.5";
        mkElement "property" [("value", "anonymous")] [];
        property "host" "vlab-01"; property "asic" "vs";
        property "platform" "x86_64-kvm"; property "" "unnamed";
        property "hwsku" "Force10-S6000"; property "os_version" ""]].

(** A test case whose [properties] block holds an [xfail] property only. *)
Definition xfail_only_case : Element :=
  mkElement "testcase"
    [("classname", "acl.test_acl"); ("file", "acl/test_acl.py"); ("line", "42");
     ("name", "test_rule"); ("time", "0.125")]
    [mkElement "properties" []
       [mkElement "property" [("name", "xfail"); ("value", "known issue")] []]].

(** The recognised properties of [noisy_suite], alone in their block. *)
Definition quiet_suite : Element :=
  mkElement "testsuite"
    [("time", "0.5"); ("tests", "3"); ("skipped", "1"); ("failures", "0");
     ("errors", "0")]
    [mkElement "properties" []
       [property "topology" "t0"; property "testbed" "lab1";
        property "timestamp" "2021-03-04 05:06:07.5";
        property "host" "vlab-01"; property "asic" "vs";
        property "platform" "x86_64-kvm";
        property "hwsku" "Force10-S6000"; property "os_version" ""]].

(** The root declares [field] with a text its declared type reads. *)
Definition field_ok (root : Element) (field : string * numtype) : Prop :=
  exists v, get root (fst field) = Some v /\ exists n, cast (snd field) v = Ok n.

(** The case declares every required descriptor. *)
Definition has_descriptors (test_case : Element) : Prop :=
  forall attribute, In attribute REQUIRED_TESTCASE_ATTRIBUTES ->
                    exists v, get test_case attribute = Some v.

(** The sizes of the documents of an archive, added up. *)
Definition total_size (env : Env) (docs : list string) : Z :=
  fold_left (fun acc document => (acc + path_getsize env document)%Z) docs 0%Z.

(** The root carries no comparable metadata, or the same as [seed]. *)
Definition agrees_with (seed : metadata_dict) (root : Element) : Prop :=
  comparable_metadata root = []
  \/ dict_eqb key_eqb String.eqb (comparable_metadata root) seed = true.

(** A directory [run] that holds two reports of one testbed and a file
    the parser cannot read. *)
Definition agreeing_env : Env :=
  {| getsizeof := fun _ => 0%Z;
     et_fromstring := fun _ => inl "not a stream";
     path_exists := fun p =>
       mem_str p ["run"; "run/a_test.xml"; "run/b_test.xml"; "broken/c_test.xml";
                  "broken"];
     path_isfile := fun p =>
       mem_str p ["run/a_test.xml"; "run/b_test.xml"; "broken/c_test.xml"];
     path_isdir := fun p => mem_str p ["run"; "broken"];
     path_getsize := fun _ => 4096%Z;
     et_parse := fun p =>
       if String.eqb p "run/a_test.xml" then inr doc_ts0
       else if String.eqb p "run/b_test.xml" then inr doc_ts1
       else inl "syntax error: line 1, column 0";
     glob_docs := fun d =>
       if String.eqb d "run" then ["run/a_test.xml"; "run/b_test.xml"]
       else if String.eqb d "broken" then ["broken/c_test.xml"]
       else [] |}.

(** The roots taken so far agree with the metadata the scan holds. *)
Definition scan_agrees (st : scan) : Prop :=
  match metadata_source st with
  | None => Forall (fun r => comparable_metadata r = []) (roots st)
  | Some s => s <> "" /\ Forall (agrees_with (metadata st)) (roots st)
  end.

(** A directory [big] whose single report is over the size limit. *)
Definition oversize_dir_env : Env :=
  {| getsizeof := fun _ => 0%Z;
     et_fromstring := fun _ => inl "not a stream";
     path_exists := fun p => mem_str p ["big"; "big/tr.xml"];
     path_isfile := fun p => String.eqb p "big/tr.xml";
     path_isdir := fun p => String.eqb p "big";
     path_getsize := fun _ => 200000001%Z;
     et_parse := fun _ => inl "not reached";
     glob_docs := fun d => if String.eqb d "big" then ["big/tr.xml"] else [] |}.

(** Every path of [docs] can be stat'ed, so that its size is known. *)
Definition sizes_known (env : Env) (docs : list string) : bool :=
  forallb (path_exists env) docs.

(** A directory [run] that holds one report and, listed after it, a link
    whose target is gone. *)
Definition dangling_env : Env :=
  {| getsizeof := fun _ => 0%Z;
     et_fromstring := fun _ => inl "not a stream";
     path_exists := fun p => mem_str p ["run"; "run/a_test.xml"];
     path_isfile := fun p => String.eqb p "run/a_test.xml";
     path_isdir := fun p => String.eqb p "run";
     path_getsize := fun _ => 4096%Z;
     et_parse := fun p =>
       if String.eqb p "run/a_test.xml" then inr doc_ts0
       else inl "no such file";
     glob_docs := fun d =>
       if String.eqb d "run" then ["run/a_test.xml"; "run/old_test.xml"]
       else [] |}.

(* ------------------------------------------------------------------ *)
(** ** Vocabulary for the parser *)

(** The test cases of a list of nodes, each with its feature, in order;
    the first node that cannot be parsed gives its error. *)
Fixpoint parse_all (nodes : list Element) : result (list (string * TestCase)) :=
  match nodes with
  | [] => Ok []
  | tc :: nodes' =>
      let* p := _parse_test_case tc in
      let* ps := parse_all nodes' in
      Ok (p :: ps)
  end.

(** The cases of feature [f] among [pairs], in order. *)
Definition group (f : string) (pairs : list (string * TestCase)) : list TestCase :=
  map snd (filter (fun p => String.eqb (fst p) f) pairs).

(** The number of nodes that satisfy [p]. *)
Definition count_nodes (p : Element -> bool) (nodes : list Element) : Z :=
  Z.of_nat (List.length (filter p nodes)).

(** The node is labelled [failure] or [error], without prefix. *)
Definition node_failed (tc : Element) : bool :=
  negb (xfail_marker tc)
  && (String.eqb (outcome_label tc) "failure" || String.eqb (outcome_label tc) "error").

(** The node is labelled [skipped], without prefix. *)
Definition node_skipped (tc : Element) : bool :=
  negb (xfail_marker tc) && String.eqb (outcome_label tc) "skipped".

(** A suite of four cases in two features. *)
Definition mixed_suite : Element :=
  suite_of [timed_case "0.5"; xfail_skipped_case; failure_error_case;
            failed_case "0.25"].

(** The [time] attribute of the node is a text [float] accepts. *)
Definition node_time_reads (tc : Element) : bool :=
  match float_of_field (get tc "time") with
  | Ok _ => true
  | Raise _ => false
  end.

(** The summary of a document of one test that took [t] seconds. *)
Definition summary_timed (t : string) : summary_dict :=
  [("tests", "1"); ("failures", "0"); ("skipped", "0"); ("errors", "0");
   ("time", t); ("xfails", "0")].

(* ------------------------------------------------------------------ *)
(** ** The runtime model on known values *)

Section RuntimeChecks.

Let floated (s : string) : string :=
  match py_float s with
  | Ok x => str_float x
  | Raise e => str_exn e
  end.

Let stamped (s : string) : string :=
  match strptime s with
  | Ok d => str_datetime d
  | Raise e => str_exn e
  end.

Example float_sum_is_binary :
  (let* a := py_float "0.1" in let* b := py_float "0.2" in Ok (str_float (fadd a b)))
  = Ok "0.30000000000000004".
Proof. vm_compute. reflexivity. Qed.

Example float_texts :
  map floated ["1.234"; "2.000"; " -1_0.5e+1 "; "1e16"; "1e-5"; "5e-324";
               "1e400"; "-0.0"; "nan"; "-Infinity"; "9007199254740993"]
  = ["1.234"; "2.0"; "-105.0"; "1e+16"; "1e-05"; "5e-324"; "inf"; "-0.0"; "nan";
     "-inf"; "9007199254740992.0"].
Proof. vm_compute. reflexivity. Qed.

Example float_rejects :
  map (fun s => is_ok (py_float s)) [""; "."; "1e"; "1__0"; "0x10"; "1 2"]
  = [false; false; false; false; false; false].
Proof. vm_compute. reflexivity. Qed.

Example round_to_three :
  map (fun s => match py_float s with
                | Ok x => str_float (py_round x 3)
                | Raise e => str_exn e
                end)
      ["0.0004"; "0.0005"; "0.0006000000000000001"; "2.675"; "1.0005"; "-0.0001"]
  = ["0.0"; "0.001"; "0.001"; "2.675"; "1.0"; "-0.0"].
Proof. vm_compute. reflexivity. Qed.

Example int_texts :
  map py_int [" 12_3 "; "-007"; "+5"] = [Ok 123%Z; Ok (-7)%Z; Ok 5%Z]
  /\ map (fun s => is_ok (py_int s)) [""; "1__2"; "+"; "1.0"; "_1"]
     = [false; false; false; false; false]
  /\ map str_int [0%Z; (-15)%Z; 120%Z] = ["0"; "-15"; "120"].
Proof. vm_compute. repeat split. Qed.

Example timestamp_texts :
  map stamped ["2021-03-04 05:06:07.5"; "2021-3-4  5:6:7.123456";
               "2020-02-29 00:00:00.000001"; "2021-03-04 05:06:07.000000"]
  = ["2021-03-04 05:06:07.500000"; "2021-03-04 05:06:07.123456";
     "2020-02-29 00:00:00.000001"; "2021-03-04 05:06:07"].
Proof. vm_compute. reflexivity. Qed.

Example timestamp_rejects :
  map (fun s => is_ok (strptime s))
      ["2021-03-04 05:06:07"; "2021-02-29 00:00:00.1"; "2021-03-04 05:06:60.1";
       "0000-03-04 05:06:07.1"; "2021-13-04 05:06:07.1"; "2021-03-04T05:06:07.1";
       "2021-03-04 05:06:07.1234567"]
  = [false; false; false; false; false; false; false].
Proof. vm_compute. reflexivity. Qed.

Example repr_texts :
  repr_dict [(Some "testbed", "lab1"); (None, "it's")]
  = "{'testbed': 'lab1', None: " +++ quoted "it's" +++ "}".
Proof. vm_compute. reflexivity. Qed.

End RuntimeChecks.

(* ------------------------------------------------------------------ *)
(** ** Classification of a test case *)

Section Classification.

Lemma has_marker_spec (t : string) (e : Element) :
  has_marker t e = true <-> exists c, In c (children e) /\ tag c = t.
Proof.
  unfold has_marker. rewrite existsb_exists.
  split; intros [c [Hin Ht]]; exists c; split; auto.
  - now apply String.eqb_eq.
  - now apply String.eqb_eq.
Qed.

Lemma find_is_some (t : string) (e : Element) :
  match find t e with Some _ => true | None => false end = has_marker t e.
Proof.
  unfold find, has_marker.
  induction (children e) as [|c l IH]; simpl; auto.
  destruct (String.eqb (tag c) t); simpl; auto.
Qed.

Lemma find_some_marker (t : string) (e c : Element) :
  find t e = Some c -> has_marker t e = true.
Proof. intros H. rewrite <- find_is_some, H. reflexivity. Qed.

Lemma find_none_marker (t : string) (e : Element) :
  find t e = None -> has_marker t e = false.
Proof. intros H. rewrite <- find_is_some, H. reflexivity. Qed.

Lemma xfail_prefix_filter (l : list Element) :
  xfail_prefix (filter (fun c => String.eqb (tag c) PROPERTY_TAG) l)
  = if existsb is_xfail_property l then "xfail_" else "".
Proof.
  induction l as [|p l IH]; simpl; auto.
  unfold is_xfail_property at 1.
  destruct (String.eqb (tag p) PROPERTY_TAG); simpl; auto.
  destruct (get p "name") as [n|]; simpl; auto.
  destruct (String.eqb n "xfail"); simpl; auto.
Qed.

(** The prefix the parser computes is decided by the [xfail] marker. *)
Lemma xfail_case_spec (e : Element) :
  (if falsy (find PROPERTIES_TAG e) then ""
   else match find PROPERTIES_TAG e with
        | None => ""
        | Some pe => xfail_prefix (iterfind PROPERTY_TAG pe)
        end)
  = if xfail_marker e then "xfail_" else "".
Proof.
  unfold xfail_marker, falsy.
  destruct (find PROPERTIES_TAG e) as [pe|]; auto.
  unfold iterfind, findall. rewrite xfail_prefix_filter.
  destruct (children pe); reflexivity.
Qed.

Lemma validated_has_classname (tc : Element) :
  _validate_test_case tc = Ok tt ->
  exists cn, get tc "classname" = Some cn.
Proof.
  unfold _validate_test_case, get, dict_mem. simpl foldM.
  destruct (dict_get String.eqb "classname" (attrib tc)) as [cn|].
  - intros _. now exists cn.
  - simpl. discriminate.
Qed.

(** What the parser returns for a case that carries a class name. *)
Lemma parse_test_case_label (tc : Element) (cn : string) :
  get tc "classname" = Some cn ->
  exists r,
    _parse_test_case tc = Ok (str_of_chars (first_token (chars cn)), r)
    /\ case_result r
       = (if xfail_marker tc then "xfail_" else "") +++ outcome_label tc
    /\ case_error r = has_marker "error" tc.
Proof.
  intros Hcn. unfold _parse_test_case. rewrite Hcn, xfail_case_spec.
  unfold outcome_label.
  rewrite <- (find_is_some "failure"), <- (find_is_some "skipped"),
          <- (find_is_some "error").
  destruct (find "failure" tc), (find "skipped" tc), (find "error" tc);
    eexists; repeat split; reflexivity.
Qed.

End Classification.

(** C1. For a validated test-case node the parser succeeds and the result
    label follows the precedence failure, then skipped, then error, then
    success, first match wins, prefixed by [xfail_] exactly when an xfail
    property is among the case's properties; so a case with an xfail marker
    and a skipped child (and no failure child) is labelled
    [xfail_skipped]. *)
Theorem C1_result_label_precedence (tc : Element) :
  _validate_test_case tc = Ok tt ->
  exists feature r,
    _parse_test_case tc = Ok (feature, r)
    /\ case_result r
       = (if xfail_marker tc then "xfail_" else "")
         +++ (if has_marker "failure" tc then "failure"
              else if has_marker "skipped" tc then "skipped"
              else if has_marker "error" tc then "error"
              else "success")
    /\ (xfail_marker tc = true -> has_marker "failure" tc = false ->
        has_marker "skipped" tc = true -> case_result r = "xfail_skipped").
Proof.
  intros Hv. destruct (validated_has_classname tc Hv) as [cn Hcn].
  destruct (parse_test_case_label tc cn Hcn) as [r [Hp [Hr _]]].
  exists (str_of_chars (first_token (chars cn))), r.
  split; [exact Hp|]. split; [exact Hr|].
  intros Hx Hf Hs. rewrite Hr. unfold outcome_label.
  rewrite Hx, Hf, Hs. reflexivity.
Qed.

Lemma C1_result_label_precedence_witness :
  _validate_test_case xfail_skipped_case = Ok tt
  /\ exists feature r,
      _parse_test_case xfail_skipped_case = Ok (feature, r)
      /\ case_result r
         = (if xfail_marker xfail_skipped_case then "xfail_" else "")
           +++ (if has_marker "failure" xfail_skipped_case then "failure"
                else if has_marker "skipped" xfail_skipped_case then "skipped"
                else if has_marker "error" xfail_skipped_case then "error"
                else "success")
      /\ (xfail_marker xfail_skipped_case = true ->
          has_marker "failure" xfail_skipped_case = false ->
          has_marker "skipped" xfail_skipped_case = true ->
          case_result r = "xfail_skipped").
Proof.
  split; [reflexivity|].
  apply (C1_result_label_precedence xfail_skipped_case). reflexivity.
Defined.

(** C2. For a validated test-case node the error flag is true exactly when
    an error marker child is present, whichever branch gave the label; a
    case with a failure child and an error child and no xfail marker is
    labelled [failure] with the flag set. *)
Theorem C2_error_flag_independent (tc : Element) :
  _validate_test_case tc = Ok tt ->
  exists feature r,
    _parse_test_case tc = Ok (feature, r)
    /\ (case_error r = true <-> exists c, In c (children tc) /\ tag c = "error")
    /\ (has_marker "failure" tc = true -> has_marker "error" tc = true ->
        xfail_marker tc = false ->
        case_result r = "failure" /\ case_error r = true).
Proof.
  intros Hv. destruct (validated_has_classname tc Hv) as [cn Hcn].
  destruct (parse_test_case_label tc cn Hcn) as [r [Hp [Hr He]]].
  exists (str_of_chars (first_token (chars cn))), r.
  split; [exact Hp|]. split.
  - rewrite He. apply has_marker_spec.
  - intros Hf Herr Hx. rewrite Hr, He. unfold outcome_label.
    rewrite Hf, Hx. split; [reflexivity | exact Herr].
Qed.

Lemma C2_error_flag_independent_witness :
  _validate_test_case failure_error_case = Ok tt
  /\ exists feature r,
      _parse_test_case failure_error_case = Ok (feature, r)
      /\ (case_error r = true
          <-> exists c, In c (children failure_error_case) /\ tag c = "error")
      /\ (has_marker "failure" failure_error_case = true ->
          has_marker "error" failure_error_case = true ->
          xfail_marker failure_error_case = false ->
          case_result r = "failure" /\ case_error r = true).
Proof.
  split; [reflexivity|].
  apply (C2_error_flag_independent failure_error_case). reflexivity.
Defined.

(* ------------------------------------------------------------------ *)
(** ** The size limit comes before the XML parser *)

(** A document within the limit does reach the parser, and the call is
    recorded: the record of parser calls is a faithful witness. *)
Lemma stream_within_limit_is_parsed (env : Env) (w : World) (stream : string) :
  (getsizeof env stream <= MAXIMUM_XML_SIZE)%Z ->
  parse_calls (fst (validate_junit_xml_stream env stream w))
  = parse_calls w ++ [FromString stream].
Proof.
  intros H. unfold validate_junit_xml_stream.
  destruct (Z.ltb_spec MAXIMUM_XML_SIZE (getsizeof env stream)); [lia|].
  unfold io_bind, call_parser. simpl.
  destruct (et_fromstring env stream); reflexivity.
Qed.

Lemma file_within_limit_is_parsed (env : Env) (w : World) (document_name : string) :
  path_exists env document_name = true ->
  path_isfile env document_name = true ->
  (path_getsize env document_name <= MAXIMUM_XML_SIZE)%Z ->
  parse_calls (fst (validate_junit_xml_file env document_name w))
  = parse_calls w ++ [FromFile document_name].
Proof.
  intros He Hf H. unfold validate_junit_xml_file. rewrite He, Hf. simpl.
  destruct (Z.ltb_spec MAXIMUM_XML_SIZE (path_getsize env document_name)); [lia|].
  unfold io_bind, call_parser. simpl.
  destruct (et_parse env document_name); reflexivity.
Qed.

(** C9. A stream, or an existing file, whose size exceeds the limit is
    refused with a validation error and the world is left as it was: no
    call to the XML parser has been made. *)
Theorem C9_oversize_rejected_before_parsing
        (env : Env) (w : World) (stream document_name : string) :
  ((MAXIMUM_XML_SIZE < getsizeof env stream)%Z ->
   validate_junit_xml_stream env stream w
   = (w, Raise (JUnitXMLValidationError "provided stream is too large")))
  /\ (path_exists env document_name = true ->
      path_isfile env document_name = true ->
      (MAXIMUM_XML_SIZE < path_getsize env document_name)%Z ->
      validate_junit_xml_file env document_name w
      = (w, Raise (JUnitXMLValidationError "provided file is too large"))).
Proof.
  split.
  - intros H. unfold validate_junit_xml_stream.
    apply Z.ltb_lt in H. rewrite H. reflexivity.
  - intros He Hf H. unfold validate_junit_xml_file.
    rewrite He, Hf. apply Z.ltb_lt in H. simpl. rewrite H. reflexivity.
Qed.

Lemma C9_oversize_rejected_before_parsing_witness :
  validate_junit_xml_stream oversize_env "<testsuite/>" (mkWorld [] [])
  = (mkWorld [] [], Raise (JUnitXMLValidationError "provided stream is too large"))
  /\ validate_junit_xml_file oversize_env "tr.xml" (mkWorld [] [])
     = (mkWorld [] [], Raise (JUnitXMLValidationError "provided file is too large")).
Proof.
  split.
  - apply (proj1 (C9_oversize_rejected_before_parsing
                    oversize_env (mkWorld [] []) "<testsuite/>" "tr.xml")).
    reflexivity.
  - apply (proj2 (C9_oversize_rejected_before_parsing
                    oversize_env (mkWorld [] []) "<testsuite/>" "tr.xml"));
      reflexivity.
Defined.

(* ------------------------------------------------------------------ *)
(** ** Metadata validation *)

Lemma mem_str_In (s : string) (l : list string) :
  mem_str s l = true <-> In s l.
Proof.
  unfold mem_str. rewrite existsb_exists. split.
  - intros [x [Hin Heq]]. apply String.eqb_eq in Heq. now subst.
  - intros Hin. exists s. split; [exact Hin | apply String.eqb_refl].
Qed.

Lemma set_subset_spec (a b : list string) :
  set_subset a b = true <-> forall x, In x a -> In x b.
Proof.
  unfold set_subset. rewrite forallb_forall. split; intros H x Hx.
  - apply mem_str_In. now apply H.
  - apply mem_str_In. now apply H.
Qed.

(** The names a scan records are required names. *)
Lemma scan_property_required required seen prop seen' :
  scan_property required seen prop = Ok seen' ->
  (forall x, In x seen -> In x required) ->
  forall x, In x seen' -> In x required.
Proof.
  unfold scan_property. intros H Hs.
  destruct (get prop "name") as [n|]; [|now inversion H; subst].
  destruct (String.eqb n ""); [now inversion H; subst|].
  destruct (mem_str n required) eqn:Hreq; simpl in H; [|now inversion H; subst].
  destruct (mem_str n seen); [discriminate|].
  destruct (get prop "value"); [|discriminate].
  inversion H; subst. intros x Hx. apply in_app_or in Hx.
  destruct Hx as [Hx|[Hx|[]]]; [now apply Hs|]. subst. now apply mem_str_In.
Qed.

Lemma foldM_scan_required required props : forall seen seen',
  foldM (scan_property required) seen props = Ok seen' ->
  (forall x, In x seen -> In x required) ->
  forall x, In x seen' -> In x required.
Proof.
  induction props as [|p props IH]; simpl; intros seen seen' H Hs.
  - now inversion H; subst.
  - destruct (scan_property required seen p) as [s1|e] eqn:Hp; simpl in H;
      [|discriminate].
    eapply IH; [exact H|]. eapply scan_property_required; eauto.
Qed.

Lemma scan_properties_required required props seen :
  scan_properties required props = Ok seen ->
  forall x, In x seen -> In x required.
Proof.
  intros H. eapply foldM_scan_required; [exact H|]. intros x [].
Qed.

(** A scan never fails with the message of the completeness check. *)
Lemma scan_property_not_missing required seen prop :
  scan_property required seen prop
  <> Raise (JUnitXMLValidationError "missing metadata element(s)").
Proof.
  unfold scan_property.
  destruct (get prop "name") as [n|]; [|discriminate].
  destruct (String.eqb n ""); [discriminate|].
  destruct (negb (mem_str n required)); [discriminate|].
  destruct (mem_str n seen); [simpl; discriminate|].
  destruct (get prop "value"); simpl; discriminate.
Qed.

Lemma foldM_scan_not_missing required props : forall seen,
  foldM (scan_property required) seen props
  <> Raise (JUnitXMLValidationError "missing metadata element(s)").
Proof.
  induction props as [|p props IH]; simpl; intros seen; [discriminate|].
  destruct (scan_property required seen p) as [s1|e] eqn:Hp; simpl.
  - apply IH.
  - intros H. inversion H; subst. now apply scan_property_not_missing in Hp.
Qed.

Lemma set_subset_false (b a : list string) :
  set_subset b a = false -> exists k, In k b /\ ~ In k a.
Proof.
  unfold set_subset. induction b as [|x b IH]; simpl; [discriminate|].
  destruct (mem_str x a) eqn:M; simpl.
  - intros H. destruct (IH H) as [k [Hk Hn]]. exists k. auto.
  - intros _. exists x. split; [now left|]. intros Hin.
    apply mem_str_In in Hin. congruence.
Qed.

Lemma set_lt_falls_short (seen : list string) :
  (forall x, In x seen -> In x REQUIRED_METADATA_PROPERTIES) ->
  (set_lt seen REQUIRED_METADATA_PROPERTIES = true <-> falls_short seen).
Proof.
  intros Hsub. unfold set_lt, falls_short.
  assert (Hs : set_subset seen REQUIRED_METADATA_PROPERTIES = true)
    by now apply set_subset_spec.
  rewrite Hs, andb_true_l, negb_true_iff. split.
  - apply set_subset_false.
  - intros [k [Hk Hn]].
    destruct (set_subset REQUIRED_METADATA_PROPERTIES seen) eqn:E; auto.
    exfalso. apply Hn. rewrite set_subset_spec in E. now apply E.
Qed.

(** C10. Without a [properties] child, or with one that has no children,
    the metadata check succeeds at once, so the document passes the whole
    validation as soon as its summary and its cases do, even with no
    required key at all; the missing-metadata error is raised exactly when
    a [properties] block with children is scanned and the recognised names
    seen fall short of the required set. *)
Theorem C10_metadata_check_needs_nonempty_properties (root : Element) :
  ((find PROPERTIES_TAG root = None
    \/ exists pe, find PROPERTIES_TAG root = Some pe /\ children pe = []) ->
   _validate_test_metadata root = Ok tt
   /\ (_validate_test_summary root = Ok tt -> _validate_test_cases root = Ok tt ->
       _validate_junit_xml root = Ok root))
  /\ (_validate_test_metadata root
      = Raise (JUnitXMLValidationError "missing metadata element(s)")
      <-> exists pe seen,
          find PROPERTIES_TAG root = Some pe /\ children pe <> []
          /\ scan_properties REQUIRED_METADATA_PROPERTIES (iterfind PROPERTY_TAG pe)
             = Ok seen
          /\ falls_short seen).
Proof.
  split.
  - intros H.
    assert (Hm : _validate_test_metadata root = Ok tt).
    { unfold _validate_test_metadata.
      destruct H as [H | [pe [H Hc]]]; rewrite H; simpl; [reflexivity|].
      rewrite Hc. reflexivity. }
    split; [exact Hm|]. intros Hs Hc. unfold _validate_junit_xml.
    rewrite Hs, Hm, Hc. reflexivity.
  - unfold _validate_test_metadata, falsy.
    destruct (find PROPERTIES_TAG root) as [pe|].
    + destruct (children pe) as [|c cs] eqn:Hch.
      * split; [discriminate|]. intros [pe' [seen [Hf [Hne _]]]].
        inversion Hf; subst. contradiction.
      * destruct (scan_properties REQUIRED_METADATA_PROPERTIES
                                  (iterfind PROPERTY_TAG pe)) as [seen|e] eqn:Hscan.
        -- simpl.
           pose proof (set_lt_falls_short seen
                         (scan_properties_required _ _ _ Hscan)) as Hlt.
           destruct (set_lt seen REQUIRED_METADATA_PROPERTIES) eqn:E.
           ++ split; [|reflexivity]. intros _. exists pe, seen.
              repeat split; auto; [congruence | now apply Hlt].
           ++ split; [discriminate|]. intros [pe' [seen' [Hf [_ [Hs Hshort]]]]].
              inversion Hf; subst pe'. rewrite Hscan in Hs. inversion Hs; subst.
              apply Hlt in Hshort. discriminate.
        -- simpl. split.
           ++ intros H. inversion H; subst. exfalso.
              unfold scan_properties in Hscan.
              now apply foldM_scan_not_missing in Hscan.
           ++ intros [pe' [seen' [Hf [_ [Hs _]]]]].
              inversion Hf; subst pe'. rewrite Hscan in Hs. discriminate.
    + split; [discriminate|]. intros [pe [seen [Hf _]]]. discriminate.
Qed.

Lemma C10_metadata_check_needs_nonempty_properties_witness :
  (find PROPERTIES_TAG bare_suite = None
   \/ exists pe, find PROPERTIES_TAG bare_suite = Some pe /\ children pe = [])
  /\ _validate_test_metadata bare_suite = Ok tt
  /\ _validate_junit_xml bare_suite = Ok bare_suite.
Proof.
  assert (H : find PROPERTIES_TAG bare_suite = None
              \/ exists pe, find PROPERTIES_TAG bare_suite = Some pe
                            /\ children pe = []) by (left; reflexivity).
  split; [exact H|].
  destruct (proj1 (C10_metadata_check_needs_nonempty_properties bare_suite) H)
    as [Hm Hfull].
  split; [exact Hm|]. apply Hfull; reflexivity.
Defined.

(* ------------------------------------------------------------------ *)
(** ** Dictionaries keyed by strings *)

Section DictFacts.
Context {K V : Type} {eqb : K -> K -> bool}.
Hypothesis eqb_spec : forall a b : K, reflect (a = b) (eqb a b).
Implicit Types (d : dict K V) (k : K) (v : V).

Lemma dict_get_set_same d k v :
  dict_get eqb k (dict_set eqb k v d) = Some v.
Proof.
  induction d as [|[k' v'] d IH]; simpl.
  - destruct (eqb_spec k k); [reflexivity | contradiction].
  - destruct (eqb k k') eqn:E; simpl; rewrite E; auto.
Qed.

Lemma dict_get_set_other d k k' v :
  k <> k' ->
  dict_get eqb k (dict_set eqb k' v d) = dict_get eqb k d.
Proof.
  intros Hne. induction d as [|[k0 v0] d IH]; simpl.
  - destruct (eqb_spec k k'); [contradiction | reflexivity].
  - destruct (eqb_spec k' k0) as [->|Hk]; simpl.
    + destruct (eqb_spec k k0); [contradiction | reflexivity].
    + destruct (eqb k k0); auto.
Qed.

Lemma dict_get_none_keys d k :
  ~ In k (map fst d) -> dict_get eqb k d = None.
Proof.
  induction d as [|[k' v'] d IH]; simpl; auto.
  intros H. destruct (eqb_spec k k') as [->|Hne].
  - exfalso. apply H. now left.
  - apply IH. intros Hin. apply H. now right.
Qed.

Lemma dict_get_In d k v :
  dict_get eqb k d = Some v -> In (k, v) d.
Proof.
  induction d as [|[k' v'] d IH]; simpl; [discriminate|].
  destruct (eqb_spec k k') as [->|Hne]; auto.
  intros H. inversion H; subst. now left.
Qed.

Lemma dict_keys_get d k :
  In k (map fst d) -> exists v, dict_get eqb k d = Some v.
Proof.
  induction d as [|[k' v'] d IH]; simpl; [contradiction|].
  intros [->|Hin].
  - destruct (eqb_spec k k); [now exists v' | contradiction].
  - destruct (eqb k k'); [now exists v' | auto].
Qed.


(** Assignment keeps every key once. *)
Lemma dict_set_keys d k v :
  map fst (dict_set eqb k v d)
  = if dict_mem eqb k d then map fst d else map fst d ++ [k].
Proof.
  unfold dict_mem. induction d as [|[k' v'] d IH]; simpl; auto.
  destruct (eqb k k') eqn:E; simpl; auto.
  rewrite IH. destruct (dict_get eqb k d); reflexivity.
Qed.

Lemma dict_set_NoDup d k v :
  NoDup (map fst d) -> NoDup (map fst (dict_set eqb k v d)).
Proof.
  intros H. rewrite dict_set_keys. unfold dict_mem.
  destruct (dict_get eqb k d) eqn:E; auto.
  apply NoDup_app; auto.
  - repeat constructor. intros [].
  - intros x Hx [Hk|[]]. subst x.
    destruct (dict_keys_get d k Hx) as [v0 Hv]. congruence.
Qed.





End DictFacts.


(* ------------------------------------------------------------------ *)
(** ** Merging the cases of two documents *)

(** The loop of [_update_test_cases], from any aggregate. *)
Lemma update_loop_get (group : string) : forall (update acc : cases_dict),
  NoDup (map fst update) ->
  dict_get String.eqb group
    (fold_left (fun new_cases '(g, cases) =>
                  let updated_cases :=
                    match dict_get String.eqb g new_cases with
                    | Some existing => cases ++ existing
                    | None => cases
                    end in
                  dict_set String.eqb g updated_cases new_cases)
               update acc)
  = match dict_get String.eqb group update, dict_get String.eqb group acc with
    | Some cases, Some existing => Some (cases ++ existing)
    | Some cases, None => Some cases
    | None, cur => cur
    end.
Proof.
  induction update as [|[k c] rest IH]; intros acc Hnd; simpl.
  - reflexivity.
  - inversion Hnd as [|? ? Hk Hrest]; subst.
    rewrite IH by assumption.
    destruct (String.eqb_spec group k) as [->|Hne].
    + rewrite (dict_get_none_keys String.eqb_spec rest k Hk),
              (dict_get_set_same String.eqb_spec).
      destruct (dict_get String.eqb k acc); reflexivity.
    + rewrite (dict_get_set_other String.eqb_spec) by assumption. reflexivity.
Qed.

(** The dictionaries the parser builds hold each feature once. *)
Lemma parse_test_cases_NoDup (root : Element) (d : cases_dict) :
  _parse_test_cases root = Ok d -> NoDup (map fst d).
Proof.
  unfold _parse_test_cases.
  assert (H : forall l acc, NoDup (map fst acc) ->
            foldM (fun test_case_results test_case =>
                     let* (feature, result) := _parse_test_case test_case in
                     Ok (append_case feature result test_case_results)) acc l
            = Ok d -> NoDup (map fst d)).
  { induction l as [|tc l IH]; simpl; intros acc Hacc Hd.
    - now inversion Hd; subst.
    - destruct (_parse_test_case tc) as [[f r]|e]; simpl in Hd; [|discriminate].
      apply (IH (append_case f r acc)); [|exact Hd].
      unfold append_case.
      destruct (dict_get String.eqb f acc);
        now apply (dict_set_NoDup String.eqb_spec). }
  apply H. constructor.
Qed.

(** C5 (as the code has it). Merging an incoming per-document mapping into
    the aggregate, a feature of the incoming mapping ends with the incoming
    list followed by the list the aggregate already had (the incoming list
    alone when the feature is new); other features are untouched. Within a
    feature the cases of the later document therefore come first. *)
Theorem C5_incoming_cases_precede_existing
        (current update : cases_dict) (group : string) :
  NoDup (map fst update) ->
  dict_get String.eqb group (_update_test_cases current update)
  = match dict_get String.eqb group update, dict_get String.eqb group current with
    | Some cases, Some existing => Some (cases ++ existing)
    | Some cases, None => Some cases
    | None, cur => cur
    end.
Proof.
  intros Hnd. unfold _update_test_cases.
  destruct current as [|kv current'].
  - simpl. destruct (dict_get String.eqb group update); reflexivity.
  - now apply update_loop_get.
Qed.

Lemma C5_incoming_cases_precede_existing_witness :
  NoDup (map fst [("bgp", [case_late])])
  /\ dict_get String.eqb "bgp"
       (_update_test_cases [("bgp", [case_early])] [("bgp", [case_late])])
     = Some ([case_late] ++ [case_early]).
Proof.
  assert (H : NoDup (map fst [("bgp", [case_late])]))
    by (repeat constructor; intros []).
  split; [exact H|].
  exact (C5_incoming_cases_precede_existing
           [("bgp", [case_early])] [("bgp", [case_late])] "bgp" H).
Defined.

(** The claim as stated fails: the case of the earlier document does not
    come first. *)
Lemma C5_appended_after_counterexample :
  dict_get String.eqb "bgp"
    (_update_test_cases [("bgp", [case_early])] [("bgp", [case_late])])
  <> Some ([case_early] ++ [case_late]).
Proof. simpl. intros H. inversion H. Qed.

(* ------------------------------------------------------------------ *)
(** ** The summary of one document *)

Lemma foldM_app {A B : Type} (f : A -> B -> result A) (l1 l2 : list B) :
  forall a, foldM f a (l1 ++ l2) = let* a' := foldM f a l1 in foldM f a' l2.
Proof.
  induction l1 as [|x l1 IH]; intros a; simpl; auto.
  destruct (f a x); simpl; auto.
Qed.

(** The two nested loops visit the cases of [all_cases] in order. *)
Lemma extract_loop_flat (test_cases : cases_dict) : forall acc,
  foldM (fun acc '(_, cases) => foldM count_case acc cases) acc test_cases
  = foldM count_case acc (all_cases test_cases).
Proof.
  unfold all_cases.
  induction test_cases as [|[k cases] rest IH]; intros acc; simpl; auto.
  rewrite foldM_app. destruct (foldM count_case acc cases); simpl; auto.
Qed.

Lemma count_case_first (c : TestCase) (t : float) :
  float_of_field (case_time c) = Ok t ->
  count_case [] c
  = Ok (counters 1 (b2z (failure_or_error c)) (b2z (labelled "skipped" c))
                 (b2z (case_error c)) (fadd (float_of_int 0) t)
                 (b2z (xfail_labelled c))).
Proof.
  intros Ht. unfold count_case. rewrite Ht.
  unfold failure_or_error, xfail_labelled, labelled, counters, num_of_bool, b2z.
  destruct (String.eqb (case_result c) "failure" || String.eqb (case_result c) "error"),
    (String.eqb (case_result c) "skipped"), (case_error c),
    (String.eqb (case_result c) "xfail_failure"
     || String.eqb (case_result c) "xfail_error"
     || String.eqb (case_result c) "xfail_skipped"
     || String.eqb (case_result c) "xfail_success"); reflexivity.
Qed.

Lemma count_case_next (c : TestCase) (t' : float) n f s e t x :
  float_of_field (case_time c) = Ok t' ->
  count_case (counters n f s e t x) c
  = Ok (counters (n + 1) (f + b2z (failure_or_error c))
                 (s + b2z (labelled "skipped" c)) (e + b2z (case_error c))
                 (fadd t t') (x + b2z (xfail_labelled c))).
Proof.
  intros Ht. unfold count_case. rewrite Ht.
  unfold failure_or_error, xfail_labelled, labelled, counters, num_of_bool, b2z.
  destruct (String.eqb (case_result c) "failure" || String.eqb (case_result c) "error"),
    (String.eqb (case_result c) "skipped"), (case_error c),
    (String.eqb (case_result c) "xfail_failure"
     || String.eqb (case_result c) "xfail_error"
     || String.eqb (case_result c) "xfail_skipped"
     || String.eqb (case_result c) "xfail_success"); reflexivity.
Qed.

Lemma count_if_cons (p : TestCase -> bool) (c : TestCase) (l : list TestCase) :
  count_if p (c :: l) = (b2z (p c) + count_if p l)%Z.
Proof.
  unfold count_if, b2z. simpl. destruct (p c); simpl List.length; lia.
Qed.

Lemma count_loop (l : list TestCase) : forall n f s e t x,
  Forall time_parses l ->
  foldM count_case (counters n f s e t x) l
  = Ok (counters (n + Z.of_nat (List.length l))
                 (f + count_if failure_or_error l)
                 (s + count_if (labelled "skipped") l)
                 (e + count_if case_error l)
                 (total_time t l)
                 (x + count_if xfail_labelled l)).
Proof.
  induction l as [|c l IH]; intros n f s e t x Hall.
  - simpl. unfold count_if. simpl. now rewrite !Z.add_0_r.
  - inversion Hall as [|? ? [t' Ht] Hl]; subst.
    simpl foldM. rewrite (count_case_next c t') by assumption. simpl bind.
    rewrite IH by assumption. simpl total_time. rewrite Ht.
    rewrite !count_if_cons.
    replace (Z.of_nat (List.length (c :: l)))
      with (1 + Z.of_nat (List.length l))%Z by (simpl List.length; lia).
    rewrite !Z.add_assoc. reflexivity.
Qed.

(** What [_extract_test_summary] returns when every time parses. *)
Lemma extract_test_summary_counts (test_cases : cases_dict) :
  Forall time_parses (all_cases test_cases) ->
  _extract_test_summary test_cases
  = Ok (match all_cases test_cases with
        | [] => []
        | l =>
            [("tests", str_int (Z.of_nat (List.length l)));
             ("failures", str_int (count_if failure_or_error l));
             ("skipped", str_int (count_if (labelled "skipped") l));
             ("errors", str_int (count_if case_error l));
             ("time", str_float (total_time (float_of_int 0) l));
             ("xfails", str_int (count_if xfail_labelled l))]
        end).
Proof.
  intros Hall. unfold _extract_test_summary. rewrite extract_loop_flat.
  destruct (all_cases test_cases) as [|c l]; [reflexivity|].
  inversion Hall as [|? ? [t Ht] Hl]; subst.
  simpl foldM. rewrite (count_case_first c t) by assumption. simpl bind.
  rewrite count_loop by assumption. simpl bind. simpl total_time. rewrite Ht.
  rewrite !count_if_cons.
  replace (Z.of_nat (List.length (c :: l)))
    with (1 + Z.of_nat (List.length l))%Z by (simpl List.length; lia).
  reflexivity.
Qed.

(** C3 (as the code has it). When every case carries a readable time, the
    summary of a document with at least one case counts as failures the
    cases labelled exactly [failure] or [error] (the error flag does not
    add to it), as skipped the cases labelled [skipped], and as errors the
    cases whose error flag is set. *)
Theorem C3_summary_counts (test_cases : cases_dict) :
  Forall time_parses (all_cases test_cases) ->
  all_cases test_cases <> [] ->
  exists s,
    _extract_test_summary test_cases = Ok s
    /\ dict_get String.eqb "failures" s
       = Some (str_int (count_if failure_or_error (all_cases test_cases)))
    /\ dict_get String.eqb "skipped" s
       = Some (str_int (count_if (labelled "skipped") (all_cases test_cases)))
    /\ dict_get String.eqb "errors" s
       = Some (str_int (count_if case_error (all_cases test_cases))).
Proof.
  intros Hall Hne. rewrite (extract_test_summary_counts test_cases Hall).
  destruct (all_cases test_cases) as [|c l]; [contradiction|].
  eexists. split; [reflexivity|]. repeat split.
Qed.

Lemma C3_summary_counts_witness :
  Forall time_parses (all_cases sample_cases)
  /\ all_cases sample_cases <> []
  /\ exists s,
      _extract_test_summary sample_cases = Ok s
      /\ dict_get String.eqb "failures" s
         = Some (str_int (count_if failure_or_error (all_cases sample_cases)))
      /\ dict_get String.eqb "skipped" s
         = Some (str_int (count_if (labelled "skipped") (all_cases sample_cases)))
      /\ dict_get String.eqb "errors" s
         = Some (str_int (count_if case_error (all_cases sample_cases))).
Proof.
  assert (H1 : Forall time_parses (all_cases sample_cases)).
  { repeat constructor; eexists; vm_compute; reflexivity. }
  assert (H2 : all_cases sample_cases <> []) by discriminate.
  split; [exact H1|]. split; [exact H2|].
  exact (C3_summary_counts sample_cases H1 H2).
Defined.

(** The claim as stated fails: a skipped case whose error flag is set is
    not counted among the failures. *)
Lemma C3_error_flag_not_a_failure_counterexample :
  exists s,
    _extract_test_summary [("acl", [case_skipped_error])] = Ok s
    /\ dict_get String.eqb "failures" s = Some "0"
    /\ count_if (fun c => failure_or_error c || case_error c)
                (all_cases [("acl", [case_skipped_error])]) = 1%Z.
Proof.
  eexists. split; [vm_compute; reflexivity|]. split; reflexivity.
Qed.

(* ------------------------------------------------------------------ *)
(** ** [int(str(n)) == n] *)

Section IntRoundTrip.

Lemma digit_not_space (c : ascii) : is_digit c = true -> is_space c = false.
Proof.
  unfold is_digit, is_space. intros H.
  apply andb_true_iff in H. destruct H as [H1 H2].
  apply Nat.leb_le in H1.
  destruct (Nat.leb_spec 9 (nat_of_ascii c)), (Nat.leb_spec (nat_of_ascii c) 13),
    (Nat.eqb_spec (nat_of_ascii c) 32);
    simpl; auto; lia.
Qed.

Lemma digit_not_mark (c : ascii) :
  is_digit c = true ->
  Ascii.eqb c "_" = false /\ Ascii.eqb c "-" = false /\ Ascii.eqb c "+" = false.
Proof.
  destruct c as [[] [] [] [] [] [] [] []]; vm_compute; intros H;
    try discriminate; auto.
Qed.

Lemma lstrip_head (c : ascii) (l : list ascii) :
  is_space c = false -> lstrip (c :: l) = c :: l.
Proof. intros H. simpl. now rewrite H. Qed.

(** Text that neither starts nor ends with whitespace is left as it is. *)
Lemma strip_id (l : list ascii) :
  Forall (fun c => is_space c = false) l -> strip l = l.
Proof.
  intros H. unfold strip.
  assert (Hl : forall l, Forall (fun c => is_space c = false) l -> lstrip l = l).
  { intros l0 H0. destruct H0; [reflexivity | now apply lstrip_head]. }
  rewrite (Hl l H), Hl, rev_involutive; auto.
  now apply Forall_rev.
Qed.

Lemma remove_underscores_digits (l : list ascii) : forall prev,
  Forall (fun c => is_digit c = true) l ->
  l <> [] ->
  remove_underscores prev l = Some l.
Proof.
  induction l as [|c l IH]; intros prev Hall Hne; [contradiction|].
  inversion Hall as [|? ? Hc Hl]; subst. simpl.
  destruct (digit_not_mark c Hc) as [Hu _]. rewrite Hu, Hc.
  rewrite andb_false_r.
  destruct l as [|c' l'].
  - simpl. now rewrite Hu.
  - rewrite IH; [reflexivity | assumption | discriminate].
Qed.

Lemma string_of_uint_digits (d : uint) :
  Forall (fun c => is_digit c = true) (chars (NilEmpty.string_of_uint d)).
Proof.
  induction d; simpl; constructor; auto.
Qed.

Lemma chars_nilzero_digits (d : uint) :
  Forall (fun c => is_digit c = true) (chars (NilZero.string_of_uint d))
  /\ chars (NilZero.string_of_uint d) <> [].
Proof.
  destruct d; simpl; split;
    try discriminate; try (repeat constructor; apply string_of_uint_digits).
Qed.

Lemma str_of_chars_chars (s : string) : str_of_chars (chars s) = s.
Proof. apply string_of_list_ascii_of_string. Qed.

(** Reading back the digits of a unsigned decimal that is not empty. *)
Lemma py_int_digits (d : uint) :
  d <> Nil ->
  py_int (NilZero.string_of_uint d) = Ok (Z.of_uint d).
Proof.
  intros Hd. unfold py_int.
  destruct (chars_nilzero_digits d) as [Hall Hne].
  rewrite strip_id
    by (eapply Forall_impl; [|exact Hall]; apply digit_not_space).
  destruct (chars (NilZero.string_of_uint d)) as [|c l] eqn:E; [contradiction|].
  assert (Hc : is_digit c = true) by now inversion Hall.
  destruct (digit_not_mark c Hc) as [_ [Hm Hp]].
  assert (Hs : split_sign (c :: l) = (false, c :: l)).
  { unfold split_sign. destruct c as [[] [] [] [] [] [] [] []];
      try reflexivity; discriminate. }
  rewrite Hs, remove_underscores_digits by (auto; discriminate).
  rewrite <- E, str_of_chars_chars, NilZero.usu by assumption. reflexivity.
Qed.

Lemma py_int_neg_digits (d : uint) :
  d <> Nil ->
  py_int (String "-" (NilZero.string_of_uint d)) = Ok (- Z.of_uint d)%Z.
Proof.
  intros Hd. unfold py_int.
  destruct (chars_nilzero_digits d) as [Hall Hne].
  change (chars (String "-" (NilZero.string_of_uint d)))
    with ("-"%char :: chars (NilZero.string_of_uint d)).
  rewrite strip_id.
  2:{ constructor; [reflexivity|].
      eapply Forall_impl; [|exact Hall]. apply digit_not_space. }
  change (split_sign ("-"%char :: chars (NilZero.string_of_uint d)))
    with (true, chars (NilZero.string_of_uint d)).
  cbv iota beta.
  rewrite remove_underscores_digits by auto.
  rewrite str_of_chars_chars, NilZero.usu by assumption. reflexivity.
Qed.

(** [int(str(n)) == n] *)
Theorem py_int_str_int (n : Z) : py_int (str_int n) = Ok n.
Proof.
  unfold str_int. destruct n as [|p|p]; simpl Z.to_int.
  - reflexivity.
  - simpl NilZero.string_of_int.
    rewrite py_int_digits by apply DecimalPos.Unsigned.to_uint_nonnil.
    f_equal. unfold Z.of_uint. now rewrite DecimalPos.Unsigned.of_to.
  - simpl NilZero.string_of_int.
    rewrite py_int_neg_digits by apply DecimalPos.Unsigned.to_uint_nonnil.
    f_equal. unfold Z.of_uint. now rewrite DecimalPos.Unsigned.of_to.
Qed.

End IntRoundTrip.

(* ------------------------------------------------------------------ *)
(** ** Merging two summaries *)

(** The merged summary, field by field, when every field reads. *)
Lemma update_test_summary_fields (current update : summary_dict)
      (a1 b1 a2 b2 a3 b3 a4 b4 a5 b5 a6 b6 : num) :
  current <> [] ->
  cast_default TFloat (dict_get String.eqb "time" current) = Ok a1 ->
  cast_default TFloat (dict_get String.eqb "time" update) = Ok b1 ->
  cast_default TInt (dict_get String.eqb "tests" current) = Ok a2 ->
  cast_default TInt (dict_get String.eqb "tests" update) = Ok b2 ->
  cast_default TInt (dict_get String.eqb "skipped" current) = Ok a3 ->
  cast_default TInt (dict_get String.eqb "skipped" update) = Ok b3 ->
  cast_default TInt (dict_get String.eqb "failures" current) = Ok a4 ->
  cast_default TInt (dict_get String.eqb "failures" update) = Ok b4 ->
  cast_default TInt (dict_get String.eqb "errors" current) = Ok a5 ->
  cast_default TInt (dict_get String.eqb "errors" update) = Ok b5 ->
  cast_default TInt (dict_get String.eqb "xfails" current) = Ok a6 ->
  cast_default TInt (dict_get String.eqb "xfails" update) = Ok b6 ->
  _update_test_summary current update
  = Ok [("time", str_num (num_round (num_add a1 b1) 3));
        ("tests", str_num (num_round (num_add a2 b2) 3));
        ("skipped", str_num (num_round (num_add a3 b3) 3));
        ("failures", str_num (num_round (num_add a4 b4) 3));
        ("errors", str_num (num_round (num_add a5 b5) 3));
        ("xfails", str_num (num_round (num_add a6 b6) 3))].
Proof.
  intros Hne H1 H1' H2 H2' H3 H3' H4 H4' H5 H5' H6 H6'.
  unfold _update_test_summary. destruct current as [|kv current']; [contradiction|].
  unfold REQUIRED_TESTSUITE_ATTRIBUTES, EXTRA_XML_SUMMARY_ATTRIBUTES.
  cbn [foldM merge_field].
  rewrite H1, H1'. cbn [bind]. rewrite H2, H2'. cbn [bind].
  rewrite H3, H3'. cbn [bind]. rewrite H4, H4'. cbn [bind].
  rewrite H5, H5'. cbn [bind]. rewrite H6, H6'. reflexivity.
Qed.

(** An integer field written by [str] reads back as that integer. *)
Lemma cast_int_str_int (n : Z) :
  cast_default TInt (Some (str_int n)) = Ok (NInt n).
Proof. simpl. now rewrite py_int_str_int. Qed.

(** C6 (as the code has it). An empty current summary is not merged: the
    update is returned as it is, its time not rounded. Merging an update
    into a non-empty summary whose numeric fields all read gives exactly
    the six fields; an integer field, [xfails] included, is the text of the
    integer sum (an absent field counting as 0), so [str(x)] merged with
    [str(y)] gives [str(x + y)] and not the concatenation; the time is the
    text of the float sum rounded to three decimals. The two example
    documents merge to tests [10], failures [2], time [3.234]; times [0.1]
    and [0.2], whose float sum is [0.30000000000000004], merge to [0.3],
    and twice [1.0004] merges to [2.001]. *)
Theorem C6_summary_merge_numeric (current update : summary_dict) :
  (current = [] -> _update_test_summary current update = Ok update)
  /\ (current <> [] -> readable current -> readable update ->
      exists merged,
        _update_test_summary current update = Ok merged
        /\ map fst merged = map fst summary_fields
        /\ (forall attribute x y,
              In (attribute, TInt) summary_fields ->
              cast_default TInt (dict_get String.eqb attribute current)
              = Ok (NInt x) ->
              cast_default TInt (dict_get String.eqb attribute update)
              = Ok (NInt y) ->
              dict_get String.eqb attribute merged = Some (str_int (x + y)))
        /\ (forall attribute x y,
              In (attribute, TFloat) summary_fields ->
              cast_default TFloat (dict_get String.eqb attribute current)
              = Ok (NFloat x) ->
              cast_default TFloat (dict_get String.eqb attribute update)
              = Ok (NFloat y) ->
              dict_get String.eqb attribute merged
              = Some (str_float (py_round (fadd x y) 3)))
        /\ (forall attribute x y,
              In (attribute, TInt) summary_fields ->
              dict_get String.eqb attribute current = Some (str_int x) ->
              dict_get String.eqb attribute update = Some (str_int y) ->
              dict_get String.eqb attribute merged = Some (str_int (x + y))))
  /\ (exists example,
        _update_test_summary summary_first summary_second = Ok example
        /\ dict_get String.eqb "tests" example = Some "10"
        /\ dict_get String.eqb "failures" example = Some "2"
        /\ dict_get String.eqb "time" example = Some "3.234")
  /\ (exists x y example,
        py_float "0.1" = Ok x /\ py_float "0.2" = Ok y
        /\ str_float (fadd x y) = "0.30000000000000004"
        /\ _update_test_summary (summary_timed "0.1") (summary_timed "0.2")
           = Ok example
        /\ dict_get String.eqb "time" example = Some "0.3")
  /\ (exists x example,
        py_float "1.0004" = Ok x
        /\ str_float (fadd x x) = "2.0008"
        /\ _update_test_summary (summary_timed "1.0004") (summary_timed "1.0004")
           = Ok example
        /\ dict_get String.eqb "time" example = Some "2.001")
  /\ (exists first second r,
        _extract_test_summary (cases_of doc_five_first) = Ok first
        /\ _extract_test_summary (cases_of doc_five_second) = Ok second
        /\ dict_get String.eqb "time" first = Some "1.234"
        /\ dict_get String.eqb "time" second = Some "2.0"
        /\ snd (parse_test_result (Some [doc_five_first; doc_five_second])
                                  (mkWorld [] []))
           = Ok (Some r)
        /\ dict_get String.eqb "tests" (test_summary r) = Some "10"
        /\ dict_get String.eqb "failures" (test_summary r) = Some "2"
        /\ dict_get String.eqb "time" (test_summary r) = Some "3.234").
Proof.
  split; [intros ->; reflexivity|].
  split.
  { intros Hne Hc Hu.
    destruct (Hc "time" TFloat) as [a1 H1]; [simpl; tauto|].
    destruct (Hu "time" TFloat) as [b1 H1']; [simpl; tauto|].
    destruct (Hc "tests" TInt) as [a2 H2]; [simpl; tauto|].
    destruct (Hu "tests" TInt) as [b2 H2']; [simpl; tauto|].
    destruct (Hc "skipped" TInt) as [a3 H3]; [simpl; tauto|].
    destruct (Hu "skipped" TInt) as [b3 H3']; [simpl; tauto|].
    destruct (Hc "failures" TInt) as [a4 H4]; [simpl; tauto|].
    destruct (Hu "failures" TInt) as [b4 H4']; [simpl; tauto|].
    destruct (Hc "errors" TInt) as [a5 H5]; [simpl; tauto|].
    destruct (Hu "errors" TInt) as [b5 H5']; [simpl; tauto|].
    destruct (Hc "xfails" TInt) as [a6 H6]; [simpl; tauto|].
    destruct (Hu "xfails" TInt) as [b6 H6']; [simpl; tauto|].
    assert (Hfields :
      forall merged attribute attr_type a b,
        merged = [("time", str_num (num_round (num_add a1 b1) 3));
                  ("tests", str_num (num_round (num_add a2 b2) 3));
                  ("skipped", str_num (num_round (num_add a3 b3) 3));
                  ("failures", str_num (num_round (num_add a4 b4) 3));
                  ("errors", str_num (num_round (num_add a5 b5) 3));
                  ("xfails", str_num (num_round (num_add a6 b6) 3))] ->
        In (attribute, attr_type) summary_fields ->
        cast_default attr_type (dict_get String.eqb attribute current) = Ok a ->
        cast_default attr_type (dict_get String.eqb attribute update) = Ok b ->
        dict_get String.eqb attribute merged
        = Some (str_num (num_round (num_add a b) 3))).
    { intros merged attribute attr_type a b -> Hin Ha Hb.
      simpl in Hin.
      destruct Hin as [E|[E|[E|[E|[E|[E|[]]]]]]]; inversion E; subst;
        simpl dict_get; congruence. }
    eexists. split; [eapply update_test_summary_fields; eassumption|].
    split; [reflexivity|].
    split; [|split].
    - intros attribute x y Hin Hx Hy.
      now rewrite (Hfields _ attribute TInt (NInt x) (NInt y) eq_refl Hin Hx Hy).
    - intros attribute x y Hin Hx Hy.
      now rewrite (Hfields _ attribute TFloat (NFloat x) (NFloat y) eq_refl Hin Hx Hy).
    - intros attribute x y Hin Hx Hy.
      rewrite (Hfields _ attribute TInt (NInt x) (NInt y) eq_refl Hin).
      + reflexivity.
      + rewrite Hx. apply cast_int_str_int.
      + rewrite Hy. apply cast_int_str_int. }
  split; [|split; [|split]].
  - eexists. split; [vm_compute; reflexivity|]. repeat split.
  - eexists. eexists. eexists.
    split; [vm_compute; reflexivity|]. split; [vm_compute; reflexivity|].
    split; [vm_compute; reflexivity|]. split; [vm_compute; reflexivity|].
    reflexivity.
  - eexists. eexists.
    split; [vm_compute; reflexivity|]. split; [vm_compute; reflexivity|].
    split; [vm_compute; reflexivity|]. reflexivity.
  - eexists. eexists. eexists.
    split; [vm_compute; reflexivity|]. split; [vm_compute; reflexivity|].
    split; [reflexivity|]. split; [reflexivity|].
    split; [vm_compute; reflexivity|]. repeat split.
Qed.

Lemma C6_summary_merge_numeric_witness :
  summary_first <> [] /\ readable summary_first /\ readable summary_second
  /\ exists merged,
      _update_test_summary summary_first summary_second = Ok merged
      /\ dict_get String.eqb "tests" merged = Some (str_int (5 + 5))
      /\ dict_get String.eqb "failures" merged = Some (str_int (1 + 1))
      /\ _update_test_summary [] summary_second = Ok summary_second.
Proof.
  assert (Hne : summary_first <> []) by discriminate.
  assert (Hr : forall d, d = summary_first \/ d = summary_second -> readable d).
  { intros d Hd attribute attr_type Hin. simpl in Hin.
    destruct Hin as [E|[E|[E|[E|[E|[E|[]]]]]]]; inversion E; subst;
      destruct Hd as [-> | ->]; eexists; vm_compute; reflexivity. }
  split; [exact Hne|].
  split; [apply Hr; now left|]. split; [apply Hr; now right|].
  destruct (proj1 (proj2 (C6_summary_merge_numeric summary_first summary_second))
              Hne (Hr _ (or_introl eq_refl)) (Hr _ (or_intror eq_refl)))
    as [merged [Hm [_ [_ [_ Hint]]]]].
  exists merged. split; [exact Hm|]. split; [|split].
  - apply Hint; [simpl; tauto | reflexivity | reflexivity].
  - apply Hint; [simpl; tauto | reflexivity | reflexivity].
  - exact (proj1 (C6_summary_merge_numeric [] summary_second) eq_refl).
Defined.

(** The claim as stated fails when the current summary is empty, as it is
    for the first document and after documents without test cases. Of two
    validated documents, the first without cases has the empty summary and
    the second the time [0.30000000000000004]; summed at the float type and
    rounded to three decimals this would be [0.3], but the merge returns the
    second summary as it is, and so does the report. *)
Lemma C6_first_summary_not_rounded_counterexample :
  _validate_junit_xml doc_empty = Ok doc_empty
  /\ _validate_junit_xml doc_two = Ok doc_two
  /\ (exists current update merged a b,
        _extract_test_summary (cases_of doc_empty) = Ok current
        /\ _extract_test_summary (cases_of doc_two) = Ok update
        /\ _update_test_summary current update = Ok merged
        /\ cast_default TFloat (dict_get String.eqb "time" current) = Ok a
        /\ cast_default TFloat (dict_get String.eqb "time" update) = Ok b
        /\ str_num (num_round (num_add a b) 3) = "0.3"
        /\ dict_get String.eqb "time" merged = Some "0.30000000000000004")
  /\ exists r,
      snd (parse_test_result (Some [doc_empty; doc_two]) (mkWorld [] []))
      = Ok (Some r)
      /\ dict_get String.eqb "time" (test_summary r)
         = Some "0.30000000000000004".
Proof.
  split; [vm_compute; reflexivity|]. split; [vm_compute; reflexivity|]. split.
  - eexists. eexists. eexists. eexists. eexists.
    split; [vm_compute; reflexivity|]. split; [vm_compute; reflexivity|].
    split; [vm_compute; reflexivity|]. split; [vm_compute; reflexivity|].
    split; [vm_compute; reflexivity|]. split; [vm_compute; reflexivity|].
    reflexivity.
  - eexists. split; [vm_compute; reflexivity|]. reflexivity.
Qed.

(* ------------------------------------------------------------------ *)
(** ** Folding the summaries of several documents *)

Section SummaryFold.

Lemma count_case_ok_time (acc acc' : dict string num) (c : TestCase) :
  count_case acc c = Ok acc' -> time_parses c.
Proof.
  unfold count_case, time_parses.
  destruct (float_of_field (case_time c)) as [t|e]; [now exists t|].
  simpl. discriminate.
Qed.

Lemma count_loop_ok_times (l : list TestCase) : forall acc acc',
  foldM count_case acc l = Ok acc' -> Forall time_parses l.
Proof.
  induction l as [|c l IH]; intros acc acc' H; [constructor|].
  simpl in H. destruct (count_case acc c) as [a|e] eqn:E; [|discriminate].
  constructor; [eapply count_case_ok_time; eauto | eapply IH; eauto].
Qed.

(** Extraction succeeds only when every time reads. *)
Lemma extract_ok_times (cases : cases_dict) (u : summary_dict) :
  _extract_test_summary cases = Ok u -> Forall time_parses (all_cases cases).
Proof.
  unfold _extract_test_summary. rewrite extract_loop_flat.
  destruct (foldM count_case [] (all_cases cases)) as [a|e] eqn:E; [|discriminate].
  intros _. eapply count_loop_ok_times; eauto.
Qed.

(** The integer counters of an extracted summary. *)
Lemma extract_int_field (cases : cases_dict) (u : summary_dict) (attribute : string) :
  _extract_test_summary cases = Ok u ->
  In (attribute, TInt) summary_fields ->
  match all_cases cases with
  | [] => u = []
  | l => dict_get String.eqb attribute u = Some (str_int (field_count attribute l))
  end.
Proof.
  intros H Hin. pose proof (extract_ok_times _ _ H) as Hall.
  rewrite (extract_test_summary_counts cases Hall) in H.
  destruct (all_cases cases) as [|c l]; [now inversion H|].
  inversion H; subst u. simpl in Hin.
  destruct Hin as [E|[E|[E|[E|[E|[E|[]]]]]]]; inversion E; subst; reflexivity.
Qed.

(** A successful merge into a non-empty summary read all twelve values. *)
Lemma update_test_summary_inv (current update merged : summary_dict) :
  current <> [] ->
  _update_test_summary current update = Ok merged ->
  forall attribute, In (attribute, TInt) summary_fields ->
  exists a b,
    cast_default TInt (dict_get String.eqb attribute current) = Ok a
    /\ cast_default TInt (dict_get String.eqb attribute update) = Ok b
    /\ dict_get String.eqb attribute merged
       = Some (str_num (num_round (num_add a b) 3)).
Proof.
  intros Hne H attribute Hin.
  unfold _update_test_summary in H.
  destruct current as [|kv current'] eqn:Ecur; [contradiction|]. rewrite <- Ecur in *.
  unfold REQUIRED_TESTSUITE_ATTRIBUTES, EXTRA_XML_SUMMARY_ATTRIBUTES in H.
  cbn [foldM merge_field] in H.
  destruct (cast_default TFloat (dict_get String.eqb "time" current)) as [a1|] eqn:H1;
    [|discriminate].
  destruct (cast_default TFloat (dict_get String.eqb "time" update)) as [b1|] eqn:H1';
    [|discriminate].
  destruct (cast_default TInt (dict_get String.eqb "tests" current)) as [a2|] eqn:H2;
    [|discriminate].
  destruct (cast_default TInt (dict_get String.eqb "tests" update)) as [b2|] eqn:H2';
    [|discriminate].
  destruct (cast_default TInt (dict_get String.eqb "skipped" current)) as [a3|] eqn:H3;
    [|discriminate].
  destruct (cast_default TInt (dict_get String.eqb "skipped" update)) as [b3|] eqn:H3';
    [|discriminate].
  destruct (cast_default TInt (dict_get String.eqb "failures" current)) as [a4|] eqn:H4;
    [|discriminate].
  destruct (cast_default TInt (dict_get String.eqb "failures" update)) as [b4|] eqn:H4';
    [|discriminate].
  destruct (cast_default TInt (dict_get String.eqb "errors" current)) as [a5|] eqn:H5;
    [|discriminate].
  destruct (cast_default TInt (dict_get String.eqb "errors" update)) as [b5|] eqn:H5';
    [|discriminate].
  destruct (cast_default TInt (dict_get String.eqb "xfails" current)) as [a6|] eqn:H6;
    [|discriminate].
  destruct (cast_default TInt (dict_get String.eqb "xfails" update)) as [b6|] eqn:H6';
    [|discriminate].
  cbn [bind] in H. inversion H; subst merged. simpl in Hin.
  destruct Hin as [E|[E|[E|[E|[E|[E|[]]]]]]]; inversion E; subst;
    eexists; eexists; (split; [eassumption|]); (split; [eassumption|]); reflexivity.
Qed.

(** One document folded into a non-empty summary whose integer counters
    are [base]: the counters grow by what the document holds. *)
Lemma fold_summary_step (current s : summary_dict) (d : cases_dict) (base : string -> Z) :
  current <> [] ->
  (forall attribute, In (attribute, TInt) summary_fields ->
     dict_get String.eqb attribute current = Some (str_int (base attribute))) ->
  fold_summary current d = Ok s ->
  s <> []
  /\ forall attribute, In (attribute, TInt) summary_fields ->
       dict_get String.eqb attribute s
       = Some (str_int (base attribute + field_count attribute (all_cases d))).
Proof.
  intros Hne Hbase H. unfold fold_summary in H.
  destruct (_extract_test_summary d) as [u|e] eqn:Eu; [|discriminate].
  simpl in H. split.
  - destruct (update_test_summary_inv current u s Hne H "tests") as [a [b [_ [_ Hs]]]];
      [simpl; tauto|].
    intros ->. discriminate.
  - intros attribute Hin.
    destruct (update_test_summary_inv current u s Hne H attribute Hin)
      as [a [b [Ha [Hb Hs]]]].
    rewrite Hs. rewrite (Hbase attribute Hin), cast_int_str_int in Ha.
    inversion Ha; subst a.
    pose proof (extract_int_field d u attribute Eu Hin) as Hu.
    destruct (all_cases d) as [|c l] eqn:El.
    + subst u. simpl in Hb. inversion Hb; subst b.
      assert (Hz : field_count attribute [] = 0%Z).
      { unfold field_count, count_if. simpl.
        repeat match goal with |- context [if ?x then _ else _] => destruct x end;
          reflexivity. }
      rewrite Hz. reflexivity.
    + rewrite Hu, cast_int_str_int in Hb. inversion Hb; subst b. reflexivity.
Qed.

Lemma fold_summary_nonempty (docs : list cases_dict) :
  forall (current s : summary_dict) (base : string -> Z),
  current <> [] ->
  (forall attribute, In (attribute, TInt) summary_fields ->
     dict_get String.eqb attribute current = Some (str_int (base attribute))) ->
  foldM fold_summary current docs = Ok s ->
  s <> []
  /\ forall attribute, In (attribute, TInt) summary_fields ->
       dict_get String.eqb attribute s
       = Some (str_int (base attribute + total_count attribute docs)).
Proof.
  induction docs as [|d docs IH]; intros current s base Hne Hbase H.
  - simpl in H. inversion H; subst s. split; [exact Hne|].
    intros attribute Hin. simpl. rewrite Z.add_0_r. now apply Hbase.
  - simpl in H. destruct (fold_summary current d) as [s1|e] eqn:E1; [|discriminate].
    simpl in H.
    destruct (fold_summary_step current s1 d base Hne Hbase E1) as [Hne1 Hb1].
    destruct (IH s1 s (fun a => (base a + field_count a (all_cases d))%Z)
                 Hne1 Hb1 H) as [Hs Hf].
    split; [exact Hs|]. intros attribute Hin. rewrite (Hf attribute Hin).
    simpl. now rewrite Z.add_assoc.
Qed.

(** The integer counters after folding [docs] from the empty summary. *)
Lemma fold_summary_from_empty (docs : list cases_dict) (s : summary_dict) :
  foldM fold_summary [] docs = Ok s ->
  if no_cases docs then s = []
  else forall attribute, In (attribute, TInt) summary_fields ->
         dict_get String.eqb attribute s
         = Some (str_int (total_count attribute docs)).
Proof.
  induction docs as [|d docs IH]; intros H.
  - simpl in H. now inversion H.
  - simpl in H. destruct (fold_summary [] d) as [s1|e] eqn:E1; [|discriminate].
    simpl in H. unfold fold_summary in E1.
    destruct (_extract_test_summary d) as [u|e] eqn:Eu; [|discriminate].
    simpl in E1. inversion E1; subst s1. simpl no_cases.
    destruct (all_cases d) as [|c l] eqn:El.
    + pose proof (extract_int_field d u "tests" Eu) as Hu. rewrite El in Hu.
      rewrite Hu in H by (simpl; tauto). simpl andb.
      specialize (IH H). destruct (no_cases docs); [exact IH|].
      intros attribute Hin. rewrite (IH attribute Hin). simpl total_count.
      rewrite El.
      assert (Hz : field_count attribute [] = 0%Z).
      { unfold field_count, count_if. simpl.
        repeat match goal with |- context [if ?x then _ else _] => destruct x end;
          reflexivity. }
      now rewrite Hz.
    + simpl andb.
      assert (Hne : u <> []).
      { pose proof (extract_int_field d u "tests" Eu) as Hu. rewrite El in Hu.
        intros ->. specialize (Hu ltac:(simpl; tauto)). discriminate. }
      assert (Hbase : forall attribute, In (attribute, TInt) summary_fields ->
                dict_get String.eqb attribute u
                = Some (str_int (field_count attribute (c :: l)))).
      { intros attribute Hin.
        pose proof (extract_int_field d u attribute Eu Hin) as Hu.
        now rewrite El in Hu. }
      destruct (fold_summary_nonempty docs u s _ Hne Hbase H) as [_ Hf].
      intros attribute Hin. rewrite (Hf attribute Hin). simpl total_count.
      now rewrite El.
Qed.

Lemma total_count_perm (attribute : string) (docs docs' : list cases_dict) :
  Permutation docs docs' ->
  total_count attribute docs = total_count attribute docs'.
Proof.
  induction 1; simpl; lia.
Qed.

Lemma no_cases_perm (docs docs' : list cases_dict) :
  Permutation docs docs' -> no_cases docs = no_cases docs'.
Proof.
  unfold no_cases. induction 1; simpl; auto.
  - now rewrite IHPermutation.
  - now rewrite !andb_assoc, (andb_comm (match all_cases y with [] => true | _ => false end)).
  - congruence.
Qed.

(** The summary part of the fold over roots is the fold of [fold_summary]
    over the cases parsed from them. *)
Lemma fold_root_summary (l : list Element) : forall (acc r : TestResult),
  foldM fold_root acc l = Ok r ->
  foldM fold_summary (test_summary acc) (map cases_of l) = Ok (test_summary r).
Proof.
  induction l as [|root l IH]; intros acc r H.
  - simpl in H. now inversion H.
  - simpl in H. destruct (fold_root acc root) as [acc1|e] eqn:E1; [|discriminate].
    simpl in H. simpl. unfold fold_root in E1. unfold cases_of at 1.
    destruct (_update_test_metadata (test_metadata acc) (_parse_test_metadata root));
      [|discriminate].
    simpl in E1. destruct (_parse_test_cases root) as [cases|]; [|discriminate].
    simpl in E1. unfold fold_summary at 1.
    destruct (_extract_test_summary cases) as [u|]; [|discriminate].
    simpl in E1. simpl.
    destruct (_update_test_summary (test_summary acc) u) as [sm|]; [|discriminate].
    simpl in E1. inversion E1; subst acc1. simpl. exact (IH _ _ H).
Qed.

End SummaryFold.

(** C7 (as the code has it). When the documents fold successfully in two
    orders that are permutations of each other, every integer counter of
    the summary ([tests], [failures], [skipped], [errors], [xfails]) is the
    same in both results. Nothing is said of the elapsed time. *)
Theorem C7_integer_counters_order_insensitive
        (roots roots' : list Element) (r r' : TestResult) (w w' : World)
        (attribute : string) :
  Permutation roots roots' ->
  snd (parse_test_result (Some roots) w) = Ok (Some r) ->
  snd (parse_test_result (Some roots') w') = Ok (Some r') ->
  In (attribute, TInt) summary_fields ->
  dict_get String.eqb attribute (test_summary r)
  = dict_get String.eqb attribute (test_summary r').
Proof.
  intros Hperm H H' Hin.
  assert (Hfold : forall l w0 r0,
            snd (parse_test_result (Some l) w0) = Ok (Some r0) ->
            foldM fold_summary [] (map cases_of l) = Ok (test_summary r0)).
  { intros l w0 r0 H0. destruct l as [|x l]; [discriminate|].
    unfold parse_test_result, io_bind, lift in H0.
    destruct (foldM fold_root (mkTestResult [] [] []) (x :: l)) as [r1|e] eqn:E;
      [|discriminate].
    simpl in H0. inversion H0; subst r1.
    exact (fold_root_summary _ _ _ E). }
  pose proof (fold_summary_from_empty _ _ (Hfold _ _ _ H)) as Hs.
  pose proof (fold_summary_from_empty _ _ (Hfold _ _ _ H')) as Hs'.
  pose proof (Permutation_map cases_of Hperm) as Hp.
  rewrite (no_cases_perm _ _ Hp) in Hs.
  destruct (no_cases (map cases_of roots')).
  - now rewrite Hs, Hs'.
  - rewrite (Hs attribute Hin), (Hs' attribute Hin).
    now rewrite (total_count_perm attribute _ _ Hp).
Qed.

Lemma C7_integer_counters_order_insensitive_witness :
  Permutation [doc_A; doc_B; doc_C] [doc_C; doc_A; doc_B]
  /\ In ("tests", TInt) summary_fields
  /\ exists r r',
      snd (parse_test_result (Some [doc_A; doc_B; doc_C]) (mkWorld [] []))
      = Ok (Some r)
      /\ snd (parse_test_result (Some [doc_C; doc_A; doc_B]) (mkWorld [] []))
         = Ok (Some r')
      /\ dict_get String.eqb "tests" (test_summary r)
         = dict_get String.eqb "tests" (test_summary r').
Proof.
  assert (Hp : Permutation [doc_A; doc_B; doc_C] [doc_C; doc_A; doc_B]).
  { apply Permutation_sym.
    apply (Permutation_cons_app [doc_A; doc_B] [] doc_C). apply Permutation_refl. }
  assert (Hin : In ("tests", TInt) summary_fields) by (simpl; tauto).
  split; [exact Hp|]. split; [exact Hin|].
  eexists. eexists.
  assert (H1 : forall l x, x = snd (parse_test_result (Some l) (mkWorld [] [])) ->
               snd (parse_test_result (Some l) (mkWorld [] [])) = x)
    by (intros; subst; reflexivity).
  split; [apply H1; vm_compute; reflexivity|].
  split; [apply H1; vm_compute; reflexivity|].
  eapply (C7_integer_counters_order_insensitive
            [doc_A; doc_B; doc_C] [doc_C; doc_A; doc_B] _ _
            (mkWorld [] []) (mkWorld [] []) "tests" Hp); [| |exact Hin];
    vm_compute; reflexivity.
Defined.

(** The claim as stated fails on the elapsed time. The three validated
    documents [A, B, C] give [0.0] and, folded as [C, A, B], [0.001]; a
    document of two cases and a document without cases give [0.3] in one
    order and [0.30000000000000004] in the other. *)
Lemma C7_time_depends_on_order_counterexample :
  (forall d, In d [doc_A; doc_B; doc_C; doc_two; doc_empty] ->
             _validate_junit_xml d = Ok d)
  /\ (exists r r',
        snd (parse_test_result (Some [doc_A; doc_B; doc_C]) (mkWorld [] []))
        = Ok (Some r)
        /\ snd (parse_test_result (Some [doc_C; doc_A; doc_B]) (mkWorld [] []))
           = Ok (Some r')
        /\ dict_get String.eqb "time" (test_summary r) = Some "0.0"
        /\ dict_get String.eqb "time" (test_summary r') = Some "0.001")
  /\ (exists r r',
        snd (parse_test_result (Some [doc_two; doc_empty]) (mkWorld [] []))
        = Ok (Some r)
        /\ snd (parse_test_result (Some [doc_empty; doc_two]) (mkWorld [] []))
           = Ok (Some r')
        /\ dict_get String.eqb "time" (test_summary r) = Some "0.3"
        /\ dict_get String.eqb "time" (test_summary r')
           = Some "0.30000000000000004").
Proof.
  split; [|split].
  - intros d Hd. simpl in Hd.
    destruct Hd as [<-|[<-|[<-|[<-|[<-|[]]]]]]; vm_compute; reflexivity.
  - eexists. eexists. split; [vm_compute; reflexivity|].
    split; [vm_compute; reflexivity|]. split; reflexivity.
  - eexists. eexists. split; [vm_compute; reflexivity|].
    split; [vm_compute; reflexivity|]. split; reflexivity.
Qed.

(* ------------------------------------------------------------------ *)
(** ** Scanning an archive *)

Section ArchiveScan.
Variable env : Env.






(** A valid file is handed to the parser and its root returned. *)
Lemma validate_valid_file (document : string) (root : Element) (w : World) :
  valid_file env document root ->
  validate_junit_xml_file env document w
  = (mkWorld (stdout w) (parse_calls w ++ [FromFile document]), Ok root).
Proof.
  intros [He [Hf [Hs [Hp Hv]]]]. unfold validate_junit_xml_file.
  rewrite He, Hf. simpl.
  destruct (Z.ltb_spec MAXIMUM_XML_SIZE (path_getsize env document)); [lia|].
  unfold io_bind, call_parser, lift. simpl. rewrite Hp, Hv. reflexivity.
Qed.



End ArchiveScan.




(* ------------------------------------------------------------------ *)
(** ** Merging metadata: the timestamp *)

Section Timestamp.

(** Splits the hypotheses that a lexicographic comparison is false. *)
Ltac split_lex :=
  repeat match goal with
         | H : (?x =? ?x)%Z = false \/ _ |- _ =>
             destruct H as [H|H]; [rewrite Z.eqb_refl in H; discriminate|]
         | H : (_ || _) = false |- _ => apply orb_false_iff in H; destruct H
         | H : (_ && _) = false |- _ => apply andb_false_iff in H
         | H : (_ <? _)%Z = false |- _ => apply Z.ltb_ge in H
         end.

(** The next field is equal on both sides; go on with the ones after it. *)
Ltac same_field x y :=
  split_lex; assert (x = y) by lia; subst y.

Lemma datetime_ltb_irrefl_eq (a b : datetime) :
  datetime_ltb a b = false -> datetime_ltb b a = false -> a = b.
Proof.
  destruct a as [y mo d h mi s us], b as [y' mo' d' h' mi' s' us'].
  unfold datetime_ltb. cbn [year month day hour minute second microsecond].
  intros H1 H2.
  same_field y y'. same_field mo mo'. same_field d d'. same_field h h'.
  same_field mi mi'. same_field s s'. same_field us us'. reflexivity.
Qed.

Lemma datetime_ltb_asym (a b : datetime) :
  datetime_ltb a b = true -> datetime_ltb b a = false.
Proof.
  destruct a as [y mo d h mi s us], b as [y' mo' d' h' mi' s' us'].
  unfold datetime_ltb. cbn [year month day hour minute second microsecond].
  intros H.
  repeat match goal with
         | H : (_ || _) = true |- _ => apply orb_true_iff in H; destruct H as [H|H]
         | H : (_ && _) = true |- _ => apply andb_true_iff in H; destruct H
         | H : (_ <? _)%Z = true |- _ => apply Z.ltb_lt in H
         | H : (_ =? _)%Z = true |- _ => apply Z.eqb_eq in H; subst
         | H : false = true |- _ => discriminate
         end;
    repeat rewrite Z.eqb_refl; repeat rewrite Z.ltb_irrefl; simpl;
    try (apply orb_false_iff; split; [apply Z.ltb_ge; lia|]);
    try (apply andb_false_iff; left; apply Z.eqb_neq; lia).
Qed.

(** The earlier of two datetimes does not depend on the order. *)
Lemma datetime_min_comm (a b : datetime) : datetime_min a b = datetime_min b a.
Proof.
  unfold datetime_min.
  destruct (datetime_ltb b a) eqn:E1, (datetime_ltb a b) eqn:E2; auto.
  - rewrite (datetime_ltb_asym _ _ E1) in E2. discriminate.
  - symmetry. now apply datetime_ltb_irrefl_eq.
Qed.

End Timestamp.

(** Merging the metadata of two documents that both carry the required
    keys: the timestamp is the text of the earlier of the two datetimes,
    every other required key is taken from the update. *)
Lemma update_test_metadata_two (current update : metadata_dict)
      (c u : string) (tc tu : datetime) :
  current <> [] -> update <> [] ->
  (forall prop, In prop REQUIRED_METADATA_PROPERTIES ->
                exists v, index update prop = Ok v) ->
  index current "timestamp" = Ok c -> strptime c = Ok tc ->
  index update "timestamp" = Ok u -> strptime u = Ok tu ->
  exists merged,
    _update_test_metadata current update = Ok merged
    /\ dict_get key_eqb (Some "timestamp") merged
       = Some (str_datetime (datetime_min tc tu))
    /\ forall prop v, In prop REQUIRED_METADATA_PROPERTIES -> prop <> "timestamp" ->
         index update prop = Ok v ->
         dict_get key_eqb (Some prop) merged = Some v.
Proof.
  intros Hc Hu Hall Hic Htc Hiu Htu.
  destruct (Hall "topology") as [v1 H1]; [simpl; tauto|].
  destruct (Hall "testbed") as [v2 H2]; [simpl; tauto|].
  destruct (Hall "host") as [v4 H4]; [simpl; tauto|].
  destruct (Hall "asic") as [v5 H5]; [simpl; tauto|].
  destruct (Hall "platform") as [v6 H6]; [simpl; tauto|].
  destruct (Hall "hwsku") as [v7 H7]; [simpl; tauto|].
  destruct (Hall "os_version") as [v8 H8]; [simpl; tauto|].
  unfold _update_test_metadata.
  destruct current as [|kc current'] eqn:Ec; [contradiction|]. rewrite <- Ec in *.
  destruct update as [|ku update'] eqn:Eu; [contradiction|]. rewrite <- Eu in *.
  unfold REQUIRED_METADATA_PROPERTIES. cbn [foldM String.eqb Ascii.eqb Bool.eqb].
  rewrite H1. cbn [bind]. rewrite H2. cbn [bind].
  rewrite Hic. cbn [bind]. rewrite Htc. cbn [bind].
  rewrite Hiu. cbn [bind]. rewrite Htu. cbn [bind].
  rewrite H4. cbn [bind]. rewrite H5. cbn [bind]. rewrite H6. cbn [bind].
  rewrite H7. cbn [bind]. rewrite H8. cbn [bind].
  eexists. split; [reflexivity|]. split; [reflexivity|].
  intros prop v Hin Hne Hv. simpl in Hin.
  destruct Hin as [E|[E|[E|[E|[E|[E|[E|[E|[]]]]]]]]]; subst prop;
    try contradiction; simpl dict_get; congruence.
Qed.

(** A timestamp that does not read makes the merge of two documents raise. *)
Lemma update_test_metadata_unparsable (current update : metadata_dict)
      (c : string) (e : exn) :
  current <> [] -> update <> [] ->
  (index current "timestamp" = Ok c /\ strptime c = Raise e)
  \/ (index update "timestamp" = Ok c /\ strptime c = Raise e) ->
  exists e', _update_test_metadata current update = Raise e'.
Proof.
  intros Hc Hu H. unfold _update_test_metadata.
  destruct current as [|kc current'] eqn:Ec; [contradiction|]. rewrite <- Ec in *.
  destruct update as [|ku update'] eqn:Eu; [contradiction|]. rewrite <- Eu in *.
  unfold REQUIRED_METADATA_PROPERTIES. cbn [foldM String.eqb Ascii.eqb Bool.eqb].
  destruct (index update "topology") as [v1|e1]; [|now exists e1].
  cbn [bind]. destruct (index update "testbed") as [v2|e2]; [|now exists e2].
  cbn [bind]. destruct H as [[Hi Hs]|[Hi Hs]].
  - rewrite Hi. cbn [bind]. rewrite Hs. now exists e.
  - destruct (index current "timestamp") as [c0|e0]; [|now exists e0].
    cbn [bind]. destruct (strptime c0) as [t0|e0]; [|now exists e0].
    cbn [bind]. rewrite Hi. cbn [bind]. rewrite Hs. now exists e.
Qed.

(** C8 (the code falls short of it). Three validated reports of one run,
    the earliest stamped on a whole second. Folded with the earliest first,
    the second merge writes the minimum without its fraction and the third
    merge cannot read it back: the fold raises [ValueError] instead of
    giving the minimum. Folded with the earliest last, the same documents
    give the minimum. *)
Theorem C8_whole_second_minimum_breaks_later_merge :
  (forall d, In d [doc_ts0; doc_ts1; doc_ts2] -> _validate_junit_xml d = Ok d)
  /\ (exists r,
        snd (parse_test_result (Some [doc_ts0; doc_ts1]) (mkWorld [] []))
        = Ok (Some r)
        /\ dict_get key_eqb (Some "timestamp") (test_metadata r)
           = Some "2021-03-04 05:06:07")
  /\ snd (parse_test_result (Some [doc_ts0; doc_ts1; doc_ts2]) (mkWorld [] []))
     = Raise (ValueError
                ("time data '2021-03-04 05:06:07' does not match format "
                 +++ "'%Y-%m-%d %H:%M:%S.%f'"))
  /\ (exists r,
        snd (parse_test_result (Some [doc_ts1; doc_ts2; doc_ts0]) (mkWorld [] []))
        = Ok (Some r)
        /\ dict_get key_eqb (Some "timestamp") (test_metadata r)
           = Some "2021-03-04 05:06:07").
Proof.
  split; [|split; [|split]].
  - intros d Hd. simpl in Hd.
    destruct Hd as [<-|[<-|[<-|[]]]]; vm_compute; reflexivity.
  - eexists. split; [vm_compute; reflexivity | reflexivity].
  - vm_compute. reflexivity.
  - eexists. split; [vm_compute; reflexivity | reflexivity].
Qed.

(* ------------------------------------------------------------------ *)
(** ** The scan of a properties block *)

Section PropertyScan.
Variable required : list string.

Lemma scan_property_unrecognised (seen : list string) (prop : Element) :
  recognised required prop = false ->
  scan_property required seen prop = Ok seen.
Proof.
  unfold recognised, name_of, scan_property.
  destruct (get prop "name") as [n|]; [|reflexivity].
  destruct (String.eqb n ""); [reflexivity|].
  simpl. intros ->. reflexivity.
Qed.

Lemma scan_property_recognised (seen : list string) (prop : Element) :
  recognised required prop = true ->
  scan_property required seen prop
  = if mem_str (name_of prop) seen then
      Raise (JUnitXMLValidationError
               ("duplicate metadata element: " +++ name_of prop
                +++ " seen more than once"))
    else match get prop "value" with
         | None =>
             Raise (JUnitXMLValidationError
                      ("invalid metadata element: no " +++ quoted "value"
                       +++ " field provided for " +++ name_of prop))
         | Some _ => Ok (seen ++ [name_of prop])
         end.
Proof.
  unfold recognised, name_of, scan_property.
  destruct (get prop "name") as [n|]; [|discriminate].
  destruct (String.eqb n ""); [discriminate|].
  simpl. intros ->. reflexivity.
Qed.

(** Unrecognised properties do not take part in the scan. *)
Lemma foldM_scan_filter (props : list Element) : forall seen,
  foldM (scan_property required) seen props
  = foldM (scan_property required) seen (filter (recognised required) props).
Proof.
  induction props as [|p props IH]; intros seen; [reflexivity|].
  simpl. destruct (recognised required p) eqn:E.
  - simpl. destruct (scan_property required seen p); simpl; auto.
  - rewrite (scan_property_unrecognised seen p E). simpl. apply IH.
Qed.

(** A scan of recognised properties succeeds exactly when no name comes
    twice and every property carries a value; it then lists the names. *)
Lemma foldM_scan_recognised (l : list Element) : forall seen seen',
  Forall (fun p => recognised required p = true) l ->
  NoDup seen ->
  (foldM (scan_property required) seen l = Ok seen'
   <-> NoDup (seen ++ map name_of l) /\ Forall has_value l
       /\ seen' = seen ++ map name_of l).
Proof.
  induction l as [|p l IH]; intros seen seen' Hrec Hnd.
  - simpl. rewrite app_nil_r. split.
    + intros H. inversion H; subst. auto.
    + intros [_ [_ ->]]. reflexivity.
  - inversion Hrec as [|? ? Hp Hl]; subst.
    simpl foldM. rewrite (scan_property_recognised seen p Hp).
    destruct (mem_str (name_of p) seen) eqn:Hm.
    + split; [discriminate|]. intros [Hn _]. exfalso.
      apply mem_str_In in Hm. simpl in Hn.
      apply NoDup_remove_2 in Hn. apply Hn. apply in_or_app. now left.
    + assert (Hnotin : ~ In (name_of p) seen).
      { intros Hin. apply mem_str_In in Hin. congruence. }
      destruct (get p "value") as [v|] eqn:Hv.
      * simpl bind.
        assert (Hnd' : NoDup (seen ++ [name_of p])).
        { apply NoDup_app; auto.
          - repeat constructor. intros [].
          - intros x Hx [<-|[]]. contradiction. }
        rewrite (IH (seen ++ [name_of p]) seen' Hl Hnd').
        simpl map. rewrite <- !app_assoc. simpl app.
        split; intros [H1 [H2 H3]]; repeat split; auto.
        -- constructor; auto. now exists v.
        -- now inversion H2.
      * split; [discriminate|]. intros [_ [Hval _]].
        inversion Hval as [|? ? [v Hv'] _]; subst. congruence.
Qed.

(** A scan raises validation errors only. *)
Lemma foldM_scan_raises (props : list Element) : forall seen e,
  foldM (scan_property required) seen props = Raise e ->
  exists msg, e = JUnitXMLValidationError msg.
Proof.
  induction props as [|p props IH]; intros seen e; simpl; [discriminate|].
  destruct (scan_property required seen p) as [s1|e1] eqn:E; simpl.
  - apply IH.
  - intros H. inversion H; subst. unfold scan_property in E.
    destruct (get p "name") as [n|]; [|discriminate].
    destruct (String.eqb n ""); [discriminate|].
    destruct (negb (mem_str n required)); [discriminate|].
    destruct (mem_str n seen); [inversion E; eauto|].
    destruct (get p "value"); [discriminate | inversion E; eauto].
Qed.

(** The scan of a block, in terms of its recognised properties. *)
Lemma scan_properties_block (pe : Element) (seen : list string) :
  scan_properties required (iterfind PROPERTY_TAG pe) = Ok seen
  <-> NoDup (map name_of (recognised_properties required pe))
      /\ Forall has_value (recognised_properties required pe)
      /\ seen = map name_of (recognised_properties required pe).
Proof.
  unfold scan_properties, recognised_properties. rewrite foldM_scan_filter.
  rewrite (foldM_scan_recognised _ [] seen); [reflexivity| |constructor].
  apply Forall_forall. intros p Hp. now apply filter_In in Hp.
Qed.

End PropertyScan.

(* ------------------------------------------------------------------ *)
(** ** Validation, read off the document *)

Lemma recognised_required (required : list string) (pe : Element) (x : string) :
  In x (map name_of (recognised_properties required pe)) -> In x required.
Proof.
  intros Hin. apply in_map_iff in Hin. destruct Hin as [p [<- Hp]].
  apply filter_In in Hp. destruct Hp as [_ Hp]. unfold recognised in Hp.
  apply andb_true_iff in Hp. now apply mem_str_In.
Qed.

Lemma not_falls_short (seen : list string) :
  ~ falls_short seen <-> forall k, In k REQUIRED_METADATA_PROPERTIES -> In k seen.
Proof.
  unfold falls_short. split.
  - intros H k Hk. destruct (in_dec string_dec k seen) as [Hi|Hn]; auto.
    exfalso. apply H. now exists k.
  - intros H [k [Hk Hn]]. auto.
Qed.

(** How [_validate_test_metadata] ends on a block with children. *)
Lemma validate_test_metadata_block (root pe : Element) :
  find PROPERTIES_TAG root = Some pe -> children pe <> [] ->
  _validate_test_metadata root
  = let* seen :=
      scan_properties REQUIRED_METADATA_PROPERTIES (iterfind PROPERTY_TAG pe) in
    if set_lt seen REQUIRED_METADATA_PROPERTIES
    then Raise (JUnitXMLValidationError "missing metadata element(s)")
    else Ok tt.
Proof.
  intros Hf Hc. unfold _validate_test_metadata, falsy. rewrite Hf.
  destruct (children pe); [contradiction | reflexivity].
Qed.

(** X1. The outcome of the metadata check, its error text included,
    depends only on the recognised properties of the block: two documents
    whose blocks have children and hold the same recognised properties (a
    [property] with a non-empty required name) are treated alike, whatever
    else the blocks contain. *)
Theorem X1_metadata_check_ignores_unrecognised (root root' pe pe' : Element) :
  find PROPERTIES_TAG root = Some pe -> children pe <> [] ->
  find PROPERTIES_TAG root' = Some pe' -> children pe' <> [] ->
  recognised_properties REQUIRED_METADATA_PROPERTIES pe
  = recognised_properties REQUIRED_METADATA_PROPERTIES pe' ->
  _validate_test_metadata root = _validate_test_metadata root'.
Proof.
  intros Hf Hc Hf' Hc' Heq.
  rewrite (validate_test_metadata_block root pe Hf Hc),
          (validate_test_metadata_block root' pe' Hf' Hc').
  unfold scan_properties.
  rewrite (foldM_scan_filter _ (iterfind PROPERTY_TAG pe)),
          (foldM_scan_filter _ (iterfind PROPERTY_TAG pe')).
  unfold recognised_properties in Heq. now rewrite Heq.
Qed.

Lemma X1_metadata_check_ignores_unrecognised_witness :
  _validate_test_metadata noisy_suite = _validate_test_metadata quiet_suite.
Proof.
  apply (X1_metadata_check_ignores_unrecognised
           noisy_suite quiet_suite
           (mkElement "properties" [] (children
              (match find PROPERTIES_TAG noisy_suite with
               | Some pe => pe | None => noisy_suite end)))
           (mkElement "properties" [] (children
              (match find PROPERTIES_TAG quiet_suite with
               | Some pe => pe | None => quiet_suite end))));
    try reflexivity; discriminate.
Defined.

(** X2. With a [properties] block that has children, the metadata check
    passes exactly when, among the recognised properties, no name comes
    twice, each carries a [value] attribute (an empty one will do), and
    every required key is named. *)
Theorem X2_metadata_check_characterised (root pe : Element) :
  find PROPERTIES_TAG root = Some pe -> children pe <> [] ->
  (_validate_test_metadata root = Ok tt
   <-> NoDup (map name_of (recognised_properties REQUIRED_METADATA_PROPERTIES pe))
       /\ Forall has_value (recognised_properties REQUIRED_METADATA_PROPERTIES pe)
       /\ forall k, In k REQUIRED_METADATA_PROPERTIES ->
            In k (map name_of (recognised_properties REQUIRED_METADATA_PROPERTIES pe))).
Proof.
  intros Hf Hc. rewrite (validate_test_metadata_block root pe Hf Hc).
  set (names := map name_of (recognised_properties REQUIRED_METADATA_PROPERTIES pe)).
  assert (Hsub : forall x, In x names -> In x REQUIRED_METADATA_PROPERTIES)
    by apply recognised_required.
  pose proof (set_lt_falls_short names Hsub) as Hlt.
  pose proof (not_falls_short names) as Hnf.
  destruct (scan_properties REQUIRED_METADATA_PROPERTIES (iterfind PROPERTY_TAG pe))
    as [seen|e] eqn:Hscan.
  - apply scan_properties_block in Hscan. destruct Hscan as [Hnd [Hval ->]].
    fold names. simpl bind.
    destruct (set_lt names REQUIRED_METADATA_PROPERTIES) eqn:E.
    + split; [discriminate|]. intros [_ [_ Hcov]]. exfalso.
      apply Hnf in Hcov. apply Hcov. now apply Hlt.
    + split; [|reflexivity]. intros _. repeat split; auto.
      apply Hnf. intros Hs. apply Hlt in Hs. congruence.
  - simpl bind. split; [discriminate|]. intros [Hnd [Hval _]].
    assert (Hok : scan_properties REQUIRED_METADATA_PROPERTIES
                                  (iterfind PROPERTY_TAG pe) = Ok names).
    { apply scan_properties_block. auto. }
    congruence.
Qed.

Lemma X2_metadata_check_characterised_witness :
  _validate_test_metadata noisy_suite = Ok tt.
Proof.
  apply (X2_metadata_check_characterised noisy_suite
           (mkElement "properties" [] (children
              (match find PROPERTIES_TAG noisy_suite with
               | Some pe => pe | None => noisy_suite end))));
    [reflexivity | discriminate |].
  split; [|split].
  - vm_compute. repeat constructor; simpl; intuition discriminate.
  - vm_compute. repeat constructor; eexists; reflexivity.
  - intros k Hk. vm_compute in Hk. vm_compute. tauto.
Defined.

(** How [_validate_test_case_properties] ends on a block with children. *)
Lemma validate_test_case_properties_block (tc pe : Element) :
  find TESTCASE_PROPERTIES_TAG tc = Some pe -> children pe <> [] ->
  _validate_test_case_properties tc
  = let* seen :=
      scan_properties REQUIRED_TESTCASE_PROPERTIES
                      (iterfind TESTCASE_PROPERTY_TAG pe) in
    if set_lt seen REQUIRED_TESTCASE_PROPERTIES
    then Raise (TypeError "'bool' object is not iterable")
    else Ok tt.
Proof.
  intros Hf Hc. unfold _validate_test_case_properties, falsy. rewrite Hf.
  destruct (children pe); [contradiction | reflexivity].
Qed.

Lemma set_lt_timing (names : list string) :
  (forall x, In x names -> In x REQUIRED_TESTCASE_PROPERTIES) ->
  set_lt names REQUIRED_TESTCASE_PROPERTIES = true
  <-> ~ In "start" names \/ ~ In "end" names.
Proof.
  intros Hsub. unfold set_lt.
  assert (Hs : set_subset names REQUIRED_TESTCASE_PROPERTIES = true)
    by now apply set_subset_spec.
  rewrite Hs, andb_true_l, negb_true_iff.
  unfold set_subset, REQUIRED_TESTCASE_PROPERTIES. cbn [forallb].
  rewrite andb_true_r.
  destruct (mem_str "start" names) eqn:E1, (mem_str "end" names) eqn:E2; simpl.
  - apply mem_str_In in E1, E2. split; [discriminate | tauto].
  - split; [|reflexivity]. intros _. right. intros H.
    apply mem_str_In in H. congruence.
  - split; [|reflexivity]. intros _. left. intros H.
    apply mem_str_In in H. congruence.
  - split; [|reflexivity]. intros _. left. intros H.
    apply mem_str_In in H. congruence.
Qed.

(** X3. On a test case whose [properties] block has children, the check of
    the timing properties does not warn about a missing [start] or [end]:
    when the recognised properties are well formed (no name twice, each
    with a [value]) but do not name both, it raises [TypeError]; it passes
    exactly when they are well formed and name both. *)
Theorem X3_missing_timing_property_is_a_type_error (tc pe : Element) :
  find TESTCASE_PROPERTIES_TAG tc = Some pe -> children pe <> [] ->
  let rec := recognised_properties REQUIRED_TESTCASE_PROPERTIES pe in
  (_validate_test_case_properties tc
   = Raise (TypeError "'bool' object is not iterable")
   <-> NoDup (map name_of rec) /\ Forall has_value rec
       /\ (~ In "start" (map name_of rec) \/ ~ In "end" (map name_of rec)))
  /\ (_validate_test_case_properties tc = Ok tt
      <-> NoDup (map name_of rec) /\ Forall has_value rec
          /\ In "start" (map name_of rec) /\ In "end" (map name_of rec)).
Proof.
  intros Hf Hc rec. rewrite (validate_test_case_properties_block tc pe Hf Hc).
  set (names := map name_of rec).
  assert (Hsub : forall x, In x names -> In x REQUIRED_TESTCASE_PROPERTIES)
    by apply recognised_required.
  pose proof (set_lt_timing names Hsub) as Hlt.
  destruct (scan_properties REQUIRED_TESTCASE_PROPERTIES
                            (iterfind TESTCASE_PROPERTY_TAG pe))
    as [seen|e] eqn:Hscan.
  - apply scan_properties_block in Hscan. destruct Hscan as [Hnd [Hval ->]].
    fold rec. fold names. simpl bind.
    destruct (set_lt names REQUIRED_TESTCASE_PROPERTIES) eqn:E.
    + pose proof (proj1 Hlt eq_refl) as Hor. split; split.
      * intros _. auto.
      * reflexivity.
      * discriminate.
      * intros [_ [_ [H1 H2]]]. exfalso. destruct Hor; contradiction.
    + assert (Hboth : In "start" names /\ In "end" names).
      { split.
        - destruct (in_dec string_dec "start" names) as [Hi|Hn]; auto.
          exfalso. assert (false = true) by (apply Hlt; auto). discriminate.
        - destruct (in_dec string_dec "end" names) as [Hi|Hn]; auto.
          exfalso. assert (false = true) by (apply Hlt; auto). discriminate. }
      split; split.
      * discriminate.
      * intros [_ [_ H]]. apply Hlt in H. discriminate.
      * intros _. tauto.
      * reflexivity.
  - simpl bind.
    assert (Hbad : ~ (NoDup names /\ Forall has_value rec)).
    { intros [Hnd Hval].
      assert (Hok : scan_properties REQUIRED_TESTCASE_PROPERTIES
                      (iterfind TESTCASE_PROPERTY_TAG pe) = Ok names)
        by (apply scan_properties_block; auto).
      congruence. }
    unfold scan_properties in Hscan.
    destruct (foldM_scan_raises _ _ _ _ Hscan) as [msg ->].
    split; split; try discriminate; intros [H1 [H2 _]]; exfalso; auto.
Qed.

Lemma X3_missing_timing_property_is_a_type_error_witness :
  _validate_test_case_properties xfail_only_case
  = Raise (TypeError "'bool' object is not iterable")
  /\ _validate_test_case_properties xfail_skipped_case = Ok tt.
Proof.
  split.
  - apply (proj1 (X3_missing_timing_property_is_a_type_error xfail_only_case
             (mkElement "properties" [] (children
                (match find TESTCASE_PROPERTIES_TAG xfail_only_case with
                 | Some pe => pe | None => xfail_only_case end)))
             eq_refl ltac:(discriminate))).
    vm_compute. split; [constructor | split; [constructor | left; intros []]].
  - apply (proj2 (X3_missing_timing_property_is_a_type_error xfail_skipped_case
             (mkElement "properties" [] (children
                (match find TESTCASE_PROPERTIES_TAG xfail_skipped_case with
                 | Some pe => pe | None => xfail_skipped_case end)))
             eq_refl ltac:(discriminate))).
    vm_compute. split; [|split; [|tauto]].
    + repeat constructor; simpl; intuition discriminate.
    + repeat constructor; eexists; reflexivity.
Defined.

(** The loop of [_validate_test_summary] over any list of fields. *)
Lemma summary_fields_loop (root : Element) (fields : list (string * numtype)) :
  let step := fun (_ : unit) '(xml_field, expected_type) =>
    match get root xml_field with
    | None =>
        Raise (JUnitXMLValidationError
                 (xml_field +++ " not found in <" +++ TESTSUITE_TAG +++ "> element"))
    | Some v =>
        match cast expected_type v with
        | Ok _ => Ok tt
        | Raise _ =>
            Raise (JUnitXMLValidationError
                     ("invalid type for " +++ xml_field +++ " in " +++ TESTSUITE_TAG
                      +++ "> element: expected a number, received " +++ quoted v))
        end
    end in
  (foldM step tt fields = Ok tt <-> Forall (field_ok root) fields)
  /\ (forall e, foldM step tt fields = Raise e ->
                exists msg, e = JUnitXMLValidationError msg).
Proof.
  cbv zeta. induction fields as [|[f ty] fields [IH1 IH2]].
  - simpl. split; [split; auto | discriminate].
  - simpl foldM.
    destruct (get root f) as [v|] eqn:Hg.
    + destruct (cast ty v) as [n|e0] eqn:Hc; simpl bind.
      * split; [|exact IH2]. rewrite IH1. split.
        -- intros H. constructor; auto. exists v. split; auto.
           simpl. now exists n.
        -- intros H. now inversion H.
      * split.
        -- split; [discriminate|]. intros H. inversion H as [|? ? [v' [Hv [n Hn]]] _].
           simpl in Hv, Hn. rewrite Hg in Hv. inversion Hv; subst. congruence.
        -- intros e H. inversion H. eauto.
    + simpl bind. split.
      * split; [discriminate|]. intros H. inversion H as [|? ? [v' [Hv _]] _].
        simpl in Hv. congruence.
      * intros e H. inversion H. eauto.
Qed.

Lemma validate_test_summary_raises (root : Element) (e : exn) :
  _validate_test_summary root = Raise e ->
  exists msg, e = JUnitXMLValidationError msg.
Proof.
  unfold _validate_test_summary.
  destruct (summary_fields_loop root REQUIRED_TESTSUITE_ATTRIBUTES) as [_ H2].
  destruct (negb (String.eqb (tag root) TESTSUITE_TAG)); [|apply H2].
  intros H. inversion H. eauto.
Qed.

(** X4. The check of the root passes exactly when the root is tagged
    [testsuite] and declares each of time, tests, skipped, failures and
    errors with a text its declared type reads; when it fails, it fails
    with a validation error, never with the error of the conversion. *)
Theorem X4_summary_check_characterised (root : Element) :
  (_validate_test_summary root = Ok tt
   <-> tag root = TESTSUITE_TAG
       /\ Forall (field_ok root) REQUIRED_TESTSUITE_ATTRIBUTES)
  /\ (forall e, _validate_test_summary root = Raise e ->
                exists msg, e = JUnitXMLValidationError msg).
Proof.
  unfold _validate_test_summary.
  destruct (summary_fields_loop root REQUIRED_TESTSUITE_ATTRIBUTES) as [H1 H2].
  destruct (String.eqb_spec (tag root) TESTSUITE_TAG) as [Ht|Ht]; simpl negb; cbv iota.
  - split; [|exact H2]. rewrite H1. tauto.
  - split.
    + split; [discriminate|]. intros [H _]. contradiction.
    + intros e H. inversion H. eauto.
Qed.

(** The loop of [_validate_test_case] over any list of attributes. *)
Lemma descriptors_loop (tc : Element) (attributes : list string) :
  foldM (fun (_ : unit) attribute =>
           if negb (dict_mem String.eqb attribute (attrib tc)) then
             Raise (JUnitXMLValidationError
                      (quoted attribute +++ " not found in test case "
                       +++ quoted (get_default tc "name" "Name Not Found")))
           else Ok tt) tt attributes = Ok tt
  <-> forall a, In a attributes -> exists v, get tc a = Some v.
Proof.
  induction attributes as [|a attributes IH]; simpl.
  - split; [intros _ a [] | reflexivity].
  - unfold dict_mem at 1. fold (get tc a).
    destruct (get tc a) as [v|] eqn:Hg; simpl.
    + rewrite IH. split.
      * intros H x [<-|Hx]; [now exists v | auto].
      * intros H x Hx. apply H. now right.
    + split; [discriminate|]. intros H.
      destruct (H a (or_introl eq_refl)) as [v Hv]. congruence.
Qed.

Lemma validate_test_case_spec (tc : Element) :
  _validate_test_case tc = Ok tt
  <-> has_descriptors tc /\ _validate_test_case_properties tc = Ok tt.
Proof.
  unfold _validate_test_case, has_descriptors.
  pose proof (descriptors_loop tc REQUIRED_TESTCASE_ATTRIBUTES) as Hd.
  destruct (foldM _ tt REQUIRED_TESTCASE_ATTRIBUTES) as [[]|e] eqn:E; simpl bind.
  - split; [intros H; split; [now apply Hd | exact H] | tauto].
  - split; [discriminate|]. intros [H _]. apply Hd in H. discriminate.
Qed.

Lemma foldM_unit_forall {B : Type} (f : B -> result unit) (l : list B) :
  foldM (fun _ x => f x) tt l = Ok tt <-> Forall (fun x => f x = Ok tt) l.
Proof.
  induction l as [|x l IH]; simpl.
  - split; auto.
  - destruct (f x) as [[]|e] eqn:E; simpl.
    + rewrite IH. split; [intros H; now constructor | intros H; now inversion H].
    + split; [discriminate|]. intros H. inversion H. congruence.
Qed.

(** X5. The check of the test cases passes exactly when every child
    tagged [testcase] declares classname, file, line, name and time and
    passes the check of its timing properties; children with other tags
    are not looked at. *)
Theorem X5_cases_check_characterised (root : Element) :
  _validate_test_cases root = Ok tt
  <-> forall tc, In tc (children root) -> tag tc = TESTCASE_TAG ->
        has_descriptors tc /\ _validate_test_case_properties tc = Ok tt.
Proof.
  unfold _validate_test_cases.
  rewrite (foldM_unit_forall _validate_test_case), Forall_forall.
  unfold findall. split.
  - intros H tc Hin Ht. apply validate_test_case_spec, H.
    apply filter_In. split; [exact Hin | now apply String.eqb_eq].
  - intros H tc Hin. apply filter_In in Hin. destruct Hin as [Hin Ht].
    apply validate_test_case_spec, H; [exact Hin | now apply String.eqb_eq].
Qed.

(* ------------------------------------------------------------------ *)
(** ** What validation returns and raises *)

Lemma validate_junit_xml_returns_root (root r : Element) :
  _validate_junit_xml root = Ok r -> r = root.
Proof.
  unfold _validate_junit_xml.
  destruct (_validate_test_summary root); simpl; [|discriminate].
  destruct (_validate_test_metadata root); simpl; [|discriminate].
  destruct (_validate_test_cases root); simpl; [|discriminate].
  intros H. now inversion H.
Qed.

Lemma validate_test_metadata_raises (root : Element) (e : exn) :
  _validate_test_metadata root = Raise e ->
  exists msg, e = JUnitXMLValidationError msg.
Proof.
  unfold _validate_test_metadata.
  destruct (falsy (find PROPERTIES_TAG root)); [discriminate|].
  destruct (find PROPERTIES_TAG root) as [pe|]; [|discriminate].
  destruct (scan_properties REQUIRED_METADATA_PROPERTIES (iterfind PROPERTY_TAG pe))
    as [seen|e0] eqn:E; simpl.
  - destruct (set_lt seen REQUIRED_METADATA_PROPERTIES); [|discriminate].
    intros H. inversion H. eauto.
  - intros H. inversion H; subst. unfold scan_properties in E.
    eapply foldM_scan_raises; eauto.
Qed.

Lemma validate_test_case_raises (tc : Element) (e : exn) :
  _validate_test_case tc = Raise e ->
  (exists msg, e = JUnitXMLValidationError msg)
  \/ e = TypeError "'bool' object is not iterable".
Proof.
  unfold _validate_test_case.
  destruct (foldM _ tt REQUIRED_TESTCASE_ATTRIBUTES) as [[]|e0] eqn:E; simpl.
  - unfold _validate_test_case_properties.
    destruct (falsy (find TESTCASE_PROPERTIES_TAG tc)); [discriminate|].
    destruct (find TESTCASE_PROPERTIES_TAG tc) as [pe|]; [|discriminate].
    destruct (scan_properties REQUIRED_TESTCASE_PROPERTIES
                              (iterfind TESTCASE_PROPERTY_TAG pe))
      as [seen|e1] eqn:E1; simpl.
    + destruct (set_lt seen REQUIRED_TESTCASE_PROPERTIES); [|discriminate].
      intros H. inversion H. now right.
    + intros H. inversion H; subst. left. unfold scan_properties in E1.
      eapply foldM_scan_raises; eauto.
  - intros H. inversion H; subst. left. clear H.
    revert E. generalize REQUIRED_TESTCASE_ATTRIBUTES as l.
    induction l as [|a l IH]; simpl; [discriminate|].
    destruct (negb (dict_mem String.eqb a (attrib tc))); simpl.
    + intros H. inversion H. eauto.
    + exact IH.
Qed.

Lemma validate_test_cases_raises (root : Element) (e : exn) :
  _validate_test_cases root = Raise e ->
  (exists msg, e = JUnitXMLValidationError msg)
  \/ e = TypeError "'bool' object is not iterable".
Proof.
  unfold _validate_test_cases.
  generalize (findall TESTCASE_TAG root) as l.
  induction l as [|tc l IH]; simpl; [discriminate|].
  destruct (_validate_test_case tc) as [[]|e0] eqn:E; simpl.
  - exact IH.
  - intros H. inversion H; subst. eapply validate_test_case_raises; eauto.
Qed.

(** X6. Validation of a tree returns the tree it was given; when it fails
    it raises a validation error, or the [TypeError] of the timing check,
    and nothing else. *)
Theorem X6_validation_returns_root_or_raises (root : Element) :
  (forall r, _validate_junit_xml root = Ok r -> r = root)
  /\ (forall e, _validate_junit_xml root = Raise e ->
        (exists msg, e = JUnitXMLValidationError msg)
        \/ (e = TypeError "'bool' object is not iterable"
            /\ _validate_test_summary root = Ok tt
            /\ _validate_test_metadata root = Ok tt)).
Proof.
  split; [apply validate_junit_xml_returns_root|].
  intros e. unfold _validate_junit_xml.
  destruct (_validate_test_summary root) as [[]|e1] eqn:E1; simpl.
  - destruct (_validate_test_metadata root) as [[]|e2] eqn:E2; simpl.
    + destruct (_validate_test_cases root) as [[]|e3] eqn:E3; simpl; [discriminate|].
      intros H. inversion H; subst.
      destruct (validate_test_cases_raises root e E3) as [Hv|Ht]; auto.
    + intros H. inversion H; subst. left.
      eapply validate_test_metadata_raises; eauto.
  - intros H. inversion H; subst. left.
    eapply validate_test_summary_raises; eauto.
Qed.

(* ------------------------------------------------------------------ *)
(** ** The file entry point *)

Section FileEntry.
Variable env : Env.

(** The file entry point never prints, and calls the parser at most once. *)
Lemma validate_file_effects (document : string) (w : World) :
  stdout (fst (validate_junit_xml_file env document w)) = stdout w
  /\ (parse_calls (fst (validate_junit_xml_file env document w)) = parse_calls w
      \/ parse_calls (fst (validate_junit_xml_file env document w))
         = parse_calls w ++ [FromFile document]).
Proof.
  unfold validate_junit_xml_file.
  destruct (negb (path_exists env document) || negb (path_isfile env document));
    [simpl; auto|].
  destruct (MAXIMUM_XML_SIZE <? path_getsize env document)%Z; [simpl; auto|].
  unfold io_bind, call_parser, io_raise, lift. simpl.
  destruct (et_parse env document) as [msg|root]; simpl; auto.
Qed.

Lemma validate_file_inv (document : string) (root : Element) (w w' : World) :
  validate_junit_xml_file env document w = (w', Ok root) ->
  valid_file env document root
  /\ w' = mkWorld (stdout w) (parse_calls w ++ [FromFile document]).
Proof.
  unfold validate_junit_xml_file, valid_file.
  destruct (path_exists env document); [|discriminate].
  destruct (path_isfile env document); [|discriminate]. simpl.
  destruct (Z.ltb_spec MAXIMUM_XML_SIZE (path_getsize env document));
    [discriminate|].
  unfold io_bind, call_parser, io_raise, lift. simpl.
  destruct (et_parse env document) as [msg|r]; [discriminate|].
  destruct (_validate_junit_xml r) as [r'|e] eqn:E; [|discriminate].
  intros Heq. inversion Heq; subst.
  pose proof (validate_junit_xml_returns_root _ _ E) as Hr. subst r.
  repeat split; auto.
Qed.

End FileEntry.

(** X7. The file entry point returns a root exactly when the path is an
    existing regular file within the size limit which the parser reads as
    that root and the root passes validation; the parser has then been
    called once. Whatever the outcome, nothing is printed and the parser
    is called at most once. *)
Theorem X7_file_entry_point (env : Env) (document : string) (w : World) :
  (forall root w',
     validate_junit_xml_file env document w = (w', Ok root)
     <-> valid_file env document root
         /\ w' = mkWorld (stdout w) (parse_calls w ++ [FromFile document]))
  /\ stdout (fst (validate_junit_xml_file env document w)) = stdout w
  /\ (parse_calls (fst (validate_junit_xml_file env document w)) = parse_calls w
      \/ parse_calls (fst (validate_junit_xml_file env document w))
         = parse_calls w ++ [FromFile document]).
Proof.
  split.
  - intros root w'. split.
    + apply validate_file_inv.
    + intros [Hv ->]. now apply validate_valid_file.
  - apply validate_file_effects.
Qed.

(* ------------------------------------------------------------------ *)
(** ** Invariants of the scan of an archive *)

Section ArchiveInvariants.
Variable env : Env.

(** What a successful turn of the [try] body has done. *)
Lemma scan_document_inv (st st' : scan) (document : string) (w w' : World) :
  scan_document env st document w = (w', Ok st') ->
  exists root,
    valid_file env document root
    /\ w' = mkWorld (stdout w) (parse_calls w ++ [FromFile document])
    /\ roots st' = roots st ++ [root]
    /\ ((comparable_metadata root = []
         /\ metadata_source st' = metadata_source st
         /\ metadata st' = metadata st)
        \/ (dict_eqb key_eqb String.eqb (comparable_metadata root) (metadata st')
            = true
            /\ ((str_falsy (metadata_source st) = true
                 /\ metadata_source st' = Some document
                 /\ metadata st' = comparable_metadata root)
                \/ (str_falsy (metadata_source st) = false
                    /\ metadata_source st' = metadata_source st
                    /\ metadata st' = metadata st)))).
Proof.
  unfold scan_document, io_bind.
  destruct (validate_junit_xml_file env document w) as [w1 [root|e]] eqn:Ev;
    [|discriminate].
  destruct (validate_file_inv env document root w w1 Ev) as [Hv ->].
  destruct (comparable_metadata root) as [|kv m] eqn:Em.
  - unfold io_ret. intros H. inversion H; subst. exists root.
    rewrite Em. simpl.
    split; [exact Hv|]. split; [reflexivity|]. split; [reflexivity|].
    left. auto.
  - rewrite <- Em.
    destruct (str_falsy (metadata_source st)) eqn:Es.
    + destruct (dict_eqb key_eqb String.eqb (comparable_metadata root)
                         (comparable_metadata root)) eqn:Ed;
        simpl negb; cbv iota; [|discriminate].
      unfold io_ret. intros H. inversion H; subst. exists root. simpl.
      split; [exact Hv|]. split; [reflexivity|]. split; [reflexivity|].
      right. split; [exact Ed|]. left. auto.
    + destruct (dict_eqb key_eqb String.eqb (comparable_metadata root)
                         (metadata st)) eqn:Ed;
        simpl negb; cbv iota; [|discriminate].
      unfold io_ret. intros H. inversion H; subst. exists root. simpl.
      split; [exact Hv|]. split; [reflexivity|]. split; [reflexivity|].
      right. split; [exact Ed|]. right. split; [reflexivity|]. split; [|reflexivity].
      destruct (metadata_source st) as [s|]; [reflexivity | discriminate].
Qed.

(** The [try] body never prints. *)
Lemma scan_document_stdout (st : scan) (document : string) (w : World) :
  stdout (fst (scan_document env st document w)) = stdout w.
Proof.
  unfold scan_document, io_bind.
  pose proof (proj1 (validate_file_effects env document w)) as Hs.
  destruct (validate_junit_xml_file env document w) as [w1 [root|e]];
    simpl in Hs; [|exact Hs].
  destruct (comparable_metadata root); [exact Hs|].
  destruct (if str_falsy (metadata_source st) then _ else _) as [source seed].
  destruct (negb _); exact Hs.
Qed.

(** A turn of the loop in lenient mode: the document is taken, or it is
    reported in one line and the state kept. *)
Lemma scan_step_lenient (st : scan) (document : string) (w : World) :
  (exists w' st',
     scan_step env false st document w = (w', Ok st')
     /\ scan_document env st document w = (w', Ok st')
     /\ stdout w' = stdout w)
  \/ (exists w' line,
        scan_step env false st document w = (w', Ok st)
        /\ stdout w' = stdout w ++ [line]).
Proof.
  unfold scan_step, try_except.
  pose proof (scan_document_stdout st document w) as Hs.
  destruct (scan_document env st document w) as [w1 [st1|e]]; simpl in Hs.
  - left. exists w1, st1. auto.
  - right. unfold io_bind, print, io_ret. simpl. eexists. eexists.
    split; [reflexivity|]. simpl. now rewrite Hs.
Qed.

(** A turn of the loop in strict mode succeeds only by taking the document. *)
Lemma scan_step_strict (st st' : scan) (document : string) (w w' : World) :
  scan_step env true st document w = (w', Ok st') ->
  scan_document env st document w = (w', Ok st').
Proof.
  unfold scan_step, try_except.
  destruct (scan_document env st document w) as [w1 [st1|e]]; [auto|].
  unfold io_raise. discriminate.
Qed.

End ArchiveInvariants.

Section ArchiveLoop.
Variable env : Env.

Lemma io_fold_cons_inv {A B : Type} (f : A -> B -> IO A) (a a' : A) (x : B)
      (l : list B) (w w' : World) :
  io_fold f a (x :: l) w = (w', Ok a') ->
  exists w1 a1, f a x w = (w1, Ok a1) /\ io_fold f a1 l w1 = (w', Ok a').
Proof.
  simpl. unfold io_bind. destruct (f a x w) as [w1 [a1|e]]; [|discriminate].
  intros H. now exists w1, a1.
Qed.

(** In lenient mode the loop never raises; each document is taken or
    reported in one printed line; the roots taken come from valid files. *)
Lemma scan_loop_lenient (docs : list string) : forall (st : scan) (w : World),
  exists w' st' lines rs,
    io_fold (scan_step env false) st docs w = (w', Ok st')
    /\ stdout w' = stdout w ++ lines
    /\ roots st' = roots st ++ rs
    /\ (List.length lines + List.length rs = List.length docs)%nat
    /\ Forall (fun r => exists doc, In doc docs /\ valid_file env doc r) rs.
Proof.
  induction docs as [|d docs IH]; intros st w.
  - exists w, st, [], []. simpl. rewrite !app_nil_r. repeat split; auto.
  - destruct (scan_step_lenient env st d w)
      as [[w1 [st1 [Hstep [Hdoc Hout]]]] | [w1 [line [Hstep Hout]]]].
    + destruct (scan_document_inv env st st1 d w w1 Hdoc)
        as [root [Hv [_ [Hroots _]]]].
      destruct (IH st1 w1) as [w' [st' [lines [rs [Hf [Hs [Hr [Hlen Hall]]]]]]]].
      exists w', st', lines, (root :: rs).
      simpl io_fold. unfold io_bind. rewrite Hstep.
      split; [exact Hf|]. split; [now rewrite Hs, Hout|].
      split; [rewrite Hr, Hroots, <- app_assoc; reflexivity|].
      split; [simpl; lia|].
      constructor.
      * exists d. split; [now left | exact Hv].
      * eapply Forall_impl; [|exact Hall].
        intros r [doc [Hin Hd]]. exists doc. split; [now right | exact Hd].
    + destruct (IH st w1) as [w' [st' [lines [rs [Hf [Hs [Hr [Hlen Hall]]]]]]]].
      exists w', st', (line :: lines), rs.
      simpl io_fold. unfold io_bind. rewrite Hstep.
      split; [exact Hf|].
      split; [rewrite Hs, Hout, <- app_assoc; reflexivity|].
      split; [exact Hr|]. split; [simpl; lia|].
      eapply Forall_impl; [|exact Hall].
      intros r [doc [Hin Hd]]. exists doc. split; [now right | exact Hd].
Qed.

(** In strict mode the loop succeeds only by taking every document; it
    prints nothing. *)
Lemma scan_loop_strict (docs : list string) : forall (st st' : scan) (w w' : World),
  io_fold (scan_step env true) st docs w = (w', Ok st') ->
  exists rs,
    roots st' = roots st ++ rs
    /\ Forall2 (valid_file env) docs rs
    /\ stdout w' = stdout w.
Proof.
  induction docs as [|d docs IH]; intros st st' w w' H.
  - simpl in H. inversion H; subst. exists []. rewrite app_nil_r. auto.
  - destruct (io_fold_cons_inv _ _ _ _ _ _ _ H) as [w1 [st1 [Hstep Hrest]]].
    apply scan_step_strict in Hstep.
    destruct (scan_document_inv env st st1 d w w1 Hstep)
      as [root [Hv [Hw [Hroots _]]]].
    destruct (IH st1 st' w1 w' Hrest) as [rs [Hr [Hall Hs]]].
    exists (root :: rs).
    split; [rewrite Hr, Hroots, <- app_assoc; reflexivity|].
    split; [now constructor|]. rewrite Hs, Hw. reflexivity.
Qed.

(** Taking a document keeps the roots in agreement with the seed. *)
Lemma scan_document_agrees (st st' : scan) (document : string) (w w' : World) :
  scan_document env st document w = (w', Ok st') ->
  document <> "" -> scan_agrees st -> scan_agrees st'.
Proof.
  intros H Hne Hinv.
  destruct (scan_document_inv env st st' document w w' H)
    as [root [_ [_ [Hroots Hmd]]]].
  unfold scan_agrees in *. rewrite Hroots.
  destruct Hmd as [[He [Hs Hm]] | [Hd [[Hf [Hs Hm]] | [Hf [Hs Hm]]]]].
  - rewrite Hs, Hm. destruct (metadata_source st) as [s|].
    + destruct Hinv as [Hs0 Hall]. split; [exact Hs0|].
      apply Forall_app. split; [exact Hall|]. constructor; [now left | constructor].
    + apply Forall_app. split; [exact Hinv|]. now repeat constructor.
  - rewrite Hs. split; [exact Hne|]. rewrite Hm in *.
    apply Forall_app. split.
    + destruct (metadata_source st) as [s|].
      * simpl in Hf. destruct Hinv as [Hs0 _].
        apply String.eqb_eq in Hf. contradiction.
      * eapply Forall_impl; [|exact Hinv]. intros r Hr. now left.
    + constructor; [now right | constructor].
  - rewrite Hs, Hm. destruct (metadata_source st) as [s|]; [|discriminate].
    destruct Hinv as [Hs0 Hall]. split; [exact Hs0|].
    apply Forall_app. split; [exact Hall|].
    constructor; [right; now rewrite <- Hm | constructor].
Qed.

Lemma scan_loop_agrees (strict : bool) (docs : list string) :
  forall (st st' : scan) (w w' : World),
  io_fold (scan_step env strict) st docs w = (w', Ok st') ->
  ~ In "" docs -> scan_agrees st -> scan_agrees st'.
Proof.
  induction docs as [|d docs IH]; intros st st' w w' H Hne Hinv.
  - simpl in H. inversion H; subst. exact Hinv.
  - destruct (io_fold_cons_inv _ _ _ _ _ _ _ H) as [w1 [st1 [Hstep Hrest]]].
    assert (Hd : d <> "") by (intros ->; apply Hne; now left).
    assert (Hdocs : ~ In "" docs) by (intros Hin; apply Hne; now right).
    apply (IH st1 st' w1 w' Hrest Hdocs).
    destruct strict.
    + apply scan_step_strict in Hstep.
      exact (scan_document_agrees _ _ _ _ _ Hstep Hd Hinv).
    + destruct (scan_step_lenient env st d w)
        as [[w2 [st2 [Hs2 [Hdoc _]]]] | [w2 [line [Hs2 _]]]].
      * rewrite Hs2 in Hstep. inversion Hstep; subst.
        exact (scan_document_agrees _ _ _ _ _ Hdoc Hd Hinv).
      * rewrite Hs2 in Hstep. inversion Hstep; subst. exact Hinv.
Qed.

(** The size loop adds the sizes up when every listed path can be
    stat'ed, and stops at the first one that cannot. *)
Lemma add_sizes_ok (docs : list string) : forall acc,
  sizes_known env docs = true ->
  foldM (add_size env) acc docs
  = Ok (fold_left (fun a d => (a + path_getsize env d)%Z) docs acc).
Proof.
  induction docs as [|d docs IH]; intros acc H; simpl; [reflexivity|].
  simpl in H. apply andb_true_iff in H as [Hd Hrest].
  unfold add_size at 1, getsize. rewrite Hd. simpl. now apply IH.
Qed.

Lemma add_sizes_raises (before after : list string) (p : string) : forall acc,
  sizes_known env before = true ->
  path_exists env p = false ->
  foldM (add_size env) acc (before ++ p :: after) = Raise (OSError p).
Proof.
  induction before as [|d before IH]; intros acc H Hp; simpl.
  - unfold add_size, getsize. now rewrite Hp.
  - simpl in H. apply andb_true_iff in H as [Hd Hrest].
    unfold add_size at 1, getsize. rewrite Hd. simpl. now apply IH.
Qed.

Lemma add_sizes_inv (docs : list string) : forall acc t,
  foldM (add_size env) acc docs = Ok t -> sizes_known env docs = true.
Proof.
  induction docs as [|d docs IH]; intros acc t H; simpl; [reflexivity|].
  simpl in H. unfold add_size at 1, getsize in H.
  destruct (path_exists env d); simpl in H; [|discriminate].
  simpl. exact (IH _ _ H).
Qed.

(** The archive entry point, past its checks, is the loop followed by the
    remark on an empty result. *)
Lemma archive_unfold (directory_name : string) (strict : bool) (w : World) :
  path_exists env directory_name = true ->
  path_isdir env directory_name = true ->
  sizes_known env (glob_docs env directory_name) = true ->
  (total_size env (glob_docs env directory_name) <= MAXIMUM_XML_SIZE)%Z ->
  validate_junit_xml_archive env directory_name strict w
  = match io_fold (scan_step env strict) (mkScan [] None [])
                  (glob_docs env directory_name) w with
    | (w', Ok st) =>
        (match roots st with
         | [] => mkWorld (stdout w' ++ ["provided directory " +++ directory_name
                                        +++ " does not contain any valid XML files"])
                         (parse_calls w')
         | _ => w'
         end, Ok (Some (roots st)))
    | (w', Raise e) => (w', Raise e)
    end.
Proof.
  intros He Hd Hk Hs. unfold validate_junit_xml_archive. rewrite He, Hd.
  cbn [negb orb]. unfold io_bind at 1, lift.
  rewrite (add_sizes_ok _ 0%Z Hk). fold (total_size env (glob_docs env directory_name)).
  destruct (Z.ltb_spec MAXIMUM_XML_SIZE
                       (total_size env (glob_docs env directory_name))); [lia|].
  unfold io_bind at 1.
  destruct (io_fold (scan_step env strict) (mkScan [] None [])
                    (glob_docs env directory_name) w) as [w' [st|e]]; [|reflexivity].
  unfold io_bind, print, io_ret.
  destruct (roots st); [reflexivity | destruct w'; reflexivity].
Qed.

(** What the entry point does before it scans. *)
Lemma archive_not_found (directory_name : string) (strict : bool) (w : World) :
  path_exists env directory_name = false \/ path_isdir env directory_name = false ->
  validate_junit_xml_archive env directory_name strict w
  = (mkWorld (stdout w ++ ["directory " +++ directory_name +++ " not found"])
             (parse_calls w),
     Ok None).
Proof.
  unfold validate_junit_xml_archive.
  intros [H|H]; rewrite H; [|rewrite orb_true_r]; reflexivity.
Qed.

Lemma archive_size_unknown (directory_name : string) (strict : bool) (w : World)
      (before after : list string) (p : string) :
  path_exists env directory_name = true ->
  path_isdir env directory_name = true ->
  glob_docs env directory_name = before ++ p :: after ->
  sizes_known env before = true ->
  path_exists env p = false ->
  validate_junit_xml_archive env directory_name strict w = (w, Raise (OSError p)).
Proof.
  intros He Hd Hg Hb Hp. unfold validate_junit_xml_archive. rewrite He, Hd, Hg.
  cbn [negb orb]. unfold io_bind at 1, lift.
  now rewrite (add_sizes_raises before after p 0%Z Hb Hp).
Qed.

Lemma archive_too_large (directory_name : string) (strict : bool) (w : World) :
  path_exists env directory_name = true ->
  path_isdir env directory_name = true ->
  sizes_known env (glob_docs env directory_name) = true ->
  (MAXIMUM_XML_SIZE < total_size env (glob_docs env directory_name))%Z ->
  validate_junit_xml_archive env directory_name strict w
  = (w, Raise (JUnitXMLValidationError "provided directory is too large")).
Proof.
  intros He Hd Hk Hs. unfold validate_junit_xml_archive. rewrite He, Hd.
  cbn [negb orb]. unfold io_bind at 1, lift.
  rewrite (add_sizes_ok _ 0%Z Hk). fold (total_size env (glob_docs env directory_name)).
  apply Z.ltb_lt in Hs. rewrite Hs. reflexivity.
Qed.

End ArchiveLoop.

(* ------------------------------------------------------------------ *)
(** ** The archive entry point *)

Lemma archive_some_inv (env : Env) (directory_name : string) (strict : bool)
      (w w' : World) (rs : list Element) :
  validate_junit_xml_archive env directory_name strict w = (w', Ok (Some rs)) ->
  path_exists env directory_name = true
  /\ path_isdir env directory_name = true
  /\ sizes_known env (glob_docs env directory_name) = true
  /\ (total_size env (glob_docs env directory_name) <= MAXIMUM_XML_SIZE)%Z.
Proof.
  unfold validate_junit_xml_archive.
  destruct (path_exists env directory_name); [|discriminate].
  destruct (path_isdir env directory_name); [|discriminate].
  cbn [negb orb]. unfold io_bind at 1, lift.
  destruct (foldM (add_size env) 0%Z (glob_docs env directory_name))
    as [t|e] eqn:E; [|discriminate].
  pose proof (add_sizes_inv env _ _ _ E) as Hk.
  rewrite (add_sizes_ok env _ 0%Z Hk) in E. inversion E; subst t.
  fold (total_size env (glob_docs env directory_name)).
  destruct (Z.ltb_spec MAXIMUM_XML_SIZE
                       (total_size env (glob_docs env directory_name)));
    [discriminate|].
  auto.
Qed.

(** X8. Before it scans, in strict and in lenient mode alike, the archive
    entry point answers a path that is not an existing directory by
    printing one line and returning nothing (no error is raised). It then
    asks for the size of every report found: the first report that cannot
    be stat'ed ends the call with the [OSError] of that path, which is no
    validation error; and when every size is known and they add up to more
    than the limit, a validation error is raised. In both cases nothing was
    printed and the parser was not called. *)
Theorem X8_archive_checks_before_scan
        (env : Env) (directory_name : string) (strict : bool) (w : World) :
  (path_exists env directory_name = false \/ path_isdir env directory_name = false ->
   validate_junit_xml_archive env directory_name strict w
   = (mkWorld (stdout w ++ ["directory " +++ directory_name +++ " not found"])
              (parse_calls w),
      Ok None))
  /\ (path_exists env directory_name = true ->
      path_isdir env directory_name = true ->
      forall before p after,
        glob_docs env directory_name = before ++ p :: after ->
        sizes_known env before = true ->
        path_exists env p = false ->
        validate_junit_xml_archive env directory_name strict w
        = (w, Raise (OSError p)))
  /\ (path_exists env directory_name = true ->
      path_isdir env directory_name = true ->
      sizes_known env (glob_docs env directory_name) = true ->
      (MAXIMUM_XML_SIZE < total_size env (glob_docs env directory_name))%Z ->
      validate_junit_xml_archive env directory_name strict w
      = (w, Raise (JUnitXMLValidationError "provided directory is too large"))).
Proof.
  split; [apply archive_not_found|]. split.
  - intros He Hd before p after Hg Hb Hp.
    exact (archive_size_unknown env _ strict w before after p He Hd Hg Hb Hp).
  - apply archive_too_large.
Qed.

Lemma X8_archive_checks_before_scan_witness :
  snd (validate_junit_xml_archive agreeing_env "nowhere" true (mkWorld [] []))
  = Ok None
  /\ validate_junit_xml_archive dangling_env "run" false (mkWorld [] [])
     = (mkWorld [] [], Raise (OSError "run/old_test.xml"))
  /\ validate_junit_xml_archive oversize_dir_env "big" false (mkWorld [] [])
     = (mkWorld [] [],
        Raise (JUnitXMLValidationError "provided directory is too large")).
Proof.
  split; [|split].
  - rewrite (proj1 (X8_archive_checks_before_scan
                      agreeing_env "nowhere" true (mkWorld [] [])));
      [reflexivity | left; reflexivity].
  - apply (proj1 (proj2 (X8_archive_checks_before_scan
                           dangling_env "run" false (mkWorld [] [])))
             eq_refl eq_refl ["run/a_test.xml"] "run/old_test.xml" []);
      reflexivity.
  - apply (proj2 (proj2 (X8_archive_checks_before_scan
                           oversize_dir_env "big" false (mkWorld [] []))));
      reflexivity.
Defined.

(** X9. The lenient call on an existing directory returns exactly when
    the size of every report found is known and the sizes are within the
    limit; no document can make it fail. It then returns a list of roots,
    each the validated root of one of the reports found, and every report
    is either returned or reported in one printed line; one more line is
    printed when no report at all was valid. *)
Theorem X9_lenient_scan_skips_what_fails
        (env : Env) (directory_name : string) (w : World) :
  path_exists env directory_name = true ->
  path_isdir env directory_name = true ->
  ((exists w' rs,
      validate_junit_xml_archive env directory_name false w = (w', Ok (Some rs)))
   <-> sizes_known env (glob_docs env directory_name) = true
       /\ (total_size env (glob_docs env directory_name) <= MAXIMUM_XML_SIZE)%Z)
  /\ (sizes_known env (glob_docs env directory_name) = true ->
      (total_size env (glob_docs env directory_name) <= MAXIMUM_XML_SIZE)%Z ->
      exists w' rs lines,
        validate_junit_xml_archive env directory_name false w = (w', Ok (Some rs))
        /\ stdout w'
           = stdout w ++ lines
             ++ match rs with
                | [] => ["provided directory " +++ directory_name
                         +++ " does not contain any valid XML files"]
                | _ => []
                end
        /\ (List.length lines + List.length rs
            = List.length (glob_docs env directory_name))%nat
        /\ Forall (fun r => exists doc,
                     In doc (glob_docs env directory_name)
                     /\ valid_file env doc r) rs).
Proof.
  intros He Hd.
  assert (Hret : sizes_known env (glob_docs env directory_name) = true ->
                 (total_size env (glob_docs env directory_name)
                  <= MAXIMUM_XML_SIZE)%Z ->
                 exists w' rs lines,
                   validate_junit_xml_archive env directory_name false w
                   = (w', Ok (Some rs))
                   /\ stdout w'
                      = stdout w ++ lines
                        ++ match rs with
                           | [] => ["provided directory " +++ directory_name
                                    +++ " does not contain any valid XML files"]
                           | _ => []
                           end
                   /\ (List.length lines + List.length rs
                       = List.length (glob_docs env directory_name))%nat
                   /\ Forall (fun r => exists doc,
                                In doc (glob_docs env directory_name)
                                /\ valid_file env doc r) rs).
  { intros Hk Hs.
    rewrite (archive_unfold env directory_name false w He Hd Hk Hs).
    destruct (scan_loop_lenient env (glob_docs env directory_name)
                                (mkScan [] None []) w)
      as [w' [st' [lines [rs [Hf [Hout [Hr [Hlen Hall]]]]]]]].
    rewrite Hf. simpl in Hr. rewrite Hr.
    eexists. exists rs, lines. split; [reflexivity|].
    split; [|split; [exact Hlen | exact Hall]].
    destruct rs; simpl; rewrite Hout.
    - now rewrite <- app_assoc.
    - now rewrite app_nil_r. }
  split; [split|exact Hret].
  - intros [w' [rs H]].
    destruct (archive_some_inv _ _ _ _ _ _ H) as [_ [_ [Hk Hs]]]. now split.
  - intros [Hk Hs]. destruct (Hret Hk Hs) as [w' [rs [lines [H _]]]].
    now exists w', rs.
Qed.

Lemma X9_lenient_scan_skips_what_fails_witness :
  snd (validate_junit_xml_archive agreeing_env "broken" false (mkWorld [] []))
  = Ok (Some [])
  /\ exists w' rs lines,
      validate_junit_xml_archive agreeing_env "broken" false (mkWorld [] [])
      = (w', Ok (Some rs))
      /\ stdout w'
         = stdout (mkWorld [] []) ++ lines
           ++ match rs with
              | [] => ["provided directory " +++ "broken"
                       +++ " does not contain any valid XML files"]
              | _ => []
              end
      /\ (List.length lines + List.length rs
          = List.length (glob_docs agreeing_env "broken"))%nat
      /\ Forall (fun r => exists doc,
                   In doc (glob_docs agreeing_env "broken")
                   /\ valid_file agreeing_env doc r) rs.
Proof.
  split; [reflexivity|].
  apply (proj2 (X9_lenient_scan_skips_what_fails
                  agreeing_env "broken" (mkWorld [] []) eq_refl eq_refl));
    [reflexivity | vm_compute; discriminate].
Defined.

(** X10. When the strict scan returns, it returns the validated root of
    every report found, in the order of the scan, and has printed nothing
    but the remark on an empty directory. *)
Theorem X10_strict_scan_takes_every_document
        (env : Env) (directory_name : string) (w w' : World) (rs : list Element) :
  validate_junit_xml_archive env directory_name true w = (w', Ok (Some rs)) ->
  Forall2 (valid_file env) (glob_docs env directory_name) rs
  /\ stdout w'
     = stdout w
       ++ match rs with
          | [] => ["provided directory " +++ directory_name
                   +++ " does not contain any valid XML files"]
          | _ => []
          end.
Proof.
  intros H. destruct (archive_some_inv _ _ _ _ _ _ H) as [He [Hd [Hk Hs]]].
  rewrite (archive_unfold env directory_name true w He Hd Hk Hs) in H.
  destruct (io_fold (scan_step env true) (mkScan [] None [])
                    (glob_docs env directory_name) w) as [w1 [st|e]] eqn:E;
    [|discriminate].
  destruct (scan_loop_strict env _ _ _ _ _ E) as [rs' [Hr [Hall Hout]]].
  simpl in Hr. rewrite Hr in H. injection H as Hw Hrs. subst rs w'.
  split; [exact Hall|].
  destruct rs'; simpl; rewrite Hout; [reflexivity | now rewrite app_nil_r].
Qed.

Lemma X10_strict_scan_takes_every_document_witness :
  validate_junit_xml_archive agreeing_env "run" true (mkWorld [] [])
  = (mkWorld [] [FromFile "run/a_test.xml"; FromFile "run/b_test.xml"],
     Ok (Some [doc_ts0; doc_ts1]))
  /\ Forall2 (valid_file agreeing_env) (glob_docs agreeing_env "run")
             [doc_ts0; doc_ts1].
Proof.
  assert (H : validate_junit_xml_archive agreeing_env "run" true (mkWorld [] [])
              = (mkWorld [] [FromFile "run/a_test.xml"; FromFile "run/b_test.xml"],
                 Ok (Some [doc_ts0; doc_ts1]))) by (vm_compute; reflexivity).
  split; [exact H|].
  exact (proj1 (X10_strict_scan_takes_every_document agreeing_env "run" _ _ _ H)).
Defined.

(** X11. The roots an archive scan returns, in either mode, agree on the
    metadata that is compared: there is one mapping of the required keys
    other than the timestamp such that every returned root carries either
    none of these keys or exactly that mapping (no report being named by
    the empty string). *)
Theorem X11_scanned_roots_agree
        (env : Env) (directory_name : string) (strict : bool)
        (w w' : World) (rs : list Element) :
  validate_junit_xml_archive env directory_name strict w = (w', Ok (Some rs)) ->
  ~ In "" (glob_docs env directory_name) ->
  exists seed, Forall (agrees_with seed) rs.
Proof.
  intros H Hne. destruct (archive_some_inv _ _ _ _ _ _ H) as [He [Hd [Hk Hs]]].
  rewrite (archive_unfold env directory_name strict w He Hd Hk Hs) in H.
  destruct (io_fold (scan_step env strict) (mkScan [] None [])
                    (glob_docs env directory_name) w) as [w1 [st|e]] eqn:E;
    [|discriminate].
  assert (Hinit : scan_agrees (mkScan [] None [])) by constructor.
  pose proof (scan_loop_agrees env strict _ _ _ _ _ E Hne Hinit) as Hinv.
  inversion H; subst. unfold scan_agrees in Hinv.
  destruct (metadata_source st) as [s|].
  - exists (metadata st). apply Hinv.
  - exists []. eapply Forall_impl; [|exact Hinv]. intros r Hr. now left.
Qed.

Lemma X11_scanned_roots_agree_witness :
  ~ In "" (glob_docs agreeing_env "run")
  /\ exists seed, Forall (agrees_with seed) [doc_ts0; doc_ts1].
Proof.
  assert (Hne : ~ In "" (glob_docs agreeing_env "run")).
  { vm_compute. intuition discriminate. }
  split; [exact Hne|].
  apply (X11_scanned_roots_agree agreeing_env "run" true (mkWorld [] [])
           (mkWorld [] [FromFile "run/a_test.xml"; FromFile "run/b_test.xml"]));
    [vm_compute; reflexivity | exact Hne].
Defined.

(* ------------------------------------------------------------------ *)
(** ** Assignment in a dictionary, structurally *)

Section DictStructure.
Context {K V : Type} {eqb : K -> K -> bool}.
Hypothesis eqb_spec : forall a b : K, reflect (a = b) (eqb a b).
Implicit Types (d : dict K V) (k : K) (v : V).

(** Assigning to a key that is present replaces its entry where it is. *)
Lemma dict_set_present d k v v' :
  dict_get eqb k d = Some v ->
  exists d1 d2, d = d1 ++ (k, v) :: d2
                /\ dict_set eqb k v' d = d1 ++ (k, v') :: d2.
Proof.
  induction d as [|[k0 v0] d IH]; simpl; [discriminate|].
  destruct (eqb_spec k k0) as [->|Hne].
  - intros H. inversion H; subst. now exists [], d.
  - intros H. destruct (IH H) as [d1 [d2 [-> Hs]]].
    exists ((k0, v0) :: d1), d2. simpl. now rewrite Hs.
Qed.

(** Assigning to a key that is absent adds an entry at the end. *)
Lemma dict_set_absent d k v :
  dict_get eqb k d = None -> dict_set eqb k v d = d ++ [(k, v)].
Proof.
  induction d as [|[k0 v0] d IH]; simpl; [reflexivity|].
  destruct (eqb k k0); [discriminate|]. intros H. now rewrite IH.
Qed.

End DictStructure.

(* ------------------------------------------------------------------ *)
(** ** Grouping the cases by feature *)

Lemma all_cases_app (d1 d2 : cases_dict) :
  all_cases (d1 ++ d2) = all_cases d1 ++ all_cases d2.
Proof. unfold all_cases. apply flat_map_app. Qed.

(** Replacing the list of a feature: the cases are those of before, with
    the old list traded for the new one. *)
Lemma all_cases_set_present (d : cases_dict) (f : string) (old new : list TestCase) :
  dict_get String.eqb f d = Some old ->
  Permutation (old ++ all_cases (dict_set String.eqb f new d))
              (new ++ all_cases d).
Proof.
  intros H.
  destruct (dict_set_present String.eqb_spec d f old new H) as [d1 [d2 [-> ->]]].
  unfold all_cases. rewrite !flat_map_app. simpl flat_map.
  etransitivity; [apply Permutation_app_swap_app|].
  etransitivity; [|apply Permutation_app_swap_app].
  apply Permutation_app_head. apply Permutation_app_swap_app.
Qed.

Lemma all_cases_set_absent (d : cases_dict) (f : string) (new : list TestCase) :
  dict_get String.eqb f d = None ->
  all_cases (dict_set String.eqb f new d) = all_cases d ++ new.
Proof.
  intros H. rewrite (dict_set_absent d f new H), all_cases_app.
  unfold all_cases at 2. simpl. now rewrite app_nil_r.
Qed.

Lemma all_cases_append_case (d : cases_dict) (f : string) (c : TestCase) :
  Permutation (all_cases (append_case f c d)) (all_cases d ++ [c]).
Proof.
  unfold append_case. destruct (dict_get String.eqb f d) as [old|] eqn:E.
  - apply (Permutation_app_inv_l old).
    rewrite (all_cases_set_present d f old (old ++ [c]) E).
    rewrite <- app_assoc. apply Permutation_app_head, Permutation_app_comm.
  - now rewrite (all_cases_set_absent d f [c] E).
Qed.

Lemma group_app (f : string) (p1 p2 : list (string * TestCase)) :
  group f (p1 ++ p2) = group f p1 ++ group f p2.
Proof. unfold group. now rewrite filter_app, map_app. Qed.

Lemma dict_get_append_case (d : cases_dict) (f f' : string) (c : TestCase) :
  dict_get String.eqb f' (append_case f c d)
  = if String.eqb f' f
    then Some (match dict_get String.eqb f d with Some l => l | None => [] end ++ [c])
    else dict_get String.eqb f' d.
Proof.
  unfold append_case.
  destruct (String.eqb_spec f' f) as [->|Hne].
  - destruct (dict_get String.eqb f d);
      now rewrite (dict_get_set_same String.eqb_spec).
  - destruct (dict_get String.eqb f d);
      now rewrite (dict_get_set_other String.eqb_spec).
Qed.

(** The loop of [_parse_test_cases], from a mapping that groups [done]. *)
Lemma parse_loop_groups (nodes : list Element) :
  forall (acc : cases_dict) (done pairs : list (string * TestCase)),
  parse_all nodes = Ok pairs ->
  NoDup (map fst acc) ->
  (forall f, dict_get String.eqb f acc
             = match group f done with [] => None | l => Some l end) ->
  Permutation (all_cases acc) (map snd done) ->
  exists d,
    foldM (fun test_case_results test_case =>
             let* (feature, result) := _parse_test_case test_case in
             Ok (append_case feature result test_case_results)) acc nodes = Ok d
    /\ NoDup (map fst d)
    /\ (forall f, dict_get String.eqb f d
                  = match group f (done ++ pairs) with [] => None | l => Some l end)
    /\ Permutation (all_cases d) (map snd (done ++ pairs)).
Proof.
  induction nodes as [|tc nodes IH]; intros acc done pairs Hp Hnd Hg Hperm.
  - simpl in Hp. inversion Hp; subst. exists acc. rewrite app_nil_r. auto.
  - simpl in Hp. destruct (_parse_test_case tc) as [[f c]|e] eqn:E; [|discriminate].
    simpl in Hp. destruct (parse_all nodes) as [ps|e] eqn:Eps; [|discriminate].
    simpl in Hp. inversion Hp; subst pairs. simpl foldM. rewrite E. simpl bind.
    destruct (IH (append_case f c acc) (done ++ [(f, c)]) ps eq_refl)
      as [d [Hd [Hnd' [Hg' Hperm']]]].
    + unfold append_case. destruct (dict_get String.eqb f acc);
        now apply (dict_set_NoDup String.eqb_spec).
    + intros f'. rewrite dict_get_append_case, group_app.
      unfold group at 2. simpl filter. rewrite (String.eqb_sym f f').
      destruct (String.eqb_spec f' f) as [->|Hne].
      * rewrite Hg. simpl map.
        destruct (group f done) as [|x l]; reflexivity.
      * simpl map. rewrite app_nil_r. apply Hg.
    + rewrite all_cases_append_case, map_app. simpl.
      now apply Permutation_app_tail.
    + exists d. rewrite <- app_assoc in Hg', Hperm'. auto.
Qed.

(** A successful [_parse_test_cases] has parsed every node. *)
Lemma parse_loop_inv (nodes : list Element) : forall (acc d : cases_dict),
  foldM (fun test_case_results test_case =>
           let* (feature, result) := _parse_test_case test_case in
           Ok (append_case feature result test_case_results)) acc nodes = Ok d ->
  exists pairs, parse_all nodes = Ok pairs.
Proof.
  induction nodes as [|tc nodes IH]; intros acc d H.
  - now exists [].
  - simpl in H. destruct (_parse_test_case tc) as [[f c]|e] eqn:E; [|discriminate].
    simpl in H. destruct (IH _ _ H) as [ps Hps].
    exists ((f, c) :: ps). simpl. now rewrite E, Hps.
Qed.

Lemma parse_test_cases_groups (root : Element) (pairs : list (string * TestCase)) :
  parse_all (findall "testcase" root) = Ok pairs ->
  exists d,
    _parse_test_cases root = Ok d
    /\ NoDup (map fst d)
    /\ (forall f, dict_get String.eqb f d
                  = match group f pairs with [] => None | l => Some l end)
    /\ Permutation (all_cases d) (map snd pairs).
Proof.
  intros H. unfold _parse_test_cases.
  apply (parse_loop_groups _ [] [] pairs H); auto; constructor.
Qed.

(** X12. When every [testcase] child of the root parses, [_parse_test_cases]
    returns a mapping that holds each feature once; under a feature it
    lists exactly the cases of that feature, in document order, and a
    feature without case is absent; no case is lost or repeated. *)
Theorem X12_cases_grouped_by_feature (root : Element)
        (pairs : list (string * TestCase)) :
  parse_all (findall "testcase" root) = Ok pairs ->
  exists d,
    _parse_test_cases root = Ok d
    /\ NoDup (map fst d)
    /\ (forall f, dict_get String.eqb f d
                  = match group f pairs with [] => None | l => Some l end)
    /\ Permutation (all_cases d) (map snd pairs).
Proof. apply parse_test_cases_groups. Qed.

Lemma X12_cases_grouped_by_feature_witness :
  exists pairs d,
    parse_all (findall "testcase" mixed_suite) = Ok pairs
    /\ _parse_test_cases mixed_suite = Ok d
    /\ map (fun kv => (fst kv, List.length (snd kv))) d = [("bgp", 2%nat); ("acl", 2%nat)]
    /\ (forall f, dict_get String.eqb f d
                  = match group f pairs with [] => None | l => Some l end).
Proof.
  eexists. 
  destruct (X12_cases_grouped_by_feature mixed_suite _ eq_refl)
    as [d [Hd [_ [Hg _]]]].
  exists d. split; [reflexivity|]. split; [exact Hd|]. split; [|exact Hg].
  vm_compute in Hd. inversion Hd. reflexivity.
Defined.

(* ------------------------------------------------------------------ *)
(** ** A validated document parses *)

Lemma parse_all_validated (nodes : list Element) :
  Forall (fun tc => _validate_test_case tc = Ok tt) nodes ->
  exists pairs, parse_all nodes = Ok pairs
                /\ List.length pairs = List.length nodes.
Proof.
  induction 1 as [|tc nodes Hv _ [ps [Hps Hlen]]].
  - now exists [].
  - destruct (validated_has_classname tc Hv) as [cn Hcn].
    destruct (parse_test_case_label tc cn Hcn) as [r [Hp _]].
    eexists. simpl. rewrite Hp, Hps. simpl. split; [reflexivity|].
    simpl. now rewrite Hlen.
Qed.

(** X13. The cases of a document that passed validation always parse:
    [_parse_test_cases] returns a mapping, and the mapping holds as many
    cases as the root has [testcase] children. *)
Theorem X13_validated_document_parses (root : Element) :
  _validate_junit_xml root = Ok root ->
  exists d,
    _parse_test_cases root = Ok d
    /\ List.length (all_cases d) = List.length (findall TESTCASE_TAG root).
Proof.
  intros Hv. unfold _validate_junit_xml in Hv.
  destruct (_validate_test_summary root); simpl in Hv; [|discriminate].
  destruct (_validate_test_metadata root); simpl in Hv; [|discriminate].
  destruct (_validate_test_cases root) as [[]|e] eqn:Hc; simpl in Hv; [|discriminate].
  unfold _validate_test_cases in Hc.
  apply (foldM_unit_forall _validate_test_case) in Hc.
  destruct (parse_all_validated _ Hc) as [pairs [Hp Hlen]].
  destruct (parse_test_cases_groups root pairs Hp) as [d [Hd [_ [_ Hperm]]]].
  exists d. split; [exact Hd|].
  rewrite (Permutation_length Hperm), length_map. exact Hlen.
Qed.

Lemma X13_validated_document_parses_witness :
  _validate_junit_xml doc_lab1 = Ok doc_lab1
  /\ exists d,
      _parse_test_cases doc_lab1 = Ok d
      /\ List.length (all_cases d) = List.length (findall TESTCASE_TAG doc_lab1).
Proof.
  assert (H : _validate_junit_xml doc_lab1 = Ok doc_lab1) by (vm_compute; reflexivity).
  split; [exact H|]. exact (X13_validated_document_parses doc_lab1 H).
Defined.

(* ------------------------------------------------------------------ *)
(** ** The fields of a parsed case *)

Lemma length_str_of_chars (l : list ascii) :
  String.length (str_of_chars l) = List.length l.
Proof. induction l; simpl; auto. Qed.

Lemma length_chars (s : string) : List.length (chars s) = String.length s.
Proof. induction s; simpl; auto. Qed.

Lemma str_of_chars_app (l1 l2 : list ascii) :
  str_of_chars (l1 ++ l2) = str_of_chars l1 +++ str_of_chars l2.
Proof. induction l1; simpl; [reflexivity | now f_equal]. Qed.

(** Truncation keeps the first [MAXIMUM_SUMMARY_SIZE] characters. *)
Lemma truncate_summary_spec (s : string) :
  String.length (truncate_summary s)
  = Nat.min (String.length s) MAXIMUM_SUMMARY_SIZE
  /\ exists rest, s = truncate_summary s +++ rest.
Proof.
  unfold truncate_summary. split.
  - rewrite length_str_of_chars, length_firstn, length_chars. lia.
  - exists (str_of_chars (skipn (Nat.min (String.length s) MAXIMUM_SUMMARY_SIZE)
                               (chars s))).
    now rewrite <- str_of_chars_app, firstn_skipn, str_of_chars_chars.
Qed.

(** X14. The summary of a parsed case is the [message] of the first child
    tagged with the label that won (the empty text when that child has no
    message, or when the case succeeded), cut after 1024 characters: it is
    a prefix of that message and never longer than 1024. *)
Theorem X14_case_summary_bounded (tc : Element) (feature : string) (c : TestCase) :
  _parse_test_case tc = Ok (feature, c) ->
  exists message,
    (if String.eqb (outcome_label tc) "success" then message = ""
     else exists m, find (outcome_label tc) tc = Some m
                    /\ message = get_default m "message" "")
    /\ case_summary c = truncate_summary message
    /\ String.length (case_summary c)
       = Nat.min (String.length message) MAXIMUM_SUMMARY_SIZE
    /\ exists rest, message = case_summary c +++ rest.
Proof.
  unfold _parse_test_case.
  destruct (get tc "classname") as [cn|]; [|discriminate].
  unfold outcome_label.
  rewrite <- (find_is_some "failure"), <- (find_is_some "skipped"),
          <- (find_is_some "error").
  destruct (find "failure" tc) as [f|] eqn:Ef.
  { intros H; inversion H; subst; cbn [case_summary].
    exists (get_default f "message" ""). split.
    - simpl. exists f. now rewrite Ef.
    - split; [reflexivity|]. apply truncate_summary_spec. }
  destruct (find "skipped" tc) as [s|] eqn:Es.
  { intros H; inversion H; subst; cbn [case_summary].
    exists (get_default s "message" ""). split.
    - simpl. exists s. now rewrite Es.
    - split; [reflexivity|]. apply truncate_summary_spec. }
  destruct (find "error" tc) as [e|] eqn:Ee.
  { intros H; inversion H; subst; cbn [case_summary].
    exists (get_default e "message" ""). split.
    - simpl. exists e. now rewrite Ee.
    - split; [reflexivity|]. apply truncate_summary_spec. }
  intros H; inversion H; subst; cbn [case_summary].
  exists "". split; [reflexivity|].
  split; [reflexivity|]. apply truncate_summary_spec.
Qed.

Lemma X14_case_summary_bounded_witness :
  exists feature c,
    _parse_test_case failure_error_case = Ok (feature, c)
    /\ case_summary c = "assert 1 == 2"
    /\ (String.length (case_summary c) <= MAXIMUM_SUMMARY_SIZE)%nat.
Proof.
  eexists. eexists. split; [reflexivity|]. split; [reflexivity|].
  destruct (X14_case_summary_bounded failure_error_case _ _ eq_refl)
    as [message [_ [_ [Hlen _]]]].
  rewrite Hlen. apply Nat.le_min_r.
Defined.

Lemma first_token_spec (l : list ascii) :
  ~ In "."%char (first_token l)
  /\ exists rest, l = first_token l ++ rest
                  /\ (rest = [] \/ exists r, rest = "."%char :: r).
Proof.
  induction l as [|c l [IH1 [rest [IH2 IH3]]]]; simpl.
  - split; [tauto|]. exists []. auto.
  - destruct (Ascii.eqb_spec c ".") as [->|Hne].
    + split; [simpl; tauto|]. exists ("."%char :: l). split; [reflexivity|].
      right. now exists l.
    + split.
      * simpl. intros [H|H]; [congruence | contradiction].
      * exists rest. split; [simpl; now rewrite <- IH2 | exact IH3].
Qed.

(** X15. The feature under which a case is filed is its class name up to
    the first dot: it holds no dot, and the class name is the feature
    followed by nothing or by a dot and more. *)
Theorem X15_feature_is_leading_component (tc : Element) (feature : string)
        (c : TestCase) :
  _parse_test_case tc = Ok (feature, c) ->
  exists classname,
    get tc "classname" = Some classname
    /\ case_classname c = Some classname
    /\ ~ In "."%char (chars feature)
    /\ exists rest, classname = feature +++ rest
                    /\ (rest = "" \/ exists r, rest = String "." r).
Proof.
  intros H. destruct (get tc "classname") as [cn|] eqn:Hcn.
  - destruct (parse_test_case_label tc cn Hcn) as [r [Hp _]].
    rewrite Hp in H. inversion H; subst. exists cn.
    split; [reflexivity|]. split.
    + unfold _parse_test_case in Hp. rewrite Hcn in Hp.
      destruct (find "failure" tc), (find "skipped" tc), (find "error" tc);
        inversion Hp; reflexivity.
    + destruct (first_token_spec (chars cn)) as [Hdot [rest [Hsplit Hrest]]].
      split.
      * unfold chars, str_of_chars. now rewrite list_ascii_of_string_of_list_ascii.
      * exists (str_of_chars rest). split.
        -- rewrite <- str_of_chars_app, <- Hsplit. symmetry. apply str_of_chars_chars.
        -- destruct Hrest as [->|[r0 ->]]; [now left|]. right.
           now exists (str_of_chars r0).
  - unfold _parse_test_case in H. rewrite Hcn in H. discriminate.
Qed.

Lemma X15_feature_is_leading_component_witness :
  exists feature c,
    _parse_test_case xfail_skipped_case = Ok (feature, c)
    /\ feature = "acl"
    /\ ~ In "."%char (chars feature).
Proof.
  eexists. eexists. split; [reflexivity|]. split; [reflexivity|].
  destruct (X15_feature_is_leading_component xfail_skipped_case _ _ eq_refl)
    as [cn [_ [_ [Hdot _]]]].
  exact Hdot.
Defined.

(* ------------------------------------------------------------------ *)
(** ** The summary of a document, read off its nodes *)

Lemma parse_test_case_node (tc : Element) (f : string) (c : TestCase) :
  _parse_test_case tc = Ok (f, c) ->
  failure_or_error c = node_failed tc
  /\ labelled "skipped" c = node_skipped tc
  /\ case_error c = has_marker "error" tc
  /\ xfail_labelled c = xfail_marker tc
  /\ case_time c = get tc "time".
Proof.
  intros H. destruct (get tc "classname") as [cn|] eqn:Hcn.
  - destruct (parse_test_case_label tc cn Hcn) as [r [Hp [Hres Herr]]].
    rewrite Hp in H. inversion H; subst r f. clear H.
    assert (Htime : case_time c = get tc "time").
    { unfold _parse_test_case in Hp. rewrite Hcn in Hp.
      destruct (find "failure" tc), (find "skipped" tc), (find "error" tc);
        inversion Hp; reflexivity. }
    unfold failure_or_error, xfail_labelled, labelled, node_failed, node_skipped.
    rewrite Hres. unfold outcome_label.
    destruct (xfail_marker tc), (has_marker "failure" tc),
      (has_marker "skipped" tc), (has_marker "error" tc) eqn:He;
      repeat split; try reflexivity; try exact Herr; exact Htime.
  - unfold _parse_test_case in H. rewrite Hcn in H. discriminate.
Qed.

Lemma parse_all_nodes (nodes : list Element) : forall pairs,
  parse_all nodes = Ok pairs ->
  Forall2 (fun tc p => _parse_test_case tc = Ok p) nodes pairs.
Proof.
  induction nodes as [|tc nodes IH]; simpl; intros pairs H.
  - inversion H. constructor.
  - destruct (_parse_test_case tc) as [p|] eqn:Hp; simpl in H; [|discriminate].
    destruct (parse_all nodes) as [ps|]; simpl in H; [|discriminate].
    inversion H. constructor; auto.
Qed.

Lemma count_if_perm (p : TestCase -> bool) (l l' : list TestCase) :
  Permutation l l' -> count_if p l = count_if p l'.
Proof.
  intros H. unfold count_if. f_equal. apply Permutation_length.
  induction H; simpl.
  - constructor.
  - destruct (p x); [constructor|]; assumption.
  - destruct (p x), (p y); try apply perm_swap; apply Permutation_refl.
  - etransitivity; eassumption.
Qed.

Lemma count_pairs (p : TestCase -> bool) (q : Element -> bool)
      (nodes : list Element) (pairs : list (string * TestCase)) :
  Forall2 (fun tc pr => _parse_test_case tc = Ok pr) nodes pairs ->
  (forall tc f c, _parse_test_case tc = Ok (f, c) -> p c = q tc) ->
  count_if p (map snd pairs) = count_nodes q nodes.
Proof.
  intros H Hpq. unfold count_if, count_nodes. f_equal.
  induction H as [|tc [f c] nodes pairs Hp _ IH]; simpl; [reflexivity|].
  rewrite (Hpq tc f c Hp). destruct (q tc); simpl; now rewrite IH.
Qed.

Lemma time_parses_pairs (nodes : list Element) (pairs : list (string * TestCase)) :
  Forall2 (fun tc pr => _parse_test_case tc = Ok pr) nodes pairs ->
  (Forall time_parses (map snd pairs) <-> forallb node_time_reads nodes = true).
Proof.
  induction 1 as [|tc [f c] nodes pairs Hp _ IH]; simpl.
  - split; [reflexivity | constructor].
  - destruct (parse_test_case_node tc f c Hp) as [_ [_ [_ [_ Ht]]]].
    unfold node_time_reads at 1. rewrite <- Ht. split.
    + intros Hall. inversion Hall as [|? ? [t Hc] Hrest]; subst.
      rewrite Hc. simpl. now apply IH.
    + intros Hb. apply andb_true_iff in Hb as [Hc Hrest]. constructor.
      * unfold time_parses. destruct (float_of_field (case_time c)) as [t|];
          [now exists t | discriminate].
      * now apply IH.
Qed.

Lemma Forall_perm_cases (P : TestCase -> Prop) (l l' : list TestCase) :
  Permutation l l' -> Forall P l -> Forall P l'.
Proof.
  intros Hp Hl. apply Forall_forall. intros x Hx.
  rewrite Forall_forall in Hl. apply Hl.
  apply Permutation_in with (l := l'); [now apply Permutation_sym | exact Hx].
Qed.

(** What [_parse_test_cases] returned holds the nodes' cases. *)
Lemma parse_test_cases_nodes (root : Element) (d : cases_dict) :
  _parse_test_cases root = Ok d ->
  exists pairs,
    Forall2 (fun tc pr => _parse_test_case tc = Ok pr)
            (findall "testcase" root) pairs
    /\ Permutation (all_cases d) (map snd pairs).
Proof.
  intros Hd. destruct (parse_loop_inv _ _ _ Hd) as [pairs Hp].
  destruct (parse_test_cases_groups root pairs Hp) as [d' [Hd' [_ [_ Hperm]]]].
  rewrite Hd in Hd'. inversion Hd'; subst d'.
  exists pairs. split; [now apply parse_all_nodes | exact Hperm].
Qed.

(** X16. The counters extracted from the parsed cases of a document with
    at least one test case are counts of its [testcase] nodes: [tests] is
    their number, [errors] the number with an [error] child, [xfails] the
    number carrying an xfail marker, and [failures] and [skipped] count the
    nodes without xfail marker whose label is failure or error, respectively
    skipped. *)
Theorem X16_document_counters (root : Element) (d : cases_dict) (s : summary_dict) :
  _parse_test_cases root = Ok d ->
  _extract_test_summary d = Ok s ->
  findall "testcase" root <> [] ->
  dict_get String.eqb "tests" s
  = Some (str_int (Z.of_nat (List.length (findall "testcase" root))))
  /\ dict_get String.eqb "failures" s
     = Some (str_int (count_nodes node_failed (findall "testcase" root)))
  /\ dict_get String.eqb "skipped" s
     = Some (str_int (count_nodes node_skipped (findall "testcase" root)))
  /\ dict_get String.eqb "errors" s
     = Some (str_int (count_nodes (has_marker "error") (findall "testcase" root)))
  /\ dict_get String.eqb "xfails" s
     = Some (str_int (count_nodes xfail_marker (findall "testcase" root))).
Proof.
  intros Hd Hs Hne.
  destruct (parse_test_cases_nodes root d Hd) as [pairs [Hall Hperm]].
  pose proof (extract_ok_times d s Hs) as Htimes.
  rewrite (extract_test_summary_counts d Htimes) in Hs.
  assert (Hlen : List.length (all_cases d) = List.length (findall "testcase" root)).
  { rewrite (Permutation_length Hperm), length_map.
    symmetry. eapply Forall2_length; eassumption. }
  assert (Hc : forall p q,
             (forall tc f c, _parse_test_case tc = Ok (f, c) -> p c = q tc) ->
             count_if p (all_cases d) = count_nodes q (findall "testcase" root)).
  { intros p q Hpq. rewrite (count_if_perm p _ _ Hperm).
    now apply count_pairs. }
  rewrite <- Hlen.
  rewrite <- (Hc failure_or_error node_failed),
          <- (Hc (labelled "skipped") node_skipped),
          <- (Hc case_error (has_marker "error")),
          <- (Hc xfail_labelled xfail_marker);
    try (intros tc f c Hp; apply (parse_test_case_node tc f c Hp)).
  destruct (all_cases d) as [|c0 l0] eqn:Hcases.
  - destruct (findall "testcase" root); [contradiction | discriminate].
  - inversion Hs; subst s. repeat split; reflexivity.
Qed.

Lemma X16_document_counters_witness :
  exists d s,
    _parse_test_cases mixed_suite = Ok d
    /\ _extract_test_summary d = Ok s
    /\ dict_get String.eqb "tests" s = Some "4"
    /\ dict_get String.eqb "failures" s = Some "2"
    /\ dict_get String.eqb "skipped" s = Some "0"
    /\ dict_get String.eqb "errors" s = Some "1"
    /\ dict_get String.eqb "xfails" s = Some "1".
Proof.
  eexists. eexists.
  assert (Hd : _parse_test_cases mixed_suite
               = Ok (match _parse_test_cases mixed_suite with
                     | Ok d => d | Raise _ => [] end)) by (vm_compute; reflexivity).
  assert (Hs : _extract_test_summary
                 (match _parse_test_cases mixed_suite with
                  | Ok d => d | Raise _ => [] end)
               = Ok (match _extract_test_summary (cases_of mixed_suite) with
                     | Ok s => s | Raise _ => [] end)) by (vm_compute; reflexivity).
  split; [exact Hd|]. split; [exact Hs|].
  assert (Hne : findall "testcase" mixed_suite <> []) by (vm_compute; discriminate).
  destruct (X16_document_counters mixed_suite _ _ Hd Hs Hne)
    as [H1 [H2 [H3 [H4 H5]]]].
  rewrite H1, H2, H3, H4, H5. repeat split; vm_compute; reflexivity.
Defined.

(** X17. Once the cases of a document are parsed, extracting its summary
    succeeds exactly when the [time] attribute of every [testcase] node is
    present and reads as a float; for a document without test cases the
    summary is the empty mapping. *)
Theorem X17_extraction_needs_readable_times (root : Element) (d : cases_dict) :
  _parse_test_cases root = Ok d ->
  ((exists s, _extract_test_summary d = Ok s)
   <-> forallb node_time_reads (findall "testcase" root) = true)
  /\ (findall "testcase" root = [] -> _extract_test_summary d = Ok []).
Proof.
  intros Hd.
  destruct (parse_test_cases_nodes root d Hd) as [pairs [Hall Hperm]].
  pose proof (time_parses_pairs _ _ Hall) as Hiff.
  split; [split|].
  - intros [s Hs]. apply Hiff.
    apply (Forall_perm_cases _ _ _ Hperm). exact (extract_ok_times d s Hs).
  - intros Hb. apply Hiff in Hb.
    apply (Forall_perm_cases _ _ _ (Permutation_sym Hperm)) in Hb.
    rewrite (extract_test_summary_counts d Hb). eexists. reflexivity.
  - intros Hnil. rewrite Hnil in Hall. inversion Hall; subst pairs.
    apply Permutation_sym, Permutation_nil in Hperm.
    assert (Ht : Forall time_parses (all_cases d)) by (rewrite Hperm; constructor).
    rewrite (extract_test_summary_counts d Ht), Hperm. reflexivity.
Qed.

Lemma X17_extraction_needs_readable_times_witness :
  exists d,
    _parse_test_cases (suite_of [timed_case "soon"]) = Ok d
    /\ forallb node_time_reads (findall "testcase" (suite_of [timed_case "soon"]))
       = false
    /\ ~ exists s, _extract_test_summary d = Ok s.
Proof.
  eexists.
  assert (Hd : _parse_test_cases (suite_of [timed_case "soon"])
               = Ok (cases_of (suite_of [timed_case "soon"])))
    by (vm_compute; reflexivity).
  split; [exact Hd|]. split; [vm_compute; reflexivity|].
  intros Hs.
  apply (proj1 (proj1 (X17_extraction_needs_readable_times _ _ Hd))) in Hs.
  vm_compute in Hs. discriminate.
Defined.

(* ------------------------------------------------------------------ *)
(** ** Merging the cases of two documents *)

Lemma update_loop_cases : forall (update acc : cases_dict),
  Permutation
    (all_cases
       (fold_left (fun new_cases '(g, cases) =>
                     let updated_cases :=
                       match dict_get String.eqb g new_cases with
                       | Some existing => cases ++ existing
                       | None => cases
                       end in
                     dict_set String.eqb g updated_cases new_cases)
                  update acc))
    (all_cases acc ++ all_cases update).
Proof.
  induction update as [|[g cases] update IH]; intros acc; simpl.
  - now rewrite app_nil_r.
  - etransitivity; [apply IH|]. unfold all_cases at 3. simpl flat_map.
    fold (all_cases update). rewrite app_assoc.
    apply Permutation_app_tail.
    destruct (dict_get String.eqb g acc) as [existing|] eqn:Hg.
    + apply Permutation_app_inv_l with (l := existing).
      etransitivity; [apply (all_cases_set_present acc g existing _ Hg)|].
      rewrite <- app_assoc.
      etransitivity; [apply Permutation_app_comm|].
      rewrite <- app_assoc. apply Permutation_refl.
    + now rewrite (all_cases_set_absent acc g cases Hg).
Qed.

Lemma update_loop_keys : forall (update acc : cases_dict),
  (NoDup (map fst acc) ->
   NoDup (map fst
     (fold_left (fun new_cases '(g, cases) =>
                   let updated_cases :=
                     match dict_get String.eqb g new_cases with
                     | Some existing => cases ++ existing
                     | None => cases
                     end in
                   dict_set String.eqb g updated_cases new_cases)
                update acc)))
  /\ forall f,
       In f (map fst
         (fold_left (fun new_cases '(g, cases) =>
                       let updated_cases :=
                         match dict_get String.eqb g new_cases with
                         | Some existing => cases ++ existing
                         | None => cases
                         end in
                       dict_set String.eqb g updated_cases new_cases)
                    update acc))
       <-> In f (map fst acc) \/ In f (map fst update).
Proof.
  induction update as [|[g cases] update IH]; intros acc; simpl.
  - split; [auto|]. intros f. tauto.
  - destruct (IH (dict_set String.eqb g
                    match dict_get String.eqb g acc with
                    | Some existing => cases ++ existing
                    | None => cases
                    end acc)) as [IH1 IH2].
    split.
    + intros Hnd. apply IH1. now apply (dict_set_NoDup String.eqb_spec).
    + intros f. rewrite IH2, dict_set_keys.
      destruct (dict_mem String.eqb g acc) eqn:Hm.
      * assert (Hin : In g (map fst acc)).
        { unfold dict_mem in Hm.
          destruct (dict_get String.eqb g acc) as [v|] eqn:Hg; [|discriminate].
          apply (dict_get_In String.eqb_spec) in Hg.
          change g with (fst (g, v)). now apply in_map. }
        split; [tauto|]. intros [H|[H|H]]; auto. subst f. auto.
      * rewrite in_app_iff. simpl. tauto.
Qed.

(** X18. Merging the cases of a document into the aggregate loses and
    repeats nothing: the merged mapping holds the cases of both, its
    features are those of either, and each feature still occurs once. *)
Theorem X18_merge_keeps_every_case (current update : cases_dict) :
  Permutation (all_cases (_update_test_cases current update))
              (all_cases current ++ all_cases update)
  /\ (forall f, In f (map fst (_update_test_cases current update))
                <-> In f (map fst current) \/ In f (map fst update))
  /\ (NoDup (map fst current) -> NoDup (map fst update) ->
      NoDup (map fst (_update_test_cases current update))).
Proof.
  unfold _update_test_cases. destruct current as [|kv current].
  - simpl. split; [apply Permutation_refl|]. split; [intros f; tauto | auto].
  - split; [apply update_loop_cases|]. split.
    + apply update_loop_keys.
    + intros Hc _. now apply update_loop_keys.
Qed.

Lemma X18_merge_keeps_every_case_witness :
  NoDup (map fst (cases_of mixed_suite))
  /\ NoDup (map fst (cases_of (suite_of [failed_case "1.5"])))
  /\ NoDup (map fst (_update_test_cases (cases_of mixed_suite)
                                        (cases_of (suite_of [failed_case "1.5"]))))
  /\ List.length (all_cases (_update_test_cases
                               (cases_of mixed_suite)
                               (cases_of (suite_of [failed_case "1.5"]))))
     = 5%nat.
Proof.
  assert (H1 : NoDup (map fst (cases_of mixed_suite))).
  { vm_compute. repeat (constructor; [simpl; intuition discriminate|]). constructor. }
  assert (H2 : NoDup (map fst (cases_of (suite_of [failed_case "1.5"])))).
  { vm_compute. repeat (constructor; [simpl; intuition discriminate|]). constructor. }
  destruct (X18_merge_keeps_every_case (cases_of mixed_suite)
                                       (cases_of (suite_of [failed_case "1.5"])))
    as [Hperm [_ Hnd]].
  split; [exact H1|]. split; [exact H2|]. split; [exact (Hnd H1 H2)|].
  rewrite (Permutation_length Hperm). reflexivity.
Defined.

(* ------------------------------------------------------------------ *)
(** ** The aggregate report is consistent *)

Lemma update_test_cases_perm (current update : cases_dict) :
  Permutation (all_cases (_update_test_cases current update))
              (all_cases current ++ all_cases update).
Proof.
  unfold _update_test_cases. destruct current as [|kv current].
  - apply Permutation_refl.
  - apply update_loop_cases.
Qed.

Lemma fold_root_cases (l : list Element) : forall (acc r : TestResult),
  foldM fold_root acc l = Ok r ->
  Permutation (all_cases (test_cases r))
              (all_cases (test_cases acc) ++ flat_map all_cases (map cases_of l)).
Proof.
  induction l as [|root l IH]; intros acc r H.
  - simpl in H. inversion H. simpl. rewrite app_nil_r. apply Permutation_refl.
  - simpl in H. destruct (fold_root acc root) as [acc1|e] eqn:E1; [|discriminate].
    simpl in H. etransitivity; [exact (IH _ _ H)|].
    simpl. rewrite app_assoc. apply Permutation_app_tail.
    unfold fold_root in E1. unfold cases_of.
    destruct (_update_test_metadata (test_metadata acc) (_parse_test_metadata root));
      [|discriminate].
    simpl in E1. destruct (_parse_test_cases root) as [cases|]; [|discriminate].
    simpl in E1. destruct (_extract_test_summary cases) as [u|]; [|discriminate].
    simpl in E1.
    destruct (_update_test_summary (test_summary acc) u) as [sm|]; [|discriminate].
    simpl in E1. inversion E1; subst acc1. simpl.
    apply update_test_cases_perm.
Qed.

Lemma count_if_app (p : TestCase -> bool) (l l' : list TestCase) :
  count_if p (l ++ l') = (count_if p l + count_if p l')%Z.
Proof. unfold count_if. rewrite filter_app, length_app. lia. Qed.

Lemma field_count_app (attribute : string) (l l' : list TestCase) :
  field_count attribute (l ++ l')
  = (field_count attribute l + field_count attribute l')%Z.
Proof.
  unfold field_count.
  repeat match goal with
         | |- context [if ?x then _ else _] => destruct x
         end; rewrite ?count_if_app, ?length_app; lia.
Qed.

Lemma field_count_perm (attribute : string) (l l' : list TestCase) :
  Permutation l l' -> field_count attribute l = field_count attribute l'.
Proof.
  intros H. unfold field_count.
  rewrite (Permutation_length H), !(count_if_perm _ _ _ H). reflexivity.
Qed.

Lemma total_count_flat (attribute : string) (docs : list cases_dict) :
  total_count attribute docs = field_count attribute (flat_map all_cases docs).
Proof.
  induction docs as [|d docs IH]; simpl.
  - unfold field_count, count_if. simpl.
    repeat match goal with
           | |- context [if ?x then _ else _] => destruct x
           end; reflexivity.
  - now rewrite field_count_app, IH.
Qed.

Lemma no_cases_flat (docs : list cases_dict) :
  no_cases docs = true <-> flat_map all_cases docs = [].
Proof.
  induction docs as [|d docs IH]; simpl; [tauto|].
  destruct (all_cases d) as [|c l]; simpl.
  - exact IH.
  - split; discriminate.
Qed.

(** X19. In the report [parse_test_result] returns, the summary agrees with
    the cases: a report without cases has an empty summary, and otherwise
    each integer counter ([tests], [failures], [skipped], [errors],
    [xfails]) is the count over all cases the report lists, which are the
    cases of the documents together. *)
Theorem X19_report_counters_match_cases
        (roots : list Element) (r : TestResult) (w : World) :
  snd (parse_test_result (Some roots) w) = Ok (Some r) ->
  Permutation (all_cases (test_cases r)) (flat_map all_cases (map cases_of roots))
  /\ (all_cases (test_cases r) = [] -> test_summary r = [])
  /\ (all_cases (test_cases r) <> [] ->
      forall attribute, In (attribute, TInt) summary_fields ->
        dict_get String.eqb attribute (test_summary r)
        = Some (str_int (field_count attribute (all_cases (test_cases r))))).
Proof.
  intros H. destruct roots as [|x l]; [discriminate|].
  unfold parse_test_result, io_bind, lift in H.
  destruct (foldM fold_root (mkTestResult [] [] []) (x :: l)) as [r1|e] eqn:E;
    [|discriminate].
  simpl in H. inversion H; subst r1. clear H.
  pose proof (fold_root_cases _ _ _ E) as Hperm. simpl app in Hperm.
  pose proof (fold_summary_from_empty _ _ (fold_root_summary _ _ _ E)) as Hs.
  split; [exact Hperm|].
  destruct (no_cases (map cases_of (x :: l))) eqn:Hn.
  - split; [auto|]. intros Hne. exfalso. apply Hne.
    apply no_cases_flat in Hn. rewrite Hn in Hperm.
    now apply Permutation_nil, Permutation_sym.
  - split.
    + intros Hnil. rewrite Hnil in Hperm. apply Permutation_nil in Hperm.
      apply no_cases_flat in Hperm. congruence.
    + intros _ attribute Hin. rewrite (Hs attribute Hin), total_count_flat.
      now rewrite (field_count_perm attribute _ _ Hperm).
Qed.

Lemma X19_report_counters_match_cases_witness :
  exists r,
    snd (parse_test_result (Some [doc_A; doc_B; doc_C]) (mkWorld [] []))
    = Ok (Some r)
    /\ all_cases (test_cases r) <> []
    /\ dict_get String.eqb "tests" (test_summary r)
       = Some (str_int (Z.of_nat (List.length (all_cases (test_cases r))))).
Proof.
  eexists.
  assert (H1 : forall l x, x = snd (parse_test_result (Some l) (mkWorld [] [])) ->
               snd (parse_test_result (Some l) (mkWorld [] [])) = x)
    by (intros; subst; reflexivity).
  split; [apply H1; vm_compute; reflexivity|].
  split; [vm_compute; discriminate|].
  apply (proj2 (proj2 (X19_report_counters_match_cases
                         [doc_A; doc_B; doc_C] _ (mkWorld [] [])
                         ltac:(apply H1; vm_compute; reflexivity)))).
  - vm_compute; discriminate.
  - simpl; tauto.
Defined.
